(** * Electric-Field-Simulator: field evaluators, collision test and the
      particle stepping callback.

    The Python sources compute with binary64 numbers (NumPy, Numba).  This
    development reads them over the real numbers [R]: the arithmetic is the
    one the code writes down, operation by operation, without rounding and
    without overflow.  Where a run of the program leaves the real numbers
    (a [None] turned into NaN by [np.array(..., dtype=float)], a division by
    zero inside an array expression, the strings ["nan"] and ["inf"]), the
    model answers [NonFinite] and follows the run no further.

    Layout: Python values and dictionaries, NumPy vectors, the six geometry
    modules ([compute_field_*], [E_point], the grid of [simulate]),
    [check_collision], the Dash callback [manejar_particula], and then the
    properties. *)

From Stdlib Require Import Reals Lra Lia ZArith List.
From stdpp Require Import base option list gmap strings.

Open Scope R_scope.

(* ===================================================================== *)
(** ** Outcomes of a Python computation *)
(* ===================================================================== *)

(** The exception classes the modelled code can raise.  [TypingError] is
    Numba's, raised when an [@njit] kernel receives an argument it cannot
    type; all of them derive from [Exception]. *)
Inductive exn : Type :=
  | KeyError
  | TypeError
  | ValueError
  | ZeroDivisionError
  | ModuleNotFoundError
  | TypingError.

Inductive res (A : Type) : Type :=
  | Ok (a : A)
  | Raise (e : exn)
  | NonFinite.
Arguments Ok {A} a.
Arguments Raise {A} e.
Arguments NonFinite {A}.

Definition res_bind {A B : Type} (m : res A) (k : A -> res B) : res B :=
  match m with
  | Ok a => k a
  | Raise e => Raise e
  | NonFinite => NonFinite
  end.

#[global] Instance res_mret : MRet res := fun A a => Ok a.
#[global] Instance res_mbind : MBind res := fun A B k m => res_bind m k.

Fixpoint res_mapM {A B : Type} (f : A -> res B) (l : list A) : res (list B) :=
  match l with
  | [] => Ok []
  | a :: l' => b ← f a; bs ← res_mapM f l'; Ok (b :: bs)
  end.

(* ===================================================================== *)
(** ** Comparisons on reals as booleans *)
(* ===================================================================== *)

Definition Rleb (x y : R) : bool := if Rle_dec x y then true else false.
Definition Rltb (x y : R) : bool := if Rlt_dec x y then true else false.
Definition Reqb (x y : R) : bool := if Req_dec_T x y then true else false.

(** Python's [max(a, b)]: the first argument unless the second is larger. *)
Definition py_max (a b : R) : R := if Rltb a b then b else a.

(* ===================================================================== *)
(** ** Python values held in the Dash store *)
(* ===================================================================== *)

(** The store round-trips through JSON: scalars and flat lists of scalars
    ([pos], [vel], the check-list value of [invert]). *)
Inductive atom : Type :=
  | ANone
  | ABool (b : bool)
  | AInt (z : Z)
  | AFloat (r : R)
  | AStr (s : string).

Inductive pyval : Type :=
  | PyAtom (a : atom)
  | PyList (l : list atom).

Abbreviation dict := (gmap string pyval).

(** Truth value of an object ([bool(v)], as used by [not] and [or]). *)
Definition atom_truthy (a : atom) : bool :=
  match a with
  | ANone => false
  | ABool b => b
  | AInt z => negb (Z.eqb z 0)
  | AFloat r => negb (Reqb r 0)
  | AStr s => negb (String.eqb s "")
  end.

Definition truthy (v : pyval) : bool :=
  match v with
  | PyAtom a => atom_truthy a
  | PyList l => match l with [] => false | _ => true end
  end.

(** [d.get(k)]: the value, or [None] when the key is absent. *)
Definition dict_get (d : dict) (k : string) : pyval :=
  match d !! k with
  | Some v => v
  | None => PyAtom ANone
  end.

(** [d[k]]: raises [KeyError] when the key is absent. *)
Definition dict_item (d : dict) (k : string) : res pyval :=
  match d !! k with
  | Some v => Ok v
  | None => Raise KeyError
  end.

(** [a or b]. *)
Definition py_or (a b : pyval) : pyval := if truthy a then a else b.

(** What Python's [float(str)] makes of a string. *)
Inductive strfloat : Type :=
  | NotAFloat
  | Finite (r : R)
  | Special.

(** A number as Python arithmetic sees it: [bool] is a subclass of [int]. *)
Definition atom_number (a : atom) : option R :=
  match a with
  | ABool b => Some (if b then 1 else 0)
  | AInt z => Some (IZR z)
  | AFloat r => Some r
  | ANone | AStr _ => None
  end.

Definition as_number (v : pyval) : option R :=
  match v with
  | PyAtom a => atom_number a
  | PyList _ => None
  end.

(** Arithmetic between a Python scalar and a float: [TypeError] on
    anything that is not a number. *)
Definition py_number (v : pyval) : res R :=
  match as_number v with
  | Some r => Ok r
  | None => Raise TypeError
  end.

(** An argument handed to an [@njit] kernel. *)
Definition njit_number (v : pyval) : res R :=
  match as_number v with
  | Some r => Ok r
  | None => Raise TypingError
  end.

(** [q / m] on Python scalars. *)
Definition py_truediv (q m : pyval) : res R :=
  a ← py_number q;
  b ← py_number m;
  if Reqb b 0 then Raise ZeroDivisionError else Ok (a / b).

(** [needle in v]. *)
Definition atom_eq_str (s : string) (a : atom) : bool :=
  match a with
  | AStr t => String.eqb s t
  | _ => false
  end.

Definition py_str_in (s : string) (v : pyval) : res bool :=
  match v with
  | PyList l => Ok (existsb (atom_eq_str s) l)
  | PyAtom (AStr t) =>
      Ok (match String.index 0 s t with Some _ => true | None => false end)
  | PyAtom _ => Raise TypeError
  end.

Section FloatOfString.

(** The grammar of [float(str)] belongs to the Python runtime; it is a
    parameter of the model. *)
Variable float_of_str : string -> strfloat.

Definition str_to_float (s : string) : res R :=
  match float_of_str s with
  | NotAFloat => Raise ValueError
  | Finite r => Ok r
  | Special => NonFinite
  end.

(** The builtin [float(v)]. *)
Definition py_float (v : pyval) : res R :=
  match v with
  | PyAtom ANone => Raise TypeError
  | PyAtom (ABool b) => Ok (if b then 1 else 0)
  | PyAtom (AInt z) => Ok (IZR z)
  | PyAtom (AFloat r) => Ok r
  | PyAtom (AStr s) => str_to_float s
  | PyList _ => Raise TypeError
  end.

(** [try: x = float(v) except (ValueError, TypeError): x = dflt] *)
Definition float_or_default (v : res R) (dflt : R) : res R :=
  match v with
  | Ok r => Ok r
  | Raise ValueError | Raise TypeError => Ok dflt
  | Raise e => Raise e
  | NonFinite => NonFinite
  end.

End FloatOfString.

(* ===================================================================== *)
(** ** NumPy vectors and arrays *)
(* ===================================================================== *)

(** A row of an [(n, 3)] array of observation points. *)
Record vec3 : Type := V3 { vx : R; vy : R; vz : R }.

Definition vzero : vec3 := V3 0 0 0.
Definition vadd (a b : vec3) : vec3 := V3 (vx a + vx b) (vy a + vy b) (vz a + vz b).
Definition vsub (a b : vec3) : vec3 := V3 (vx a - vx b) (vy a - vy b) (vz a - vz b).
(** [k * v] and [v / k] with a scalar [k]. *)
Definition vscale (k : R) (v : vec3) : vec3 := V3 (k * vx v) (k * vy v) (k * vz v).
Definition vdiv (v : vec3) (k : R) : vec3 := V3 (vx v / k) (vy v / k) (vz v / k).

(** [np.sum(v**2)] and [np.sqrt(np.sum(v**2))] (also [np.linalg.norm(v)]). *)
Definition sum_sq (v : vec3) : R := vx v ^ 2 + vy v ^ 2 + vz v ^ 2.
Definition norm (v : vec3) : R := sqrt (sum_sq v).

(** Array divided by a scalar inside a kernel: NumPy semantics, a zero
    divisor yields infinities or NaN, not an exception. *)
Definition vdiv_chk (v : vec3) (k : R) : res vec3 :=
  if Reqb k 0 then NonFinite else Ok (vdiv v k).

(** Scalar divided by a scalar: Python semantics, also under [@njit]. *)
Definition sdiv_chk (a b : R) : res R :=
  if Reqb b 0 then Raise ZeroDivisionError else Ok (a / b).

(** What [np.array(v, dtype=float)] yields for a value of the store: a
    0-d array for a scalar, a 1-d array for a list. *)
Inductive ndarray : Type :=
  | Arr0 (x : R)
  | Arr1 (xs : list R).

(** The kernels and the in-place updates of the tick work on 3-vectors.
    With an array of another shape the body of the tick raises: in the
    kernel, in [vel += acc * dt], or at the latest at [x, y, z = pos]. *)
Definition as_vec3 (a : ndarray) : res vec3 :=
  match a with
  | Arr1 [x; y; z] => Ok (V3 x y z)
  | _ => Raise ValueError
  end.

Definition of_vec3 (v : vec3) : ndarray := Arr1 [vx v; vy v; vz v].

(** [range(n)]. *)
Definition py_range (n : Z) : list Z := map Z.of_nat (seq 0 (Z.to_nat n)).

(** [int(x)] on a float: truncation toward zero. *)
Definition py_int (x : R) : Z :=
  if Rleb 0 x then Int_part x else (- Int_part (- x))%Z.

Definition Rceil (x : R) : Z := (- Int_part (- x))%Z.

(** [np.arange(start, stop, step)]: [ceil((stop - start) / step)] values
    [start + i * step].  The number of values is taken here from the real
    quotient; NumPy takes it from the binary64 quotient, which can give one
    value more or less when the quotient is within rounding of an integer.
    The properties below therefore rest on the first value, on the spacing
    and on the arguments only, never on how many values there are. *)
Definition np_arange (start stop step : R) : list R :=
  map (fun i => start + INR i * step)
      (seq 0 (Z.to_nat (Rceil ((stop - start) / step)))).

(** [np.meshgrid(x, y, z, indexing='ij')] flattened into rows
    [(x_i, y_j, z_k)], the first axis varying slowest. *)
Definition meshgrid_points (xs ys zs : list R) : list vec3 :=
  flat_map (fun x => flat_map (fun y => map (fun z => V3 x y z) zs) ys) xs.

(** [utils.math_utils.create_grid] followed by [flatten_grid]. *)
Definition create_grid (x_range y_range z_range : R * R) (step : R)
  : list R * list R * list R :=
  (np_arange (fst x_range) (snd x_range) step,
   np_arange (fst y_range) (snd y_range) step,
   np_arange (fst z_range) (snd z_range) step).

Definition flatten_grid (g : list R * list R * list R) : list vec3 :=
  let '(xs, ys, zs) := g in meshgrid_points xs ys zs.

(** A loop that accumulates into one cell and may stop on an error. *)
Fixpoint res_foldl {A B : Type} (f : B -> A -> res B) (l : list A) (b : B) : res B :=
  match l with
  | [] => Ok b
  | a :: l' => b' ← f b a; res_foldl f l' b'
  end.

(** Keyword argument with its default. *)
Definition kwarg (kwargs : dict) (name : string) (dflt : pyval) : pyval :=
  match kwargs !! name with
  | Some v => v
  | None => dflt
  end.

Definition njit_int (v : pyval) : res Z :=
  match v with
  | PyAtom (AInt z) => Ok z
  | PyAtom (ABool b) => Ok (if b then 1%Z else 0%Z)
  | _ => Raise TypingError
  end.

(** The grid of a [simulate] function: its step and its three axes. *)
Record grid : Type := Grid {
  grid_step : R;
  grid_x : list R;
  grid_y : list R;
  grid_z : list R
}.

Definition grid_points (g : grid) : list vec3 :=
  meshgrid_points (grid_x g) (grid_y g) (grid_z g).

Definition grid_of (step : R) (axes : list R * list R * list R) : grid :=
  let '(xs, ys, zs) := axes in Grid step xs ys zs.

(* ===================================================================== *)
(** ** config.py *)
(* ===================================================================== *)

Definition EPSILON_0 : R := 8.854187817e-12.

(* ===================================================================== *)
(** ** geometries/charged_sphere.py *)
(* ===================================================================== *)

Module charged_sphere.

Definition compute_field_sphere (center : vec3) (radius sigma : R)
    (obs_points : list vec3) (epsilon_0 : R) : res (list vec3) :=
  let q_total := 4 * PI * radius ^ 2 * sigma in
  res_mapM (fun p =>
    let r_vec := vsub p center in
    let r_mag := sqrt (sum_sq r_vec) in
    if Rleb r_mag radius then Ok (V3 0 0 0)
    else vdiv_chk (vscale q_total r_vec) (4 * PI * epsilon_0 * r_mag ^ 3))
  obs_points.

Definition compute_potential_sphere (center : vec3) (radius sigma : R)
    (obs_points : list vec3) (epsilon_0 : R) : res (list R) :=
  let q_total := 4 * PI * radius ^ 2 * sigma in
  res_mapM (fun p =>
    let r_vec := vsub p center in
    let r_mag := sqrt (sum_sq r_vec) in
    if Rleb r_mag radius then sdiv_chk q_total (4 * PI * epsilon_0 * radius)
    else sdiv_chk q_total (4 * PI * epsilon_0 * r_mag))
  obs_points.

(** The sampling grid of [simulate(sigma, radius, show_equipotentials, N,
    epsilon_0, camera_eye)]. *)
Definition simulate_grid (N : Z) : res grid :=
  let extent := 3.0 in
  q ← sdiv_chk (0.8 * 20) (IZR N);
  let grid_step := py_max q 0.2 in
  Ok (Grid grid_step
        (np_arange (- extent) (extent + grid_step) grid_step)
        (np_arange (- extent) (extent + grid_step) grid_step)
        (np_arange (- extent) (extent + grid_step) grid_step)).

(** Names in the signature of [E_point]. *)
Definition parameters : list string :=
  ["r_point"; "sigma"; "radius"; "epsilon_0"; "kwargs"]%string.

Definition E_point (r_point : ndarray) (kwargs : dict) : res vec3 :=
  let sigma := kwarg kwargs "sigma" (PyAtom (AFloat 1e-6)) in
  let radius := kwarg kwargs "radius" (PyAtom (AFloat 1.0)) in
  let epsilon_0 := kwarg kwargs "epsilon_0" (PyAtom (AFloat 8.854e-12)) in
  let center := V3 0.0 0.0 0.0 in
  radius ← njit_number radius;
  sigma ← njit_number sigma;
  epsilon_0 ← njit_number epsilon_0;
  obs ← as_vec3 r_point;
  E ← compute_field_sphere center radius sigma [obs] epsilon_0;
  match E with
  | E0 :: _ => Ok E0
  | [] => Raise ValueError
  end.

End charged_sphere.

(* ===================================================================== *)
(** ** geometries/two_spheres.py *)
(* ===================================================================== *)

Module two_spheres.

Definition compute_field_two_spheres (r1 r2 : vec3) (q1 q2 radius : R)
    (obs_points : list vec3) (epsilon_0 : R) : res (list vec3) :=
  res_mapM (fun p =>
    let r_vec1 := vsub p r1 in
    let r_vec2 := vsub p r2 in
    let d1 := sqrt (sum_sq r_vec1) in
    let d2 := sqrt (sum_sq r_vec2) in
    let E := V3 0 0 0 in
    E ← (if Rltb radius d1
         then c ← vdiv_chk (vscale q1 r_vec1) (4 * PI * epsilon_0 * d1 ^ 3);
              Ok (vadd E c)
         else Ok E);
    if Rltb radius d2
    then c ← vdiv_chk (vscale q2 r_vec2) (4 * PI * epsilon_0 * d2 ^ 3);
         Ok (vadd E c)
    else Ok E)
  obs_points.

Definition compute_potential_two_spheres (r1 r2 : vec3) (q1 q2 radius : R)
    (obs_points : list vec3) (epsilon_0 : R) : res (list R) :=
  res_mapM (fun p =>
    let d1 := norm (vsub p r1) in
    let d2 := norm (vsub p r2) in
    let V := 0 in
    c1 ← (if Rltb radius d1
          then sdiv_chk q1 (4 * PI * epsilon_0 * d1)
          else sdiv_chk q1 (4 * PI * epsilon_0 * radius));
    let V := V + c1 in
    c2 ← (if Rltb radius d2
          then sdiv_chk q2 (4 * PI * epsilon_0 * d2)
          else sdiv_chk q2 (4 * PI * epsilon_0 * radius));
    Ok (V + c2))
  obs_points.

Definition simulate_grid (N : Z) : res grid :=
  let extent := 3.0 in
  q ← sdiv_chk (0.8 * 20) (IZR N);
  let grid_step := py_max q 0.25 in
  Ok (grid_of grid_step
        (create_grid (- extent, extent) (- extent, extent) (- extent, extent)
                     grid_step)).

Definition parameters : list string :=
  ["r_point"; "sigma"; "distance"; "invert_signo"; "N"; "epsilon_0";
   "kwargs"]%string.

Definition E_point (r_point : ndarray) (kwargs : dict) : res vec3 :=
  let sigma := kwarg kwargs "sigma" (PyAtom (AFloat 1e-6)) in
  let distance := kwarg kwargs "distance" (PyAtom (AFloat 1.0)) in
  let invert_signo := kwarg kwargs "invert_signo" (PyAtom (ABool true)) in
  let epsilon_0 := kwarg kwargs "epsilon_0" (PyAtom (AFloat EPSILON_0)) in
  let radius := 0.5 in
  sigma ← py_number sigma;
  let q := 4 * PI * radius ^ 2 * sigma in
  let q1 := q in
  let q2 := if truthy invert_signo then - q else q in
  distance ← py_number distance;
  let r1 := V3 (- distance / 2) 0.0 0.0 in
  let r2 := V3 (distance / 2) 0.0 0.0 in
  epsilon_0 ← njit_number epsilon_0;
  obs ← as_vec3 r_point;
  E ← compute_field_two_spheres r1 r2 q1 q2 radius [obs] epsilon_0;
  match E with
  | E0 :: _ => Ok E0
  | [] => Raise ValueError
  end.

End two_spheres.

(* ===================================================================== *)
(** ** geometries/charged_ring.py *)
(* ===================================================================== *)

Module charged_ring.

Definition compute_field_ring (center : vec3) (radius sigma : R)
    (obs_points : list vec3) (epsilon_0 : R) (N_segments : Z)
  : res (list vec3) :=
  dtheta ← sdiv_chk (2 * PI) (IZR N_segments);
  let dl := radius * dtheta in
  let dq := sigma * dl in
  res_mapM (fun p =>
    res_foldl (fun E i =>
      let theta := IZR i * dtheta in
      let x := vx center + radius * cos theta in
      let y := vy center + radius * sin theta in
      let z := vz center in
      let r_source := V3 x y z in
      let r_vec := vsub p r_source in
      let r_mag := sqrt (sum_sq r_vec) in
      if Rltb 1e-8 r_mag
      then c ← vdiv_chk (vscale dq r_vec) (4 * PI * epsilon_0 * r_mag ^ 3);
           Ok (vadd E c)
      else Ok E)
    (py_range N_segments) (V3 0 0 0))
  obs_points.

Definition simulate_grid (N : Z) : res grid :=
  let extent := 3.0 in
  q ← sdiv_chk (0.8 * 20) (IZR N);
  let grid_step := py_max q 0.2 in
  Ok (grid_of grid_step
        (create_grid (- extent, extent) (- extent, extent) (- extent, extent)
                     grid_step)).

Definition parameters : list string :=
  ["r_point"; "sigma"; "radius"; "epsilon_0"; "N"; "kwargs"]%string.

Definition E_point (r_point : ndarray) (kwargs : dict) : res vec3 :=
  let sigma := kwarg kwargs "sigma" (PyAtom (AFloat 1e-6)) in
  let radius := kwarg kwargs "radius" (PyAtom (AFloat 1.0)) in
  let epsilon_0 := kwarg kwargs "epsilon_0" (PyAtom (AFloat 8.854e-12)) in
  let N := kwarg kwargs "N" (PyAtom (AInt 20)) in
  let center := V3 0.0 0.0 0.0 in
  N ← py_number N;
  let N_segments := py_int (100 + N) in
  radius ← njit_number radius;
  sigma ← njit_number sigma;
  epsilon_0 ← njit_number epsilon_0;
  obs ← as_vec3 r_point;
  E ← compute_field_ring center radius sigma [obs] epsilon_0 N_segments;
  match E with
  | E0 :: _ => Ok E0
  | [] => Raise ValueError
  end.

End charged_ring.

(* ===================================================================== *)
(** ** geometries/charged_cylinder.py *)
(* ===================================================================== *)

Module charged_cylinder.

Definition compute_field_cylinder (center : vec3) (radius height sigma : R)
    (obs_points : list vec3) (N_theta N_z : Z) (epsilon_0 : R)
  : res (list vec3) :=
  dtheta ← sdiv_chk (2 * PI) (IZR N_theta);
  dz ← sdiv_chk height (IZR N_z);
  let dA := radius * dtheta * dz in
  let dq := sigma * dA in
  res_mapM (fun p =>
    res_foldl (fun E i =>
      let theta := IZR i * dtheta in
      let x := vx center + radius * cos theta in
      let y := vy center + radius * sin theta in
      res_foldl (fun E j =>
        let z := vz center - height / 2 + IZR j * dz in
        let r_source := V3 x y z in
        let r_vec := vsub p r_source in
        let r_mag := sqrt (sum_sq r_vec) in
        if Rltb 1e-6 r_mag
        then c ← vdiv_chk (vscale dq r_vec) (4 * PI * epsilon_0 * r_mag ^ 3);
             Ok (vadd E c)
        else Ok E)
      (py_range N_z) E)
    (py_range N_theta) (V3 0 0 0))
  obs_points.

Definition simulate_grid (N : Z) : res grid :=
  let extent := 3.5 in
  q ← sdiv_chk (0.8 * 20) (IZR N);
  let grid_step := py_max q 0.2 in
  Ok (grid_of grid_step
        (create_grid (- extent, extent) (- extent, extent) (- extent, extent)
                     grid_step)).

Definition parameters : list string :=
  ["r_point"; "sigma"; "radius"; "height"; "N"; "epsilon_0"; "kwargs"]%string.

Definition E_point (r_point : ndarray) (kwargs : dict) : res vec3 :=
  let sigma := kwarg kwargs "sigma" (PyAtom (AFloat 1e-6)) in
  let radius := kwarg kwargs "radius" (PyAtom (AFloat 1.0)) in
  let height := kwarg kwargs "height" (PyAtom (AFloat 2.0)) in
  let N := kwarg kwargs "N" (PyAtom (AInt 20)) in
  let epsilon_0 := kwarg kwargs "epsilon_0" (PyAtom (AFloat EPSILON_0)) in
  let center := V3 0.0 0.0 0.0 in
  N ← py_number N;
  let N_theta := Z.max 20 (py_int (40 + N)) in
  let N_z := Z.max 20 (py_int (40 + N)) in
  radius ← njit_number radius;
  height ← njit_number height;
  sigma ← njit_number sigma;
  epsilon_0 ← njit_number epsilon_0;
  obs ← as_vec3 r_point;
  E ← compute_field_cylinder center radius height sigma [obs] N_theta N_z
        epsilon_0;
  match E with
  | E0 :: _ => Ok E0
  | [] => Raise ValueError
  end.

End charged_cylinder.

(* ===================================================================== *)
(** ** geometries/charged_plate.py *)
(* ===================================================================== *)

Module charged_plate.

Definition compute_field_plate (center : vec3) (width height sigma : R)
    (obs_points : list vec3) (epsilon_0 : R) (N : Z) : res (list vec3) :=
  dx ← sdiv_chk width (IZR N);
  dy ← sdiv_chk height (IZR N);
  let dA := dx * dy in
  res_mapM (fun p =>
    res_foldl (fun E i =>
      res_foldl (fun E j =>
        let x := vx center - width / 2 + (IZR i + 0.5) * dx in
        let y := vy center - height / 2 + (IZR j + 0.5) * dy in
        let z := vz center in
        let r_source := V3 x y z in
        let dq := sigma * dA in
        let r_vec := vsub p r_source in
        let r_mag := sqrt (sum_sq r_vec) in
        if Reqb r_mag 0
        then Ok E
        else c ← vdiv_chk (vscale dq r_vec) (4 * PI * epsilon_0 * r_mag ^ 3);
             Ok (vadd E c))
      (py_range N) E)
    (py_range N) (V3 0 0 0))
  obs_points.

Definition simulate_grid (N : Z) : res grid :=
  let extent := 2.0 in
  q ← sdiv_chk (0.8 * 20) (IZR N);
  let grid_step := py_max q 0.2 in
  Ok (grid_of grid_step
        (create_grid (- extent, extent) (- extent, extent) (- extent, extent)
                     grid_step)).

Definition parameters : list string :=
  ["r_point"; "sigma"; "width"; "height"; "epsilon_0"; "N"; "kwargs"]%string.

Definition E_point (r_point : ndarray) (kwargs : dict) : res vec3 :=
  let sigma := kwarg kwargs "sigma" (PyAtom (AFloat 1e-6)) in
  let width := kwarg kwargs "width" (PyAtom (AFloat 1.0)) in
  let height := kwarg kwargs "height" (PyAtom (AFloat 1.0)) in
  let epsilon_0 := kwarg kwargs "epsilon_0" (PyAtom (AFloat 8.854e-12)) in
  let N := kwarg kwargs "N" (PyAtom (AInt 20)) in
  let center := V3 0.0 0.0 0.0 in
  width ← njit_number width;
  height ← njit_number height;
  sigma ← njit_number sigma;
  epsilon_0 ← njit_number epsilon_0;
  N ← njit_int N;
  obs ← as_vec3 r_point;
  E ← compute_field_plate center width height sigma [obs] epsilon_0 N;
  match E with
  | E0 :: _ => Ok E0
  | [] => Raise ValueError
  end.

End charged_plate.

(* ===================================================================== *)
(** ** geometries/parallel_plates.py *)
(* ===================================================================== *)

Module parallel_plates.

Definition compute_field_parallel_plates (pos1 pos2 : vec3) (q1 q2 area : R)
    (obs_points : list vec3) (epsilon_0 : R) : res (list vec3) :=
  let N := 20%Z in
  let w := 2.0 in
  let h := 2.0 in
  let dx := w / IZR N in
  let dy := h / IZR N in
  let dA := dx * dy in
  res_mapM (fun p =>
    res_foldl (fun E i =>
      res_foldl (fun E j =>
        let x := - w / 2 + (IZR i + 0.5) * dx in
        let y := - h / 2 + (IZR j + 0.5) * dy in
        let r1 := V3 x y (vz pos1) in
        s1 ← sdiv_chk q1 area;
        let dq1 := s1 * dA in
        let r_vec1 := vsub p r1 in
        let r_mag1 := sqrt (sum_sq r_vec1) in
        E ← (if Rltb 1e-6 r_mag1
             then c ← vdiv_chk (vscale dq1 r_vec1)
                                (4 * PI * epsilon_0 * r_mag1 ^ 3);
                  Ok (vadd E c)
             else Ok E);
        let r2 := V3 x y (vz pos2) in
        s2 ← sdiv_chk q2 area;
        let dq2 := s2 * dA in
        let r_vec2 := vsub p r2 in
        let r_mag2 := sqrt (sum_sq r_vec2) in
        if Rltb 1e-6 r_mag2
        then c ← vdiv_chk (vscale dq2 r_vec2)
                           (4 * PI * epsilon_0 * r_mag2 ^ 3);
             Ok (vadd E c)
        else Ok E)
      (py_range N) E)
    (py_range N) (V3 0 0 0))
  obs_points.

Definition simulate_grid (N : Z) : res grid :=
  let extent := 3.0 in
  q ← sdiv_chk (0.8 * 20) (IZR N);
  let step := py_max q 0.2 in
  Ok (grid_of step
        (create_grid (- extent, extent) (- extent, extent) (- extent, extent)
                     step)).

Definition parameters : list string :=
  ["r_point"; "sigma"; "distance"; "invert_signo"; "N"; "epsilon_0";
   "kwargs"]%string.

Definition E_point (r_point : ndarray) (kwargs : dict) : res vec3 :=
  let sigma := kwarg kwargs "sigma" (PyAtom (AFloat 1e-6)) in
  let distance := kwarg kwargs "distance" (PyAtom (AFloat 1.0)) in
  let invert_signo := kwarg kwargs "invert_signo" (PyAtom (ABool true)) in
  let epsilon_0 := kwarg kwargs "epsilon_0" (PyAtom (AFloat EPSILON_0)) in
  let width := 2.0 in
  let height := 2.0 in
  let area := width * height in
  sigma ← py_number sigma;
  let q := sigma * area in
  let q1 := q in
  let q2 := if truthy invert_signo then - q else q in
  distance ← py_number distance;
  let pos1 := V3 0.0 0.0 (- distance / 2) in
  let pos2 := V3 0.0 0.0 (distance / 2) in
  epsilon_0 ← njit_number epsilon_0;
  obs ← as_vec3 r_point;
  E ← compute_field_parallel_plates pos1 pos2 q1 q2 area [obs] epsilon_0;
  match E with
  | E0 :: _ => Ok E0
  | [] => Raise ValueError
  end.

End parallel_plates.

(* ===================================================================== *)
(** ** callbacks/particle_simulation.py *)
(* ===================================================================== *)

(** The six modules under [geometries/]. *)
Inductive geom : Type :=
  | charged_sphere_mod
  | charged_ring_mod
  | charged_cylinder_mod
  | charged_plate_mod
  | parallel_plates_mod
  | two_spheres_mod.

Definition module_name (g : geom) : string :=
  match g with
  | charged_sphere_mod => "charged_sphere"
  | charged_ring_mod => "charged_ring"
  | charged_cylinder_mod => "charged_cylinder"
  | charged_plate_mod => "charged_plate"
  | parallel_plates_mod => "parallel_plates"
  | two_spheres_mod => "two_spheres"
  end.

Definition all_geoms : list geom :=
  [charged_sphere_mod; charged_ring_mod; charged_cylinder_mod;
   charged_plate_mod; parallel_plates_mod; two_spheres_mod].

(** [import_module(f"geometries.{v}")]: only the six names resolve. *)
Definition import_module (v : pyval) : res geom :=
  match v with
  | PyAtom (AStr s) =>
      match find (fun g => String.eqb s (module_name g)) all_geoms with
      | Some g => Ok g
      | None => Raise ModuleNotFoundError
      end
  | _ => Raise ModuleNotFoundError
  end.

(** [inspect.signature(geometry_module.E_point).parameters] *)
Definition E_point_parameters (g : geom) : list string :=
  match g with
  | charged_sphere_mod => charged_sphere.parameters
  | charged_ring_mod => charged_ring.parameters
  | charged_cylinder_mod => charged_cylinder.parameters
  | charged_plate_mod => charged_plate.parameters
  | parallel_plates_mod => parallel_plates.parameters
  | two_spheres_mod => two_spheres.parameters
  end.

(** [geometry_module.E_point(pos, **kwargs)] *)
Definition E_func (g : geom) (pos : ndarray) (kwargs : dict) : res vec3 :=
  match g with
  | charged_sphere_mod => charged_sphere.E_point pos kwargs
  | charged_ring_mod => charged_ring.E_point pos kwargs
  | charged_cylinder_mod => charged_cylinder.E_point pos kwargs
  | charged_plate_mod => charged_plate.E_point pos kwargs
  | parallel_plates_mod => parallel_plates.E_point pos kwargs
  | two_spheres_mod => two_spheres.E_point pos kwargs
  end.

Definition py_eq_str (v : pyval) (s : string) : bool :=
  match v with
  | PyAtom (AStr t) => String.eqb t s
  | _ => false
  end.

Definition in_signature (name : string) (g : geom) : bool :=
  existsb (String.eqb name) (E_point_parameters g).

(** What the callback writes to standard output. *)
Inductive log_event : Type :=
  | LogIgnored
  | LogCollision (geometry : pyval)
  | LogError (e : exn).

(** One output of a Dash callback. *)
Inductive upd (A : Type) : Type :=
  | no_update
  | Update (a : A).
Arguments no_update {A}.
Arguments Update {A} a.

Definition outputs : Type := upd dict * upd bool * upd unit.

(** The [State] values of the particle controls and geometry controls. *)
Record inputs : Type := Inputs {
  in_m : atom; in_q : atom;
  in_x0 : atom; in_y0 : atom; in_z0 : atom;
  in_vx0 : atom; in_vy0 : atom; in_vz0 : atom;
  in_geometry_key : pyval;
  in_sigma : pyval; in_radius : pyval; in_distance : pyval;
  in_invert : pyval; in_equipotentials : pyval
}.

(** [not estado]: [None] or an empty dictionary. *)
Definition estado_falsy (estado : option dict) : bool :=
  match estado with
  | None => true
  | Some d => bool_decide (d = ∅)
  end.

Definition dt : R := 0.05.

(** [v * k], the array on the left. *)
Definition vmuls (v : vec3) (k : R) : vec3 := V3 (vx v * k) (vy v * k) (vz v * k).

Definition tolist (v : vec3) : pyval :=
  PyList [AFloat (vx v); AFloat (vy v); AFloat (vz v)].

Section Callbacks.

Variable float_of_str : string -> strfloat.

(** Element conversion of [np.array(..., dtype=float)]: [None] becomes
    NaN, a string is parsed. *)
Definition np_float_atom (a : atom) : res R :=
  match a with
  | ANone => NonFinite
  | ABool b => Ok (if b then 1 else 0)
  | AInt z => Ok (IZR z)
  | AFloat r => Ok r
  | AStr s => str_to_float float_of_str s
  end.

Definition np_array_float (v : pyval) : res ndarray :=
  match v with
  | PyAtom a => x ← np_float_atom a; Ok (Arr0 x)
  | PyList l => xs ← res_mapM np_float_atom l; Ok (Arr1 xs)
  end.

(** [x, y, z = pos] *)
Definition unpack3 (pos : ndarray) : res (R * R * R) :=
  match pos with
  | Arr0 _ => Raise TypeError
  | Arr1 [x; y; z] => Ok (x, y, z)
  | Arr1 _ => Raise ValueError
  end.

(** [float(params.get(key) or 1.0)] guarded by
    [except (ValueError, TypeError)]. *)
Definition param_or_one (params : dict) (key : string) : res R :=
  float_or_default
    (py_float float_of_str (py_or (dict_get params key) (PyAtom (AFloat 1.0))))
    1.0.

Definition check_collision (pos : ndarray) (geometry : pyval) (params : dict)
  : res bool :=
  '(x, y, z) ← unpack3 pos;
  let r := param_or_one params "radius" in
  let d := param_or_one params "distance" in
  let pos := V3 x y z in
  if py_eq_str geometry "charged_sphere" then
    r ← r; Ok (Rleb (norm pos) r)
  else if py_eq_str geometry "charged_ring" then
    r ← r;
    Ok (Rltb (Rabs z) 0.05 && Rltb (Rabs (sqrt (x ^ 2 + y ^ 2) - r)) 0.05)
  else if py_eq_str geometry "charged_cylinder" then
    r ← r;
    let height := 2.0 in
    Ok (Rleb (sqrt (x ^ 2 + y ^ 2)) r && Rleb (Rabs z) (height / 2))
  else if py_eq_str geometry "charged_plate" then
    Ok (Rltb (Rabs z) 0.05 && Rleb (Rabs x) 0.5 && Rleb (Rabs y) 0.5)
  else if py_eq_str geometry "parallel_plates" then
    d ← d;
    let lower := - d / 2 in
    let upper := d / 2 in
    Ok (Rleb (Rabs x) 1 && Rleb (Rabs y) 1 && (Rleb z lower || Rleb upper z))
  else if py_eq_str geometry "two_spheres" then
    r ← r; d ← d;
    let center1 := V3 (d / 2) 0 0 in
    let center2 := V3 (- d / 2) 0 0 in
    Ok (Rleb (norm (vsub pos center1)) r || Rleb (norm (vsub pos center2)) r)
  else Ok false.

(** The keyword arguments the tick assembles from the state, by the
    names found in the signature of [E_point]. *)
Definition build_kwargs (g : geom) (estado : dict) : res dict :=
  let kwargs : dict := ∅ in
  let kwargs :=
    if in_signature "sigma" g
    then <["sigma" := dict_get estado "sigma"]> kwargs else kwargs in
  let kwargs :=
    if in_signature "radius" g
    then <["radius" := dict_get estado "radius"]> kwargs else kwargs in
  let kwargs :=
    if in_signature "distance" g
    then <["distance" := dict_get estado "distance"]> kwargs else kwargs in
  if in_signature "invert_signo" g
  then b ← match estado !! "invert" with
            | Some v => py_str_in "invert" v
            | None => Ok false
            end;
       Ok (<["invert_signo" := PyAtom (ABool b)]> kwargs)
  else Ok kwargs.

(** The body of the [try] block of the tick. *)
Definition step_body (estado : dict) (pos vel : ndarray) (m q : pyval)
  : res (dict * list log_event) :=
  geometry ← dict_item estado "geometry";
  g ← import_module geometry;
  kwargs ← build_kwargs g estado;
  E ← E_func g pos kwargs;
  qm ← py_truediv q m;
  let acc := vscale qm E in
  vel ← as_vec3 vel;
  let vel := vadd vel (vmuls acc dt) in
  pos ← as_vec3 pos;
  let pos := vadd pos (vmuls vel dt) in
  colision ← check_collision (of_vec3 pos) geometry estado;
  let out := if (colision : bool) then [LogCollision geometry] else [] in
  let estado :=
    if (colision : bool)
    then <["activo" := PyAtom (ABool false)]> estado
    else estado in
  let estado := <["pos" := tolist pos]> estado in
  let estado := <["vel" := tolist vel]> estado in
  Ok (estado, out).

(** Lines 112-115 of the tick, before the [try]: an exception here
    leaves the callback. *)
Definition read_state (estado : dict)
  : res (ndarray * ndarray * pyval * pyval) :=
  p ← dict_item estado "pos";
  pos ← np_array_float p;
  v ← dict_item estado "vel";
  vel ← np_array_float v;
  m ← dict_item estado "m";
  q ← dict_item estado "q";
  Ok (pos, vel, m, q).

(** The state a start request builds from the controls. *)
Definition start_state (inp : inputs) : dict :=
  <["simulated" := PyAtom (ABool true)]>
  (<["activo" := PyAtom (ABool true)]>
  (<["pos" := PyList [in_x0 inp; in_y0 inp; in_z0 inp]]>
  (<["vel" := PyList [in_vx0 inp; in_vy0 inp; in_vz0 inp]]>
  (<["m" := PyAtom (in_m inp)]>
  (<["q" := PyAtom (in_q inp)]>
  (<["geometry" := in_geometry_key inp]>
  (<["sigma" := in_sigma inp]>
  (<["radius" := in_radius inp]>
  (<["distance" := in_distance inp]>
  (<["invert" := in_invert inp]> ∅)))))))))).

(** The callback [manejar_particula]: its three outputs, or the
    exception that leaves it, and the lines it prints. *)
Definition manejar_particula (triggered : option string) (inp : inputs)
    (estado : option dict) : res outputs * list log_event :=
  if bool_decide (triggered = Some "stop-button"%string) then
    let nuevo_estado : dict :=
      match estado with
      | Some d => if estado_falsy estado then ∅ else d
      | None => ∅
      end in
    let nuevo_estado := <["activo" := PyAtom (ABool false)]> nuevo_estado in
    (Ok (Update nuevo_estado, Update true, no_update), [])
  else if bool_decide (triggered = Some "start-button"%string) then
    match estado with
    | Some d =>
        if estado_falsy estado || negb (truthy (dict_get d "simulated"))
        then (Ok (no_update, no_update, no_update), [LogIgnored])
        else (Ok (Update (start_state inp), Update false, no_update), [])
    | None => (Ok (no_update, no_update, no_update), [LogIgnored])
    end
  else if bool_decide (triggered = Some "animation-interval"%string) then
    match estado with
    | Some d =>
        if estado_falsy estado
           || negb (truthy (dict_get d "activo"))
           || negb (truthy (dict_get d "pos"))
        then (Ok (no_update, Update true, no_update), [])
        else
          let estado := d in
          match read_state estado with
          | Ok (pos, vel, m, q) =>
              match step_body estado pos vel m q with
              | Ok (estado, out) =>
                  (Ok (Update estado, no_update, no_update), out)
              | Raise e =>
                  (Ok (no_update, no_update, no_update), [LogError e])
              | NonFinite => (NonFinite, [])
              end
          | Raise e => (Raise e, [])
          | NonFinite => (NonFinite, [])
          end
    | None => (Ok (no_update, Update true, no_update), [])
    end
  else (Ok (no_update, no_update, no_update), []).

(** *** The Dash application around the callback *)

(** The [particle-state] store, the [disabled] flag of the interval
    timer, and standard output. *)
Record app : Type := App {
  store : option dict;
  interval_disabled : bool;
  stdout : list log_event
}.

Definition apply_upd {A : Type} (u : upd A) (old : A) : A :=
  match u with
  | no_update => old
  | Update a => a
  end.

(** Dash applies the outputs of a callback that returns; a callback
    that raises updates nothing. *)
Definition dispatch (triggered : option string) (inp : inputs) (a : app)
  : res app :=
  match manejar_particula triggered inp (store a) with
  | (Ok (o_state, o_disabled, _), out) =>
      Ok (App (match o_state with
               | no_update => store a
               | Update d => Some d
               end)
              (apply_upd o_disabled (interval_disabled a))
              (stdout a ++ out))
  | (Raise e, out) => Ok (App (store a) (interval_disabled a) (stdout a ++ out))
  | (NonFinite, _) => NonFinite
  end.

(** One firing of the interval timer: nothing happens while it is
    disabled. *)
Definition tick (inp : inputs) (a : app) : res app :=
  if interval_disabled a then Ok a
  else dispatch (Some "animation-interval"%string) inp a.

(** [n] firings, with the control values read at each of them; the
    states of the application after each firing. *)
Fixpoint run_ticks (inps : list inputs) (a : app) : res (list app) :=
  match inps with
  | [] => Ok []
  | inp :: rest =>
      a' ← tick inp a;
      tl ← run_ticks rest a';
      Ok (a' :: tl)
  end.

End Callbacks.

(** What a run shows of the particle: the store and the timer flag. *)
Definition particle_view (a : app) : option dict * bool :=
  (store a, interval_disabled a).

(* ===================================================================== *)
(** ** main.py *)
(* ===================================================================== *)

(** [geometry_map]: the [simulate] function of each geometry, here its
    sampling grid. *)
Definition geometry_map (g : geom) : Z -> res grid :=
  match g with
  | charged_plate_mod => charged_plate.simulate_grid
  | charged_sphere_mod => charged_sphere.simulate_grid
  | charged_cylinder_mod => charged_cylinder.simulate_grid
  | parallel_plates_mod => parallel_plates.simulate_grid
  | two_spheres_mod => two_spheres.simulate_grid
  | charged_ring_mod => charged_ring.simulate_grid
  end.

(* ===================================================================== *)
(** ** The specification's formulas *)
(* ===================================================================== *)

(** Field of a uniformly charged shell of radius [a] centred at the
    origin, as the specification states it. *)
Definition sphere_closed_form (a sigma epsilon_0 : R) (p : vec3) : vec3 :=
  if Rleb (norm p) a then V3 0 0 0
  else vdiv (vscale (4 * PI * a ^ 2 * sigma) p)
            (4 * PI * epsilon_0 * norm p ^ 3).

(** Keyword arguments that pass all three parameters of the sphere. *)
Definition sphere_kwargs (a sigma eps : R) : dict :=
  <["sigma" := PyAtom (AFloat sigma)]>
    (<["radius" := PyAtom (AFloat a)]>
       (<["epsilon_0" := PyAtom (AFloat eps)]> ∅)).

(** Contribution of one shell of charge [q] and radius [a] centred at [c]. *)
Definition shell_field (q : R) (c : vec3) (a epsilon_0 : R) (p : vec3) : vec3 :=
  if Rleb (norm (vsub p c)) a then V3 0 0 0
  else vdiv (vscale q (vsub p c)) (4 * PI * epsilon_0 * norm (vsub p c) ^ 3).

Definition shell_potential (q : R) (c : vec3) (a epsilon_0 : R) (p : vec3) : R :=
  if Rleb (norm (vsub p c)) a then q / (4 * PI * epsilon_0 * a)
  else q / (4 * PI * epsilon_0 * norm (vsub p c)).


(** Lower bound of the grid step and half-width of the sampled cube, per
    geometry. *)
Definition min_grid_step (g : geom) : R :=
  match g with
  | two_spheres_mod => 0.25
  | _ => 0.2
  end.

Definition grid_extent (g : geom) : R :=
  match g with
  | charged_plate_mod => 2.0
  | charged_cylinder_mod => 3.5
  | _ => 3.0
  end.

(** End of the sampled interval handed to [np.arange]: the sphere adds one
    step to the extent. *)
Definition grid_stop (g : geom) (step : R) : R :=
  match g with
  | charged_sphere_mod => grid_extent g + step
  | _ => grid_extent g
  end.

(** Any two neighbours on an axis are [step] apart. *)
Definition evenly_spaced (step : R) (axis : list R) : Prop :=
  forall (i : nat) (a b : R),
    axis !! i = Some a -> axis !! S i = Some b -> b - a = step.

(** The semi-implicit Euler step on a field value [E]. *)
Definition euler_velocity (q m : R) (E v : vec3) : vec3 :=
  vadd v (vmuls (vscale (q / m) E) dt).

Definition euler_position (p v' : vec3) : vec3 := vadd p (vmuls v' dt).


(** A stored state on which the tick runs: active, at position [p] with
    velocity [v], mass [m], charge [q], in geometry [g]. *)
Definition running_state (float_of_str : string -> strfloat) (d : dict)
    (g : geom) (p v : vec3) (m q : R) : Prop :=
  truthy (dict_get d "activo") = true /\
  (exists vp, d !! "pos" = Some vp /\ truthy vp = true /\
              np_array_float float_of_str vp = Ok (of_vec3 p)) /\
  (exists vv, d !! "vel" = Some vv /\
              np_array_float float_of_str vv = Ok (of_vec3 v)) /\
  (exists vm, d !! "m" = Some vm /\ as_number (vm : pyval) = Some m) /\
  (exists vq, d !! "q" = Some vq /\ as_number (vq : pyval) = Some q) /\
  d !! "geometry" = Some (PyAtom (AStr (module_name g))).

(** The state the tick returns after a step to [p'] with velocity [v']. *)
Definition stepped_state (d : dict) (p' v' : vec3) (colision : bool) : dict :=
  <["vel" := tolist v']>
    (<["pos" := tolist p']>
       (if colision then <["activo" := PyAtom (ABool false)]> d else d)).

(** What a run of the timer shows of the particle, firing by firing. *)
Definition trajectory (float_of_str : string -> strfloat)
    (inps : list inputs) (a : app) : res (list (option dict * bool)) :=
  l ← run_ticks float_of_str inps a; Ok (map particle_view l).

(** *** Sample values *)

(** A parser that accepts no string: enough for states that hold numbers
    only. *)
Definition no_strings : string -> strfloat := fun _ => NotAFloat.

Definition sample_inputs : inputs :=
  Inputs (AFloat 1) (AFloat 1) (AFloat 2) (AFloat 0) (AFloat 0)
         (AFloat 0) (AFloat 0) (AFloat 0)
         (PyAtom (AStr "charged_sphere"))
         (PyAtom (AFloat 1e-6)) (PyAtom (AFloat 1)) (PyAtom (AFloat 1))
         (PyList [AStr "invert"]) (PyList [AStr "equipotentials"]).

(** The state a start request builds from [sample_inputs]: unit mass and
    charge at rest at [(2, 0, 0)], outside the unit sphere. *)
Definition sample_state : dict := start_state sample_inputs.

(** Other control values: a heavier particle elsewhere, another geometry. *)
Definition other_inputs : inputs :=
  Inputs (AFloat 5) (AInt (-3)) (AFloat 7) ANone (AFloat 1)
         (AFloat 4) (AFloat 4) (AFloat 4)
         (PyAtom (AStr "charged_ring"))
         (PyAtom (AFloat 2e-6)) (PyAtom (AFloat 3)) (PyAtom (AFloat 2))
         (PyList []) (PyList []).

(** The same particle with a mass that is not a number. *)
Definition sample_state_bad_mass : dict :=
  <["m" := PyAtom (AStr "heavy")]> sample_state.

(** The same particle started while the mass control was empty: the
    control then holds [None]. *)
Definition sample_state_no_mass : dict :=
  <["m" := PyAtom ANone]> sample_state.



(** The same particle flying towards the unit sphere. *)
Definition sample_state_incoming : dict :=
  <["vel" := PyList [AFloat (-1440); AFloat 0; AFloat 0]]> sample_state.

(* ===================================================================== *)
(** ** More of the code: utilities, controls, potential grids *)
(* ===================================================================== *)

(** *** config.py and utils/math_utils.py *)

Definition K : R := 1 / (4 * 3.14159265359 * EPSILON_0).

Definition distance_3d_numba (p1 p2 : vec3) : R :=
  sqrt ((vx p1 - vx p2) ^ 2 + (vy p1 - vy p2) ^ 2 + (vz p1 - vz p2) ^ 2).

Definition electric_field_point_charge (q : R) (r_source r_field : vec3) : vec3 :=
  let dx := vx r_field - vx r_source in
  let dy := vy r_field - vy r_source in
  let dz := vz r_field - vz r_source in
  let r_squared := dx ^ 2 + dy ^ 2 + dz ^ 2 in
  let r := sqrt r_squared in
  if Reqb r 0 then V3 0.0 0.0 0.0
  else
    let factor := K * q / r ^ 3 in
    V3 (factor * dx) (factor * dy) (factor * dz).

(** *** main.py *)

(** [v in [s1, s2, ...]] for a list of string literals. *)
Definition py_in_strs (v : pyval) (l : list string) : bool :=
  existsb (py_eq_str v) l.

(** The four visibility tests of [update_controls]. *)
Definition show_sigma (geometry : pyval) : bool :=
  py_in_strs geometry
    ["charged_plate"; "charged_sphere"; "charged_cylinder";
     "parallel_plates"; "two_spheres"; "charged_ring"]%string.

Definition show_distance (geometry : pyval) : bool :=
  py_in_strs geometry ["parallel_plates"; "two_spheres"]%string.

Definition show_radius (geometry : pyval) : bool :=
  py_in_strs geometry ["charged_ring"; "charged_cylinder"]%string.

Definition show_invert (geometry : pyval) : bool :=
  py_in_strs geometry ["two_spheres"; "parallel_plates"]%string.

(** [update_controls]: the five controls it returns, in order, each with
    whether it is displayed.  The check-list of the equipotentials has a
    style of its own and is displayed for every value of the dropdown. *)
Definition update_controls (geometry : pyval) : list (string * bool) :=
  [("input-sigma", show_sigma geometry);
   ("input-distance", show_distance geometry);
   ("input-radius", show_radius geometry);
   ("input-equipotentials", true);
   ("input-invert", show_invert geometry)]%string.

(** The data of [dcc.Store(id="particle-state")] in the layout. *)
Definition layout_store : dict :=
  <["simulated" := PyAtom (ABool false)]>
    (<["activo" := PyAtom (ABool false)]> ∅).

(** The second output of [actualizar_grafico], written to the store when
    a figure has been computed. *)
Definition simulated_store : dict :=
  <["simulated" := PyAtom (ABool true)]>
    (<["activo" := PyAtom (ABool false)]> ∅).

(** *** The grid of the equipotentials *)

(** [np.linspace(start, stop, num)] for [num >= 0]: both ends included. *)
Definition np_linspace (start stop : R) (num : nat) : list R :=
  match num with
  | 0%nat => []
  | 1%nat => [start]
  | _ => let step := (stop - start) / INR (num - 1) in
         map (fun i => start + INR i * step) (seq 0 num)
  end.

(** [min(40, max(10, N))] *)
Definition potential_samples (N : Z) : Z := Z.min 40 (Z.max 10 N).

(** One axis of the lattice on which [simulate] evaluates the potential
    when [show_equipotentials] is set: 25 samples for ring and plate, a
    clamped count for cylinder, parallel plates and two spheres; the
    sphere reuses the axis of its field grid. *)
Definition potential_axis (g : geom) (N : Z) : res (list R) :=
  match g with
  | charged_sphere_mod => gr ← charged_sphere.simulate_grid N; Ok (grid_x gr)
  | charged_ring_mod =>
      let extent := 3.0 in Ok (np_linspace (- extent) extent 25)
  | charged_plate_mod =>
      let extent := 2.0 in Ok (np_linspace (- extent) extent 25)
  | charged_cylinder_mod =>
      let extent := 3.5 in
      Ok (np_linspace (- extent) extent (Z.to_nat (potential_samples N)))
  | parallel_plates_mod | two_spheres_mod =>
      let extent := 3.0 in
      Ok (np_linspace (- extent) extent (Z.to_nat (potential_samples N)))
  end.

(** *** geometries/charged_ring.py: the potential *)

Definition compute_potential_ring (center : vec3) (radius sigma : R)
    (obs_points : list vec3) (epsilon_0 : R) (N_segments : Z)
  : res (list R) :=
  dtheta ← sdiv_chk (2 * PI) (IZR N_segments);
  let dl := radius * dtheta in
  let dq := sigma * dl in
  res_mapM (fun p =>
    res_foldl (fun V i =>
      let theta := IZR i * dtheta in
      let x := vx center + radius * cos theta in
      let y := vy center + radius * sin theta in
      let z := vz center in
      let r_source := V3 x y z in
      let r_vec := vsub p r_source in
      let r_mag := sqrt (sum_sq r_vec) in
      if Rltb 1e-8 r_mag
      then c ← sdiv_chk dq (4 * PI * epsilon_0 * r_mag);
           Ok (V + c)
      else Ok V)
    (py_range N_segments) 0)
  obs_points.

(** *** Sums of contributions *)

(** What one source element adds to the field at [p], for the ring, the
    cylinder and the plate: the body of the innermost loop. *)
Definition ring_contribution (center : vec3) (radius sigma epsilon_0 : R)
    (N_segments : Z) (p : vec3) (i : Z) : vec3 :=
  let dtheta := 2 * PI / IZR N_segments in
  let dl := radius * dtheta in
  let dq := sigma * dl in
  let theta := IZR i * dtheta in
  let x := vx center + radius * cos theta in
  let y := vy center + radius * sin theta in
  let z := vz center in
  let r_source := V3 x y z in
  let r_vec := vsub p r_source in
  let r_mag := sqrt (sum_sq r_vec) in
  if Rltb 1e-8 r_mag
  then vdiv (vscale dq r_vec) (4 * PI * epsilon_0 * r_mag ^ 3)
  else V3 0 0 0.

Definition cylinder_contribution (center : vec3)
    (radius height sigma epsilon_0 : R) (N_theta N_z : Z) (p : vec3)
    (i j : Z) : vec3 :=
  let dtheta := 2 * PI / IZR N_theta in
  let dz := height / IZR N_z in
  let dA := radius * dtheta * dz in
  let dq := sigma * dA in
  let theta := IZR i * dtheta in
  let x := vx center + radius * cos theta in
  let y := vy center + radius * sin theta in
  let z := vz center - height / 2 + IZR j * dz in
  let r_source := V3 x y z in
  let r_vec := vsub p r_source in
  let r_mag := sqrt (sum_sq r_vec) in
  if Rltb 1e-6 r_mag
  then vdiv (vscale dq r_vec) (4 * PI * epsilon_0 * r_mag ^ 3)
  else V3 0 0 0.

Definition plate_contribution (center : vec3)
    (width height sigma epsilon_0 : R) (N : Z) (p : vec3) (i j : Z) : vec3 :=
  let dx := width / IZR N in
  let dy := height / IZR N in
  let dA := dx * dy in
  let x := vx center - width / 2 + (IZR i + 0.5) * dx in
  let y := vy center - height / 2 + (IZR j + 0.5) * dy in
  let z := vz center in
  let r_source := V3 x y z in
  let dq := sigma * dA in
  let r_vec := vsub p r_source in
  let r_mag := sqrt (sum_sq r_vec) in
  if Reqb r_mag 0
  then V3 0 0 0
  else vdiv (vscale dq r_vec) (4 * PI * epsilon_0 * r_mag ^ 3).

(** The axial component of what a surface element of the cylinder of
    charge [dq], at height [z] above the observation point and at distance
    [radius] from the axis through it, adds to the field: the third
    component of the loop body of [compute_field_cylinder]. *)
Definition axial_term (radius dq eps z : R) : R :=
  if Rltb 1e-6 (sqrt (radius ^ 2 + z ^ 2))
  then - (dq * z) / (4 * PI * eps * sqrt (radius ^ 2 + z ^ 2) ^ 3)
  else 0.

(** Vector sum of [c i] over a loop [for i in l], and over two nested
    loops. *)
Definition vsum {A : Type} (c : A -> vec3) (l : list A) (E : vec3) : vec3 :=
  fold_left (fun E i => vadd E (c i)) l E.

Definition vsum2 {A B : Type} (c : A -> B -> vec3) (l1 : list A) (l2 : list B)
    (E : vec3) : vec3 :=
  fold_left (fun E i => vsum (c i) l2 E) l1 E.

(** [f 0 + f 1 + ... + f (n - 1)] *)
Fixpoint sum_n (f : nat -> R) (n : nat) : R :=
  match n with
  | O => 0
  | S k => sum_n f k + f k
  end.

(** The truth value of the [simulated] entry of the store. *)
Definition simulated_set (estado : option dict) : bool :=
  match estado with
  | Some d => truthy (dict_get d "simulated")
  | None => false
  end.

(** The particle is at rest in the state machine: no state, an empty
    state, or a falsy [activo] or [pos]. *)
Definition not_running (estado : option dict) : bool :=
  match estado with
  | Some d =>
      estado_falsy estado
      || negb (truthy (dict_get d "activo"))
      || negb (truthy (dict_get d "pos"))
  | None => true
  end.

(** Any sequence of requests and timer firings, each with the control
    values read at that moment. *)
Fixpoint run_events (float_of_str : string -> strfloat)
    (events : list (option string * inputs)) (a : app) : res app :=
  match events with
  | [] => Ok a
  | (triggered, inp) :: rest =>
      a' ← dispatch float_of_str triggered inp a;
      run_events float_of_str rest a'
  end.

(** The sample particle without charge. *)
Definition sample_state_uncharged : dict :=
  <["q" := PyAtom (AInt 0)]> sample_state.

(* ===================================================================== *)
(** * Properties *)
(* ===================================================================== *)

(** ** Booleans of comparisons *)

Lemma Rleb_true_iff (x y : R) : Rleb x y = true <-> x <= y.
Proof. unfold Rleb. destruct (Rle_dec x y); split; intros; congruence || tauto. Qed.

Lemma Rleb_false_iff (x y : R) : Rleb x y = false <-> y < x.
Proof.
  unfold Rleb. destruct (Rle_dec x y); split; intros; try congruence; lra.
Qed.

Lemma Rltb_true_iff (x y : R) : Rltb x y = true <-> x < y.
Proof. unfold Rltb. destruct (Rlt_dec x y); split; intros; congruence || tauto. Qed.

Lemma Rltb_false_iff (x y : R) : Rltb x y = false <-> y <= x.
Proof.
  unfold Rltb. destruct (Rlt_dec x y); split; intros; try congruence; lra.
Qed.

Lemma Reqb_true_iff (x y : R) : Reqb x y = true <-> x = y.
Proof. unfold Reqb. destruct (Req_dec_T x y); split; intros; congruence || tauto. Qed.

Lemma Reqb_false_iff (x y : R) : Reqb x y = false <-> x <> y.
Proof. unfold Reqb. destruct (Req_dec_T x y); split; intros; congruence || tauto. Qed.

Lemma Rltb_negb_Rleb (x y : R) : Rltb x y = negb (Rleb y x).
Proof.
  destruct (Rleb y x) eqn:H; simpl.
  - apply Rltb_false_iff, Rleb_true_iff, H.
  - apply Rltb_true_iff, Rleb_false_iff, H.
Qed.

Lemma py_max_spec (a b : R) : py_max a b = Rmax a b.
Proof.
  unfold py_max, Rmax. destruct (Rltb a b) eqn:H.
  - apply Rltb_true_iff in H. destruct (Rle_dec a b); lra.
  - apply Rltb_false_iff in H. destruct (Rle_dec a b); lra.
Qed.

(** ** Vectors *)

Lemma vsub_origin (p : vec3) : vsub p (V3 0 0 0) = p.
Proof. destruct p as [x y z]. unfold vsub; simpl. f_equal; lra. Qed.

Lemma vadd_origin_l (v : vec3) : vadd (V3 0 0 0) v = v.
Proof. destruct v as [x y z]. unfold vadd; simpl. f_equal; lra. Qed.

Lemma sum_sq_nonneg (v : vec3) : 0 <= sum_sq v.
Proof. unfold sum_sq. nra. Qed.

Lemma norm_nonneg (v : vec3) : 0 <= norm v.
Proof. apply sqrt_pos. Qed.

Lemma norm_vscale (k : R) (v : vec3) : 0 <= k -> norm (vscale k v) = k * norm v.
Proof.
  intros Hk. unfold norm, sum_sq, vscale; cbn [vx vy vz].
  replace ((k * vx v) ^ 2 + (k * vy v) ^ 2 + (k * vz v) ^ 2)
    with ((k * k) * (vx v ^ 2 + vy v ^ 2 + vz v ^ 2)) by ring.
  rewrite sqrt_mult_alt by nra. rewrite sqrt_square by assumption. reflexivity.
Qed.

Lemma vdiv_vscale (k d : R) (v : vec3) : vdiv (vscale k v) d = vscale (k / d) v.
Proof. unfold vdiv, vscale; cbn [vx vy vz]. f_equal; unfold Rdiv; ring. Qed.

Lemma res_mapM_ok {A B : Type} (f : A -> res B) (g : A -> B) (l : list A) :
  (forall a, In a l -> f a = Ok (g a)) -> res_mapM f l = Ok (map g l).
Proof.
  induction l as [|a l IH]; intros H; simpl; [reflexivity|].
  rewrite (H a) by (left; reflexivity). simpl.
  rewrite IH by (intros; apply H; right; assumption). reflexivity.
Qed.

(** ** The charged sphere *)

Lemma sphere_denominator_nonzero (eps r : R) :
  0 < eps -> 0 < r -> 4 * PI * eps * r ^ 3 <> 0.
Proof.
  intros He Hr. pose proof PI_RGT_0 as Hpi.
  assert (0 < r ^ 3) by (apply pow_lt; assumption).
  assert (0 < 4 * PI * eps) by nra.
  nra.
Qed.

Lemma sphere_point_closed_form (a sigma eps : R) (p : vec3) :
  0 < a -> 0 < eps ->
  (let r_vec := vsub p (V3 0 0 0) in
   let r_mag := sqrt (sum_sq r_vec) in
   if Rleb r_mag a then Ok (V3 0 0 0)
   else vdiv_chk (vscale (4 * PI * a ^ 2 * sigma) r_vec)
                 (4 * PI * eps * r_mag ^ 3))
  = Ok (sphere_closed_form a sigma eps p).
Proof.
  intros Ha He. cbv zeta. rewrite vsub_origin. unfold sphere_closed_form.
  fold (norm p). destruct (Rleb (norm p) a) eqn:Hin; [reflexivity|].
  apply Rleb_false_iff in Hin. unfold vdiv_chk.
  assert (Hd : 4 * PI * eps * norm p ^ 3 <> 0)
    by (apply sphere_denominator_nonzero; lra).
  apply Reqb_false_iff in Hd. rewrite Hd. reflexivity.
Qed.

Lemma compute_field_sphere_closed_form (a sigma eps : R) (obs : list vec3) :
  0 < a -> 0 < eps ->
  charged_sphere.compute_field_sphere (V3 0 0 0) a sigma obs eps
  = Ok (map (sphere_closed_form a sigma eps) obs).
Proof.
  intros Ha He. unfold charged_sphere.compute_field_sphere. cbv zeta.
  apply res_mapM_ok. intros p _.
  apply (sphere_point_closed_form a sigma eps p Ha He).
Qed.

Lemma sphere_E_point_closed_form (a sigma eps : R) (p : vec3) :
  0 < a -> 0 < eps ->
  charged_sphere.E_point (of_vec3 p) (sphere_kwargs a sigma eps)
  = Ok (sphere_closed_form a sigma eps p).
Proof.
  intros Ha He. unfold charged_sphere.E_point, sphere_kwargs, kwarg.
  simplify_map_eq. cbn [njit_number as_number atom_number mbind res_mbind res_bind
                        of_vec3 as_vec3].
  replace 0.0 with 0 by lra.
  replace (V3 (vx p) (vy p) (vz p)) with p by (destruct p; reflexivity).
  rewrite compute_field_sphere_closed_form by assumption. reflexivity.
Qed.

Lemma sphere_magnitude_at_distance_two (p : vec3) :
  norm p = 2 ->
  norm (sphere_closed_form 1 1e-6 8.854e-12 p)
  = (4 * PI * 1 ^ 2 * 1e-6) / (4 * PI * 8.854e-12 * 2 ^ 2).
Proof.
  intros Hp. unfold sphere_closed_form.
  assert (Hout : Rleb (norm p) 1 = false) by (apply Rleb_false_iff; lra).
  rewrite Hout, vdiv_vscale, Hp. pose proof PI_RGT_0 as Hpi.
  rewrite norm_vscale.
  - rewrite Hp. field. lra.
  - apply Rlt_le, Rdiv_lt_0_compat; nra.
Qed.

(** C1. For a sphere of radius [a > 0] centred at the origin and
    [epsilon_0 > 0], the field evaluator returns, for every observation
    point [p], exactly zero when [||p|| <= a] and
    [(4 pi a^2 sigma) p / (4 pi epsilon_0 ||p||^3)] otherwise, both as the
    kernel over an array of points and as the point evaluator [E_point];
    for [a = 1], [sigma = 1e-6], [epsilon_0 = 8.854e-12] and any point at
    distance 2 the magnitude is [(4 pi a^2 sigma) / (4 pi epsilon_0 2^2)]
    within relative tolerance [1e-6]. *)
Theorem sphere_field_closed_form (a sigma eps : R) (obs : list vec3) :
  0 < a -> 0 < eps ->
  exists E : list vec3,
    charged_sphere.compute_field_sphere (V3 0 0 0) a sigma obs eps = Ok E /\
    length E = length obs /\
    forall (i : nat) (p : vec3), obs !! i = Some p ->
      exists Ei : vec3,
        E !! i = Some Ei /\
        charged_sphere.E_point (of_vec3 p) (sphere_kwargs a sigma eps) = Ok Ei /\
        (norm p <= a -> Ei = V3 0 0 0) /\
        (a < norm p ->
           Ei = vdiv (vscale (4 * PI * a ^ 2 * sigma) p)
                     (4 * PI * eps * norm p ^ 3)) /\
        (a = 1 -> sigma = 1e-6 -> eps = 8.854e-12 -> norm p = 2 ->
           Rabs (norm Ei - (4 * PI * a ^ 2 * sigma) / (4 * PI * eps * 2 ^ 2))
           <= 1e-6 * ((4 * PI * a ^ 2 * sigma) / (4 * PI * eps * 2 ^ 2))).
Proof.
  intros Ha He. exists (map (sphere_closed_form a sigma eps) obs).
  split; [apply compute_field_sphere_closed_form; assumption|].
  split; [apply length_map|].
  intros i p Hi. exists (sphere_closed_form a sigma eps p).
  split; [rewrite list_lookup_fmap, Hi; reflexivity|].
  split; [apply sphere_E_point_closed_form; assumption|].
  split; [|split].
  - intros Hin. unfold sphere_closed_form.
    apply Rleb_true_iff in Hin. rewrite Hin. reflexivity.
  - intros Hout. unfold sphere_closed_form.
    apply Rleb_false_iff in Hout. rewrite Hout. reflexivity.
  - intros -> -> -> Hp. rewrite sphere_magnitude_at_distance_two by assumption.
    pose proof PI_RGT_0 as Hpi.
    replace (_ - _) with 0 by lra. rewrite Rabs_R0.
    apply Rmult_le_pos; [lra|]. apply Rlt_le, Rdiv_lt_0_compat; nra.
Qed.

Lemma sphere_field_closed_form_witness :
  0 < 1 /\ 0 < 8.854e-12 /\
  exists E : list vec3,
    charged_sphere.compute_field_sphere (V3 0 0 0) 1 1e-6 [V3 2 0 0] 8.854e-12
    = Ok E /\ length E = 1%nat.
Proof.
  split; [lra|]. split; [lra|].
  destruct (sphere_field_closed_form 1 1e-6 8.854e-12 [V3 2 0 0])
    as (E & HE & Hlen & _); [lra|lra|].
  exists E. split; assumption.
Defined.

(** ** Two spheres *)

Lemma shell_denominator_nonzero (eps r : R) :
  0 < eps -> 0 < r -> 4 * PI * eps * r <> 0.
Proof.
  intros He Hr. pose proof PI_RGT_0 as Hpi.
  assert (0 < 4 * PI * eps) by nra. nra.
Qed.

(** One [if d > radius: E[i] += ...] of the field kernel. *)
Lemma shell_step_field (q : R) (c : vec3) (a eps : R) (p E : vec3) :
  0 < a -> 0 < eps ->
  (if Rltb a (sqrt (sum_sq (vsub p c)))
   then c0 ← vdiv_chk (vscale q (vsub p c))
                       (4 * PI * eps * sqrt (sum_sq (vsub p c)) ^ 3);
        Ok (vadd E c0)
   else Ok E)
  = Ok (vadd E (shell_field q c a eps p)).
Proof.
  intros Ha He. unfold shell_field. fold (norm (vsub p c)).
  rewrite Rltb_negb_Rleb. destruct (Rleb (norm (vsub p c)) a) eqn:Hin; cbn [negb].
  - f_equal. destruct E; unfold vadd; simpl. f_equal; lra.
  - apply Rleb_false_iff in Hin. unfold vdiv_chk.
    assert (Hd : 4 * PI * eps * norm (vsub p c) ^ 3 <> 0)
      by (apply sphere_denominator_nonzero; lra).
    apply Reqb_false_iff in Hd. rewrite Hd. reflexivity.
Qed.

(** One [if d > radius: V[i] += ... else: V[i] += ...] of the potential
    kernel. *)
Lemma shell_step_potential (q : R) (c : vec3) (a eps : R) (p : vec3) :
  0 < a -> 0 < eps ->
  (if Rltb a (norm (vsub p c))
   then sdiv_chk q (4 * PI * eps * norm (vsub p c))
   else sdiv_chk q (4 * PI * eps * a))
  = Ok (shell_potential q c a eps p).
Proof.
  intros Ha He. unfold shell_potential, sdiv_chk.
  rewrite Rltb_negb_Rleb. destruct (Rleb (norm (vsub p c)) a) eqn:Hin; cbn [negb].
  - assert (Hd : 4 * PI * eps * a <> 0)
      by (apply shell_denominator_nonzero; lra).
    apply Reqb_false_iff in Hd. rewrite Hd. reflexivity.
  - apply Rleb_false_iff in Hin.
    assert (Hd : 4 * PI * eps * norm (vsub p c) <> 0)
      by (apply shell_denominator_nonzero; lra).
    apply Reqb_false_iff in Hd. rewrite Hd. reflexivity.
Qed.

Lemma two_spheres_field_superposition
    (r1 r2 : vec3) (q1 q2 a eps : R) (obs : list vec3) :
  0 < a -> 0 < eps ->
  two_spheres.compute_field_two_spheres r1 r2 q1 q2 a obs eps
  = Ok (map (fun p => vadd (shell_field q1 r1 a eps p)
                           (shell_field q2 r2 a eps p)) obs).
Proof.
  intros Ha He. unfold two_spheres.compute_field_two_spheres.
  apply res_mapM_ok. intros p _. cbv zeta.
  rewrite (shell_step_field q1 r1 a eps p (V3 0 0 0) Ha He).
  cbn [mbind res_mbind res_bind]. rewrite vadd_origin_l.
  apply (shell_step_field q2 r2 a eps p _ Ha He).
Qed.

Lemma two_spheres_potential_superposition
    (r1 r2 : vec3) (q1 q2 a eps : R) (obs : list vec3) :
  0 < a -> 0 < eps ->
  two_spheres.compute_potential_two_spheres r1 r2 q1 q2 a obs eps
  = Ok (map (fun p => shell_potential q1 r1 a eps p
                      + shell_potential q2 r2 a eps p) obs).
Proof.
  intros Ha He. unfold two_spheres.compute_potential_two_spheres.
  apply res_mapM_ok. intros p _. cbv zeta.
  rewrite (shell_step_potential q1 r1 a eps p Ha He).
  cbn [mbind res_mbind res_bind].
  rewrite (shell_step_potential q2 r2 a eps p Ha He).
  cbn [mbind res_mbind res_bind]. f_equal. lra.
Qed.

Lemma shell_field_inside (q : R) (c : vec3) (a eps : R) (p : vec3) :
  norm (vsub p c) <= a -> shell_field q c a eps p = V3 0 0 0.
Proof.
  intros Hin. unfold shell_field. apply Rleb_true_iff in Hin.
  rewrite Hin. reflexivity.
Qed.

Lemma shell_potential_inside (q : R) (c : vec3) (a eps : R) (p : vec3) :
  norm (vsub p c) <= a -> shell_potential q c a eps p = q / (4 * PI * eps * a).
Proof.
  intros Hin. unfold shell_potential. apply Rleb_true_iff in Hin.
  rewrite Hin. reflexivity.
Qed.

Lemma vadd_origin_r (v : vec3) : vadd v (V3 0 0 0) = v.
Proof. destruct v as [x y z]. unfold vadd; simpl. f_equal; lra. Qed.

(** C3, as the code has it.  At a point inside the first sphere the
    kernel leaves out that sphere's own field and adds its constant
    potential [q1 / (4 pi epsilon_0 a)]; the second sphere still
    contributes its field and potential there, and symmetrically inside
    the second sphere.  The field is the zero vector at points that lie
    within both spheres. *)
Theorem two_spheres_interior (r1 r2 : vec3) (q1 q2 a eps : R) (p : vec3) :
  0 < a -> 0 < eps ->
  (norm (vsub p r1) <= a ->
     two_spheres.compute_field_two_spheres r1 r2 q1 q2 a [p] eps
     = Ok [shell_field q2 r2 a eps p] /\
     two_spheres.compute_potential_two_spheres r1 r2 q1 q2 a [p] eps
     = Ok [q1 / (4 * PI * eps * a) + shell_potential q2 r2 a eps p]) /\
  (norm (vsub p r2) <= a ->
     two_spheres.compute_field_two_spheres r1 r2 q1 q2 a [p] eps
     = Ok [shell_field q1 r1 a eps p] /\
     two_spheres.compute_potential_two_spheres r1 r2 q1 q2 a [p] eps
     = Ok [shell_potential q1 r1 a eps p + q2 / (4 * PI * eps * a)]) /\
  (norm (vsub p r1) <= a -> norm (vsub p r2) <= a ->
     two_spheres.compute_field_two_spheres r1 r2 q1 q2 a [p] eps
     = Ok [V3 0 0 0]).
Proof.
  intros Ha He.
  rewrite two_spheres_field_superposition,
          two_spheres_potential_superposition by assumption.
  cbn [map]. repeat split; intros.
  - rewrite shell_field_inside, vadd_origin_l by assumption. reflexivity.
  - rewrite shell_potential_inside by assumption. reflexivity.
  - rewrite (shell_field_inside q2) , vadd_origin_r by assumption. reflexivity.
  - rewrite (shell_potential_inside q2) by assumption. reflexivity.
  - rewrite !shell_field_inside by assumption. rewrite vadd_origin_l. reflexivity.
Qed.

Lemma norm_x_axis (x y z : R) : y = 0 -> z = 0 -> norm (V3 x y z) = Rabs x.
Proof.
  intros -> ->. unfold norm, sum_sq; cbn [vx vy vz].
  replace (x ^ 2 + 0 ^ 2 + 0 ^ 2) with (Rsqr x) by (unfold Rsqr; ring).
  apply sqrt_Rsqr_abs.
Qed.

Lemma two_spheres_interior_witness :
  0 < 0.5 /\ 0 < EPSILON_0 /\
  two_spheres.compute_field_two_spheres
    (V3 (-1) 0 0) (V3 1 0 0) 1 (-1) 0.5 [V3 (-1) 0 0] EPSILON_0
  = Ok [shell_field (-1) (V3 1 0 0) 0.5 EPSILON_0 (V3 (-1) 0 0)].
Proof.
  assert (He : 0 < EPSILON_0) by (unfold EPSILON_0; lra).
  split; [lra|]. split; [exact He|].
  apply (two_spheres_interior (V3 (-1) 0 0) (V3 1 0 0) 1 (-1) 0.5 EPSILON_0
           (V3 (-1) 0 0)); [lra|exact He|].
  unfold vsub; cbn [vx vy vz]. rewrite norm_x_axis by lra.
  replace (-1 - -1) with 0 by lra. rewrite Rabs_R0. lra.
Defined.

(** C3, as stated, fails: with centres [(-1,0,0)] and [(1,0,0)], radius
    [0.5], opposite charges and [sigma = 1e-6], the centre of the first
    sphere is inside it, yet the field there is not zero, and the
    potential takes different values at two points of that sphere. *)
Lemma two_spheres_interior_counterexample :
  let r1 := V3 (-1) 0 0 in
  let r2 := V3 1 0 0 in
  let q := 4 * PI * 0.5 ^ 2 * 1e-6 in
  let p := V3 (-1) 0 0 in
  let p' := V3 (-1.25) 0 0 in
  norm (vsub p r1) <= 0.5 /\ norm (vsub p' r1) <= 0.5 /\
  (exists E : vec3,
     two_spheres.compute_field_two_spheres r1 r2 q (- q) 0.5 [p] EPSILON_0
     = Ok [E] /\ E <> V3 0 0 0) /\
  (exists V V' : R,
     two_spheres.compute_potential_two_spheres r1 r2 q (- q) 0.5 [p; p']
       EPSILON_0 = Ok [V; V'] /\ V <> V').
Proof.
  cbv zeta. pose proof PI_RGT_0 as Hpi.
  assert (He : 0 < EPSILON_0) by (unfold EPSILON_0; lra).
  assert (Hp1 : norm (vsub (V3 (-1) 0 0) (V3 (-1) 0 0)) = 0).
  { unfold vsub; cbn [vx vy vz]. rewrite norm_x_axis by lra.
    replace (-1 - -1) with 0 by lra. apply Rabs_R0. }
  assert (Hp2 : norm (vsub (V3 (-1) 0 0) (V3 1 0 0)) = 2).
  { unfold vsub; cbn [vx vy vz]. rewrite norm_x_axis by lra.
    replace (-1 - 1) with (- (2)) by lra. rewrite Rabs_Ropp, Rabs_pos_eq; lra. }
  assert (Hq1 : norm (vsub (V3 (-1.25) 0 0) (V3 (-1) 0 0)) = 0.25).
  { unfold vsub; cbn [vx vy vz]. rewrite norm_x_axis by lra.
    replace (-1.25 - -1) with (- (0.25)) by lra.
    rewrite Rabs_Ropp, Rabs_pos_eq; lra. }
  assert (Hq2 : norm (vsub (V3 (-1.25) 0 0) (V3 1 0 0)) = 2.25).
  { unfold vsub; cbn [vx vy vz]. rewrite norm_x_axis by lra.
    replace (-1.25 - 1) with (- (2.25)) by lra.
    rewrite Rabs_Ropp, Rabs_pos_eq; lra. }
  split; [rewrite Hp1; lra|]. split; [rewrite Hq1; lra|]. split.
  - eexists. split.
    + rewrite two_spheres_field_superposition by lra. cbn [map].
      rewrite shell_field_inside, vadd_origin_l by (rewrite Hp1; lra).
      reflexivity.
    + unfold shell_field.
      assert (Hout : Rleb (norm (vsub (V3 (-1) 0 0) (V3 1 0 0))) 0.5 = false)
        by (apply Rleb_false_iff; rewrite Hp2; lra).
      rewrite Hout, Hp2. intros H. apply (f_equal vx) in H.
      unfold vdiv, vscale, vsub in H; cbn [vx vy vz] in H.
      assert (Hd : 4 * PI * EPSILON_0 * 2 ^ 3 <> 0)
        by (apply sphere_denominator_nonzero; lra).
      apply (Rmult_eq_compat_r (4 * PI * EPSILON_0 * 2 ^ 3)) in H.
      unfold Rdiv in H. rewrite Rmult_assoc, Rinv_l in H by exact Hd.
      nra.
  - eexists. eexists. split.
    + rewrite two_spheres_potential_superposition by lra. cbn [map].
      rewrite !(shell_potential_inside _ (V3 (-1) 0 0))
        by (rewrite ?Hp1, ?Hq1; lra).
      reflexivity.
    + unfold shell_potential.
      assert (Hout : Rleb (norm (vsub (V3 (-1) 0 0) (V3 1 0 0))) 0.5 = false)
        by (apply Rleb_false_iff; rewrite Hp2; lra).
      assert (Hout' : Rleb (norm (vsub (V3 (-1.25) 0 0) (V3 1 0 0))) 0.5 = false)
        by (apply Rleb_false_iff; rewrite Hq2; lra).
      rewrite Hout, Hout', Hp2, Hq2. intros H.
      apply Rplus_eq_reg_l in H.
      assert (Hk : 4 * PI * EPSILON_0 <> 0) by nra.
      assert (Hinv : / (4 * PI * EPSILON_0 * 2) = / (4 * PI * EPSILON_0 * 2.25)).
      { unfold Rdiv in H. apply Rmult_eq_reg_l in H; [exact H|]. nra. }
      apply Rinv_eq_reg in Hinv. nra.
Qed.

(** ** The collision detector *)

Ltac eval_string_tests :=
  repeat match goal with
  | |- context [String.eqb ?s ?t] =>
      let b := eval vm_compute in (String.eqb s t) in
      change (String.eqb s t) with b
  end.

Lemma py_float_raises (fos : string -> strfloat) (v : pyval) (e : exn) :
  py_float fos v = Raise e -> e = TypeError \/ e = ValueError.
Proof.
  destruct v as [[| b | z | r | s] | l]; simpl; try congruence;
    try (intros [= <-]; tauto).
  unfold str_to_float. destruct (fos s); try congruence. intros [= <-]; tauto.
Qed.

Lemma param_or_one_falsy (fos : string -> strfloat) (params : dict) (key : string) :
  truthy (dict_get params key) = false ->
  param_or_one fos params key = Ok 1.0.
Proof. intros H. unfold param_or_one, py_or. rewrite H. reflexivity. Qed.

Lemma param_or_one_unconvertible
    (fos : string -> strfloat) (params : dict) (key : string) (e : exn) :
  py_float fos (dict_get params key) = Raise e ->
  param_or_one fos params key = Ok 1.0.
Proof.
  intros H. unfold param_or_one, py_or.
  destruct (truthy (dict_get params key)); [|reflexivity].
  rewrite H. destruct (py_float_raises _ _ _ H) as [-> | ->]; reflexivity.
Qed.

Lemma check_collision_depends_on_params
    (fos : string -> strfloat) (pos : ndarray) (geometry : pyval)
    (params params' : dict) :
  param_or_one fos params "radius" = param_or_one fos params' "radius" ->
  param_or_one fos params "distance" = param_or_one fos params' "distance" ->
  check_collision fos pos geometry params
  = check_collision fos pos geometry params'.
Proof. intros Hr Hd. unfold check_collision. rewrite Hr, Hd. reflexivity. Qed.

Lemma param_or_one_nonzero
    (fos : string -> strfloat) (params : dict) (key : string) (a : R) :
  params !! key = Some (PyAtom (AFloat a)) -> a <> 0 ->
  param_or_one fos params key = Ok a.
Proof.
  intros Hk Ha. unfold param_or_one, py_or, dict_get. rewrite Hk.
  apply Reqb_false_iff in Ha. cbn [truthy atom_truthy]. rewrite Ha.
  reflexivity.
Qed.



(** C10. A [radius] or [distance] entry that is falsy (absent, [None],
    [False], [0], [0.0], the empty string, an empty list) or that [float]
    refuses is replaced by [1.0] before the geometric test; an explicit
    radius [0] gives the same answers as radius [1.0]. *)
Theorem falsy_parameter_defaults_to_one
    (fos : string -> strfloat) (params : dict) (key : string) :
  (params !! key = None -> param_or_one fos params key = Ok 1.0) /\
  (forall v : pyval,
     params !! key = Some v ->
     v = PyAtom ANone \/ v = PyAtom (ABool false) \/ v = PyAtom (AInt 0) \/
     v = PyAtom (AFloat 0) \/ v = PyAtom (AFloat 0.0) \/ v = PyAtom (AStr "") \/
     v = PyList [] \/ (exists e : exn, py_float fos v = Raise e) ->
     param_or_one fos params key = Ok 1.0) /\
  (forall (pos : ndarray) (geometry : pyval),
     check_collision fos pos geometry (<["radius" := PyAtom (AInt 0)]> params)
     = check_collision fos pos geometry
         (<["radius" := PyAtom (AFloat 1.0)]> params)).
Proof.
  assert (H0 : Reqb 0 0 = true) by (apply Reqb_true_iff; reflexivity).
  assert (H00 : Reqb 0.0 0 = true) by (apply Reqb_true_iff; lra).
  assert (H1 : Reqb 1.0 0 = false) by (apply Reqb_false_iff; lra).
  split; [|split].
  - intros Hk. apply param_or_one_falsy. unfold dict_get. rewrite Hk. reflexivity.
  - intros v Hk Hv.
    assert (Hget : dict_get params key = v) by (unfold dict_get; rewrite Hk; reflexivity).
    destruct Hv as [-> | [-> | [-> | [-> | [-> | [-> | [-> | [e He]]]]]]]];
      try (apply param_or_one_falsy; rewrite Hget; cbn [truthy atom_truthy];
           rewrite ?H0, ?H00; reflexivity).
    apply (param_or_one_unconvertible fos params key e). rewrite Hget. exact He.
  - intros pos geometry. apply check_collision_depends_on_params.
    + unfold param_or_one, py_or, dict_get. simplify_map_eq.
      cbn [truthy atom_truthy py_float float_or_default Z.eqb negb].
      rewrite H1. reflexivity.
    + unfold param_or_one, py_or, dict_get. simplify_map_eq. reflexivity.
Qed.

Lemma falsy_parameter_defaults_to_one_witness :
  param_or_one (fun _ => NotAFloat)
    {["radius" := PyAtom (AStr "wide")]} "radius" = Ok 1.0.
Proof.
  apply (proj1 (proj2 (falsy_parameter_defaults_to_one (fun _ => NotAFloat)
                         {["radius" := PyAtom (AStr "wide")]} "radius"))
           (PyAtom (AStr "wide"))).
  - apply lookup_singleton_eq.
  - do 7 right. exists ValueError. reflexivity.
Defined.

(** ** The sampling grid *)

Lemma np_arange_evenly_spaced (start stop step : R) :
  evenly_spaced step (np_arange start stop step).
Proof.
  intros i a b. unfold np_arange. rewrite !list_lookup_fmap.
  destruct (seq 0 _ !! i) as [k|] eqn:Hi; [|discriminate].
  destruct (seq 0 _ !! S i) as [k'|] eqn:Hi'; [|discriminate].
  apply lookup_seq in Hi as [-> _]. apply lookup_seq in Hi' as [-> _].
  cbn [fmap option_fmap option_map]. intros [= <-] [= <-].
  change (match i with 0%nat => 1 | S _ => INR i + 1 end) with (INR (S i)).
  rewrite S_INR. ring.
Qed.

Lemma grid_quotient_ok (N : Z) :
  (1 <= N)%Z -> sdiv_chk (0.8 * 20) (IZR N) = Ok (0.8 * 20 / IZR N).
Proof.
  intros HN. unfold sdiv_chk. apply IZR_le in HN.
  assert (H : IZR N <> 0) by lra.
  apply Reqb_false_iff in H. rewrite H. reflexivity.
Qed.

Lemma simulate_grid_shape (g : geom) (N : Z) :
  (1 <= N)%Z ->
  geometry_map g N
  = Ok (let step := Rmax (0.8 * 20 / IZR N) (min_grid_step g) in
        let axis := np_arange (- grid_extent g) (grid_stop g step) step in
        Grid step axis axis axis).
Proof.
  intros HN.
  destruct g; cbn [geometry_map];
    unfold charged_sphere.simulate_grid, charged_ring.simulate_grid,
      charged_cylinder.simulate_grid, charged_plate.simulate_grid,
      parallel_plates.simulate_grid, two_spheres.simulate_grid;
    cbv zeta; rewrite (grid_quotient_ok N HN);
    cbn [mbind res_mbind res_bind grid_of create_grid fst snd
         min_grid_step grid_extent grid_stop];
    rewrite py_max_spec; reflexivity.
Qed.

(** C5, as the code has it.  For resolution [N >= 1] the grid of
    [simulate] has the step [max(0.8 * 20 / N, 0.2)] for the sphere, ring,
    cylinder, plate and parallel plates, and [max(0.8 * 20 / N, 0.25)] for
    the two spheres; each of its three axes is [np.arange] with that step,
    so neighbouring grid values are exactly one step apart. *)
Theorem grid_step_by_geometry (g : geom) (N : Z) :
  (1 <= N)%Z ->
  exists gr : grid,
    geometry_map g N = Ok gr /\
    grid_step gr = Rmax (0.8 * 20 / IZR N) (min_grid_step g) /\
    grid_x gr = np_arange (- grid_extent g) (grid_stop g (grid_step gr))
                  (grid_step gr) /\
    grid_y gr = grid_x gr /\ grid_z gr = grid_x gr /\
    evenly_spaced (grid_step gr) (grid_x gr) /\
    evenly_spaced (grid_step gr) (grid_y gr) /\
    evenly_spaced (grid_step gr) (grid_z gr).
Proof.
  intros HN. rewrite (simulate_grid_shape g N HN). cbv zeta.
  eexists. split; [reflexivity|]. cbn [grid_step grid_x grid_y grid_z].
  repeat split; apply np_arange_evenly_spaced.
Qed.

Lemma grid_step_by_geometry_witness :
  exists gr : grid,
    geometry_map charged_ring_mod 20 = Ok gr /\
    grid_step gr = Rmax (0.8 * 20 / 20) 0.2.
Proof.
  destruct (grid_step_by_geometry charged_ring_mod 20) as (gr & Hg & Hs & _);
    [lia|].
  exists gr. split; [exact Hg | exact Hs].
Defined.

(** C5, as stated, fails for the two spheres: at [N = 100] the step is
    [0.25], not [max(0.8 * 20 / 100, 0.2) = 0.2]. *)
Lemma grid_step_two_spheres_counterexample :
  exists gr : grid,
    geometry_map two_spheres_mod 100 = Ok gr /\
    grid_step gr = 0.25 /\
    grid_step gr <> Rmax (0.8 * 20 / 100) 0.2.
Proof.
  rewrite (simulate_grid_shape two_spheres_mod 100) by lia. cbv zeta.
  eexists. split; [reflexivity|]. cbn [grid_step min_grid_step].
  assert (H1 : Rmax (0.8 * 20 / 100) 0.25 = 0.25)
    by (apply Rmax_right; lra).
  assert (H2 : Rmax (0.8 * 20 / 100) 0.2 = 0.2)
    by (apply Rmax_right; lra).
  rewrite H1, H2. split; [reflexivity|lra].
Qed.

(** ** The stepping callback *)

Lemma as_vec3_of_vec3 (p : vec3) : as_vec3 (of_vec3 p) = Ok p.
Proof. destruct p; reflexivity. Qed.

Lemma import_module_name (g : geom) :
  import_module (PyAtom (AStr (module_name g))) = Ok g.
Proof. destruct g; reflexivity. Qed.

Lemma estado_truthy_of_key (d : dict) (k : string) :
  truthy (dict_get d k) = true -> estado_falsy (Some d) = false.
Proof.
  intros H. unfold estado_falsy. apply bool_decide_eq_false. intros ->.
  unfold dict_get in H. rewrite lookup_empty in H. discriminate.
Qed.

Lemma py_truediv_numbers (vq vm : pyval) (q m : R) :
  as_number vq = Some q -> as_number vm = Some m -> m <> 0 ->
  py_truediv vq vm = Ok (q / m).
Proof.
  intros Hq Hm Hm0. unfold py_truediv, py_number. rewrite Hq, Hm.
  cbn [mbind res_mbind res_bind]. apply Reqb_false_iff in Hm0.
  rewrite Hm0. reflexivity.
Qed.

Lemma on_interval_running (fos : string -> strfloat) (inp : inputs) (d : dict) :
  truthy (dict_get d "activo") = true ->
  truthy (dict_get d "pos") = true ->
  manejar_particula fos (Some "animation-interval"%string) inp (Some d)
  = match read_state fos d with
    | Ok (pos, vel, m, q) =>
        match step_body fos d pos vel m q with
        | Ok (estado, out) => (Ok (Update estado, no_update, no_update), out)
        | Raise e => (Ok (no_update, no_update, no_update), [LogError e])
        | NonFinite => (NonFinite, [])
        end
    | Raise e => (Raise e, [])
    | NonFinite => (NonFinite, [])
    end.
Proof.
  intros Ha Hp. unfold manejar_particula.
  rewrite (bool_decide_eq_false_2 (Some _ = Some "stop-button"%string))
    by discriminate.
  rewrite (bool_decide_eq_false_2 (Some _ = Some "start-button"%string))
    by discriminate.
  rewrite (bool_decide_eq_true_2 (Some _ = Some "animation-interval"%string))
    by reflexivity.
  rewrite (estado_truthy_of_key d "activo" Ha), Ha, Hp. reflexivity.
Qed.

Lemma read_state_running (fos : string -> strfloat) (d : dict) (g : geom)
    (p v : vec3) (m q : R) :
  running_state fos d g p v m q ->
  exists vm vq : pyval,
    read_state fos d = Ok (of_vec3 p, of_vec3 v, vm, vq) /\
    as_number vm = Some m /\ as_number vq = Some q /\
    truthy (dict_get d "pos") = true.
Proof.
  intros (_ & (vp & Hp & Htp & Hnp) & (vv & Hv & Hnv) & (vm & Hm & Hnm)
          & (vq & Hq & Hnq) & _).
  exists vm, vq. unfold read_state, dict_item, dict_get.
  rewrite Hp, Hv, Hm, Hq. cbn [mbind res_mbind res_bind].
  rewrite Hnp. cbn [mbind res_mbind res_bind]. rewrite Hnv.
  cbn [mbind res_mbind res_bind]. auto.
Qed.

Lemma step_body_running (fos : string -> strfloat) (d : dict) (g : geom)
    (p v : vec3) (vm vq : pyval) (m q : R) (kwargs : dict) (E : vec3) (c : bool) :
  d !! "geometry" = Some (PyAtom (AStr (module_name g))) ->
  as_number vm = Some m -> as_number vq = Some q -> m <> 0 ->
  build_kwargs g d = Ok kwargs ->
  E_func g (of_vec3 p) kwargs = Ok E ->
  check_collision fos
    (of_vec3 (euler_position p (euler_velocity q m E v)))
    (PyAtom (AStr (module_name g))) d = Ok c ->
  step_body fos d (of_vec3 p) (of_vec3 v) vm vq
  = Ok (stepped_state d (euler_position p (euler_velocity q m E v))
          (euler_velocity q m E v) c,
        if c then [LogCollision (PyAtom (AStr (module_name g)))] else []).
Proof.
  intros Hg Hm Hq Hm0 Hkw HE Hc. unfold step_body, dict_item.
  rewrite Hg. cbn [mbind res_mbind res_bind]. rewrite import_module_name.
  cbn [mbind res_mbind res_bind]. rewrite Hkw.
  cbn [mbind res_mbind res_bind]. rewrite HE.
  cbn [mbind res_mbind res_bind].
  rewrite (py_truediv_numbers vq vm q m Hq Hm Hm0).
  cbn [mbind res_mbind res_bind]. rewrite !as_vec3_of_vec3.
  cbn [mbind res_mbind res_bind].
  unfold euler_position, euler_velocity in Hc. rewrite Hc.
  cbn [mbind res_mbind res_bind]. unfold stepped_state, euler_position,
    euler_velocity. destruct c; reflexivity.
Qed.


Lemma tick_running (fos : string -> strfloat) (inp : inputs) (d : dict)
    (g : geom) (p v : vec3) (m q : R) (kwargs : dict) (E : vec3) (c : bool) :
  running_state fos d g p v m q -> m <> 0 ->
  build_kwargs g d = Ok kwargs ->
  E_func g (of_vec3 p) kwargs = Ok E ->
  check_collision fos
    (of_vec3 (euler_position p (euler_velocity q m E v)))
    (PyAtom (AStr (module_name g))) d = Ok c ->
  manejar_particula fos (Some "animation-interval"%string) inp (Some d)
  = (Ok (Update (stepped_state d (euler_position p (euler_velocity q m E v))
                   (euler_velocity q m E v) c),
         no_update, no_update),
     if c then [LogCollision (PyAtom (AStr (module_name g)))] else []).
Proof.
  intros Hrun Hm0 Hkw HE Hc.
  destruct (read_state_running fos d g p v m q Hrun)
    as (vm & vq & Hread & Hm & Hq & Hpos).
  destruct Hrun as (Hact & _ & _ & _ & _ & Hg).
  rewrite on_interval_running by assumption. rewrite Hread.
  rewrite (step_body_running fos d g p v vm vq m q kwargs E c); auto.
Qed.

Lemma sphere_E_point_of_kwargs (kwargs : dict) (a sigma eps : R) (p : vec3) :
  0 < a -> 0 < eps ->
  as_number (kwarg kwargs "sigma" (PyAtom (AFloat 1e-6))) = Some sigma ->
  as_number (kwarg kwargs "radius" (PyAtom (AFloat 1.0))) = Some a ->
  as_number (kwarg kwargs "epsilon_0" (PyAtom (AFloat 8.854e-12))) = Some eps ->
  charged_sphere.E_point (of_vec3 p) kwargs
  = Ok (sphere_closed_form a sigma eps p).
Proof.
  intros Ha He Hs Hr Hep. unfold charged_sphere.E_point, njit_number.
  rewrite Hs, Hr, Hep. cbn [mbind res_mbind res_bind].
  rewrite as_vec3_of_vec3. cbn [mbind res_mbind res_bind].
  replace 0.0 with 0 by lra.
  rewrite compute_field_sphere_closed_form by assumption. reflexivity.
Qed.

Ltac eval_signature_tests :=
  repeat match goal with
  | |- context [in_signature ?s ?g] =>
      let b := eval vm_compute in (in_signature s g) in
      change (in_signature s g) with b
  end.

Lemma build_kwargs_sphere (d : dict) :
  build_kwargs charged_sphere_mod d
  = Ok (<["radius" := dict_get d "radius"]>
          (<["sigma" := dict_get d "sigma"]> ∅)).
Proof. unfold build_kwargs. eval_signature_tests. reflexivity. Qed.

Lemma sample_state_running :
  running_state no_strings sample_state charged_sphere_mod
    (V3 2 0 0) (V3 0 0 0) 1 1.
Proof.
  unfold running_state, sample_state, start_state, dict_get, sample_inputs.
  cbn [in_x0 in_y0 in_z0 in_vx0 in_vy0 in_vz0 in_m in_q in_geometry_key
       in_sigma in_radius in_distance in_invert].
  simplify_map_eq. split; [reflexivity|].
  split; [eexists; split; [reflexivity|]; split; reflexivity|].
  split; [eexists; split; reflexivity|].
  split; [eexists; split; reflexivity|].
  split; [eexists; split; reflexivity|]. reflexivity.
Qed.

Lemma sample_state_params :
  dict_get sample_state "sigma" = PyAtom (AFloat 1e-6) /\
  dict_get sample_state "radius" = PyAtom (AFloat 1) /\
  param_or_one no_strings sample_state "radius" = Ok 1.
Proof.
  unfold param_or_one, py_or, dict_get, sample_state, start_state, sample_inputs.
  cbn [in_sigma in_radius]. simplify_map_eq.
  assert (Ht : Reqb 1 0 = false) by (apply Reqb_false_iff; lra).
  cbn [truthy atom_truthy]. rewrite Ht. repeat split; reflexivity.
Qed.

(** The field the sample particle feels: the tick passes [sigma] and
    [radius] of the state and leaves [epsilon_0] to the default. *)
Lemma sample_state_field (eps_kw : option R) (eps : R) :
  0 < eps ->
  eps = match eps_kw with Some e => e | None => 8.854e-12 end ->
  forall kwargs : dict,
    build_kwargs charged_sphere_mod sample_state = Ok kwargs ->
    E_func charged_sphere_mod (of_vec3 (V3 2 0 0))
      (match eps_kw with
       | Some e => <["epsilon_0" := PyAtom (AFloat e)]> kwargs
       | None => kwargs
       end)
    = Ok (sphere_closed_form 1 1e-6 eps (V3 2 0 0)).
Proof.
  intros He Heq kwargs Hkw. rewrite build_kwargs_sphere in Hkw.
  injection Hkw as <-. destruct sample_state_params as (Hs & Hr & _).
  rewrite Hs, Hr. cbn [E_func].
  apply sphere_E_point_of_kwargs; try lra;
    unfold kwarg; destruct eps_kw; simplify_map_eq; reflexivity.
Qed.

Lemma norm_sample_point : norm (V3 2 0 0) = 2.
Proof. rewrite norm_x_axis by reflexivity. apply Rabs_pos_eq. lra. Qed.

Lemma sample_field_x (eps : R) :
  0 < eps ->
  vx (sphere_closed_form 1 1e-6 eps (V3 2 0 0))
  = 4 * PI * 1 ^ 2 * 1e-6 * 2 / (4 * PI * eps * 2 ^ 3).
Proof.
  intros He. unfold sphere_closed_form. rewrite norm_sample_point.
  assert (Hout : Rleb 2 1 = false) by (apply Rleb_false_iff; lra).
  rewrite Hout. reflexivity.
Qed.

Lemma kwarg_insert_ne (kwargs : dict) (k k' : string) (x dflt : pyval) :
  k <> k' -> kwarg (<[k := x]> kwargs) k' dflt = kwarg kwargs k' dflt.
Proof. intros H. unfold kwarg. rewrite lookup_insert_ne by exact H. reflexivity. Qed.

Lemma kwarg_insert_eq (kwargs : dict) (k : string) (x dflt : pyval) :
  kwarg (<[k := x]> kwargs) k dflt = x.
Proof. unfold kwarg. rewrite lookup_insert_eq. reflexivity. Qed.

Lemma kwarg_absent (kwargs : dict) (k : string) (dflt : pyval) :
  kwargs !! k = None -> kwarg kwargs k dflt = dflt.
Proof. intros H. unfold kwarg. rewrite H. reflexivity. Qed.



Lemma stepped_state_lookup (d : dict) (p' v' : vec3) (c : bool) :
  stepped_state d p' v' c !! "pos" = Some (tolist p') /\
  stepped_state d p' v' c !! "vel" = Some (tolist v') /\
  stepped_state d p' v' c !! "activo"
  = (if c then Some (PyAtom (ABool false)) else d !! "activo") /\
  forall k : string,
    k <> "pos"%string -> k <> "vel"%string -> k <> "activo"%string ->
    stepped_state d p' v' c !! k = d !! k.
Proof.
  unfold stepped_state. repeat split.
  - simplify_map_eq. reflexivity.
  - simplify_map_eq. reflexivity.
  - destruct c; simplify_map_eq; reflexivity.
  - intros k H1 H2 H3. destruct c; simplify_map_eq; reflexivity.
Qed.



Lemma sample_field_positive (eps : R) :
  0 < eps -> 0 < vx (sphere_closed_form 1 1e-6 eps (V3 2 0 0)).
Proof.
  intros He. rewrite sample_field_x by exact He. pose proof PI_RGT_0 as Hpi.
  apply Rdiv_lt_0_compat; [nra|].
  assert (0 < 4 * PI * eps) by nra. nra.
Qed.

Lemma sample_field_yz (eps : R) :
  vy (sphere_closed_form 1 1e-6 eps (V3 2 0 0)) = 0 /\
  vz (sphere_closed_form 1 1e-6 eps (V3 2 0 0)) = 0.
Proof.
  unfold sphere_closed_form. rewrite norm_sample_point.
  assert (Hout : Rleb 2 1 = false) by (apply Rleb_false_iff; lra).
  rewrite Hout. unfold vdiv, vscale; cbn [vx vy vz].
  split; unfold Rdiv; ring.
Qed.

(** The sample particle after one step is still outside the unit sphere. *)
Lemma sample_state_no_collision :
  let E := sphere_closed_form 1 1e-6 8.854e-12 (V3 2 0 0) in
  check_collision no_strings
    (of_vec3 (euler_position (V3 2 0 0) (euler_velocity 1 1 E (V3 0 0 0))))
    (PyAtom (AStr (module_name charged_sphere_mod))) sample_state = Ok false.
Proof.
  cbv zeta. unfold check_collision.
  cbn [of_vec3 unpack3 mbind res_mbind res_bind py_eq_str module_name].
  destruct sample_state_params as (_ & _ & Hr). rewrite Hr.
  eval_string_tests. cbn [mbind res_mbind res_bind]. f_equal.
  apply Rleb_false_iff.
  pose proof (sample_field_positive 8.854e-12 ltac:(lra)) as Hx.
  destruct (sample_field_yz 8.854e-12) as (Hy & Hz).
  unfold euler_position, euler_velocity, vadd, vmuls, vscale, dt;
    cbn [vx vy vz]. rewrite Hy, Hz.
  rewrite norm_x_axis by lra.
  set (Ex := vx (sphere_closed_form 1 1e-6 8.854e-12 (V3 2 0 0))) in *.
  rewrite Rabs_pos_eq; nra.
Qed.


Lemma sample_state_tick :
  manejar_particula no_strings (Some "animation-interval"%string)
    sample_inputs (Some sample_state)
  = (Ok (Update
           (stepped_state sample_state
              (euler_position (V3 2 0 0)
                 (euler_velocity 1 1
                    (sphere_closed_form 1 1e-6 8.854e-12 (V3 2 0 0))
                    (V3 0 0 0)))
              (euler_velocity 1 1
                 (sphere_closed_form 1 1e-6 8.854e-12 (V3 2 0 0)) (V3 0 0 0))
              false),
         no_update, no_update), []).
Proof.
  apply (tick_running no_strings sample_inputs sample_state
           charged_sphere_mod (V3 2 0 0) (V3 0 0 0) 1 1
           (<["radius" := dict_get sample_state "radius"]>
              (<["sigma" := dict_get sample_state "sigma"]> ∅))
           (sphere_closed_form 1 1e-6 8.854e-12 (V3 2 0 0)) false).
  - exact sample_state_running.
  - lra.
  - apply build_kwargs_sphere.
  - apply (sample_state_field None 8.854e-12); [lra|reflexivity|].
    apply build_kwargs_sphere.
  - exact sample_state_no_collision.
Qed.



(** Field and keyword arguments for any stored state of the unit sphere
    with [sigma = 1e-6]. *)
Lemma unit_sphere_state_field (d : dict) (p : vec3) :
  dict_get d "sigma" = PyAtom (AFloat 1e-6) ->
  dict_get d "radius" = PyAtom (AFloat 1) ->
  exists kwargs : dict,
    build_kwargs charged_sphere_mod d = Ok kwargs /\
    E_func charged_sphere_mod (of_vec3 p) kwargs
    = Ok (sphere_closed_form 1 1e-6 8.854e-12 p).
Proof.
  intros Hs Hr. eexists. split; [apply build_kwargs_sphere|].
  rewrite Hs, Hr. cbn [E_func].
  apply sphere_E_point_of_kwargs; try lra;
    unfold kwarg; simplify_map_eq; reflexivity.
Qed.

(** C9. When the collision detector fires on the position reached by the
    step, the state the tick returns holds that position and the updated
    velocity; only the activity flag is cleared, every other entry is as
    before, and nothing is rolled back. *)
Theorem collision_commits_step
    (fos : string -> strfloat) (inp : inputs) (d : dict) (g : geom)
    (p v : vec3) (m q : R) (kwargs : dict) (E : vec3) :
  running_state fos d g p v m q -> m <> 0 ->
  build_kwargs g d = Ok kwargs ->
  E_func g (of_vec3 p) kwargs = Ok E ->
  let v' := vadd v (vmuls (vscale (q / m) E) 0.05) in
  let p' := vadd p (vmuls v' 0.05) in
  check_collision fos (of_vec3 p') (PyAtom (AStr (module_name g))) d = Ok true ->
  exists d' : dict,
    manejar_particula fos (Some "animation-interval"%string) inp (Some d)
    = (Ok (Update d', no_update, no_update),
       [LogCollision (PyAtom (AStr (module_name g)))]) /\
    d' !! "pos" = Some (tolist p') /\
    d' !! "vel" = Some (tolist v') /\
    d' !! "activo" = Some (PyAtom (ABool false)) /\
    np_array_float fos (tolist p') = Ok (of_vec3 p') /\
    (forall k : string,
       k <> "pos"%string -> k <> "vel"%string -> k <> "activo"%string ->
       d' !! k = d !! k).
Proof.
  intros Hrun Hm0 Hkw HE v' p' Hc. exists (stepped_state d p' v' true).
  destruct (stepped_state_lookup d p' v' true) as (Hp & Hv & Ha & Hk).
  split; [apply (tick_running fos inp d g p v m q kwargs E true); assumption|].
  split; [exact Hp|]. split; [exact Hv|]. split; [exact Ha|].
  split; [destruct p'; reflexivity|exact Hk].
Qed.

Lemma sample_state_incoming_running :
  running_state no_strings sample_state_incoming charged_sphere_mod
    (V3 2 0 0) (V3 (-1440) 0 0) 1 1.
Proof.
  unfold running_state, sample_state_incoming, sample_state, start_state,
    dict_get, sample_inputs.
  cbn [in_x0 in_y0 in_z0 in_vx0 in_vy0 in_vz0 in_m in_q in_geometry_key
       in_sigma in_radius in_distance in_invert].
  simplify_map_eq. split; [reflexivity|].
  split; [eexists; split; [reflexivity|]; split; reflexivity|].
  split; [eexists; split; reflexivity|].
  split; [eexists; split; reflexivity|].
  split; [eexists; split; reflexivity|]. reflexivity.
Qed.

Lemma sample_state_incoming_params :
  dict_get sample_state_incoming "sigma" = PyAtom (AFloat 1e-6) /\
  dict_get sample_state_incoming "radius" = PyAtom (AFloat 1) /\
  param_or_one no_strings sample_state_incoming "radius" = Ok 1.
Proof.
  unfold param_or_one, py_or, dict_get, sample_state_incoming, sample_state,
    start_state, sample_inputs.
  cbn [in_sigma in_radius]. simplify_map_eq.
  assert (Ht : Reqb 1 0 = false) by (apply Reqb_false_iff; lra).
  cbn [truthy atom_truthy]. rewrite Ht. repeat split; reflexivity.
Qed.

(** The field at [(2, 0, 0)] outside the unit sphere, to within one per
    cent. *)
Lemma sample_field_value :
  28000 < vx (sphere_closed_form 1 1e-6 8.854e-12 (V3 2 0 0)) < 28400.
Proof.
  rewrite sample_field_x by lra. pose proof PI_RGT_0 as Hpi.
  replace (4 * PI * 1 ^ 2 * 1e-6 * 2 / (4 * PI * 8.854e-12 * 2 ^ 3))
    with (1e-6 / (4 * 8.854e-12)) by (field; lra).
  split.
  - apply Rmult_lt_reg_r with (4 * 8.854e-12); [lra|].
    replace (1e-6 / (4 * 8.854e-12) * (4 * 8.854e-12)) with 1e-6
      by (field; lra).
    lra.
  - apply Rmult_lt_reg_r with (4 * 8.854e-12); [lra|].
    replace (1e-6 / (4 * 8.854e-12) * (4 * 8.854e-12)) with 1e-6
      by (field; lra).
    lra.
Qed.

(** The incoming particle is slowed down by the field and ends its step
    inside the sphere. *)
Lemma sample_state_incoming_step :
  let E := sphere_closed_form 1 1e-6 8.854e-12 (V3 2 0 0) in
  let v' := vadd (V3 (-1440) 0 0) (vmuls (vscale (1 / 1) E) 0.05) in
  let p' := vadd (V3 2 0 0) (vmuls v' 0.05) in
  -40 < vx v' < -20 /\ 0 < vx p' < 1 /\
  vy p' = 0 /\ vz p' = 0.
Proof.
  cbv zeta. pose proof sample_field_value as HEx.
  destruct (sample_field_yz 8.854e-12) as (Hy & Hz).
  unfold vadd, vmuls, vscale; cbn [vx vy vz]. rewrite Hy, Hz.
  set (Ex := vx (sphere_closed_form 1 1e-6 8.854e-12 (V3 2 0 0))) in *.
  repeat split; lra.
Qed.

Lemma sample_state_incoming_collision :
  let E := sphere_closed_form 1 1e-6 8.854e-12 (V3 2 0 0) in
  let v' := vadd (V3 (-1440) 0 0) (vmuls (vscale (1 / 1) E) 0.05) in
  let p' := vadd (V3 2 0 0) (vmuls v' 0.05) in
  check_collision no_strings (of_vec3 p')
    (PyAtom (AStr (module_name charged_sphere_mod))) sample_state_incoming
  = Ok true.
Proof.
  cbv zeta. destruct sample_state_incoming_step as (_ & Hx & Hy & Hz).
  cbv zeta in Hx, Hy, Hz. unfold check_collision.
  cbn [of_vec3 unpack3 mbind res_mbind res_bind py_eq_str module_name].
  destruct sample_state_incoming_params as (_ & _ & Hr). rewrite Hr.
  eval_string_tests. cbn [mbind res_mbind res_bind]. f_equal.
  apply Rleb_true_iff.
  match goal with
  | |- norm (vsub (V3 ?x ?y ?z) _) <= _ =>
      replace (vsub (V3 x y z) (V3 0 0 0)) with (V3 x 0 0)
        by (unfold vsub; cbn [vx vy vz]; rewrite Hy, Hz; f_equal; ring)
  | |- norm (V3 ?x ?y ?z) <= _ =>
      replace (V3 x y z) with (V3 x 0 0) by (rewrite Hy, Hz; reflexivity)
  end.
  rewrite norm_x_axis by reflexivity. rewrite Rabs_pos_eq; lra.
Qed.

Lemma sample_state_incoming_entries :
  sample_state_incoming !! "pos" = Some (tolist (V3 2 0 0)) /\
  sample_state_incoming !! "vel" = Some (tolist (V3 (-1440) 0 0)).
Proof.
  unfold sample_state_incoming, sample_state, start_state, sample_inputs.
  cbn [in_x0 in_y0 in_z0]. split.
  - rewrite lookup_insert_ne by discriminate.
    rewrite lookup_insert_ne by discriminate.
    rewrite lookup_insert_ne by discriminate.
    rewrite lookup_insert_eq. reflexivity.
  - rewrite lookup_insert_eq. reflexivity.
Qed.

Lemma collision_commits_step_witness :
  let E := sphere_closed_form 1 1e-6 8.854e-12 (V3 2 0 0) in
  let v' := vadd (V3 (-1440) 0 0) (vmuls (vscale (1 / 1) E) 0.05) in
  let p' := vadd (V3 2 0 0) (vmuls v' 0.05) in
  exists d' : dict,
    manejar_particula no_strings (Some "animation-interval"%string)
      sample_inputs (Some sample_state_incoming)
    = (Ok (Update d', no_update, no_update),
       [LogCollision (PyAtom (AStr "charged_sphere"))]) /\
    d' !! "pos" = Some (tolist p') /\
    d' !! "vel" = Some (tolist v') /\
    d' !! "activo" = Some (PyAtom (ABool false)) /\
    sample_state_incoming !! "pos" = Some (tolist (V3 2 0 0)) /\
    sample_state_incoming !! "vel" = Some (tolist (V3 (-1440) 0 0)) /\
    0 < vx p' < 1 /\ -40 < vx v' < -20.
Proof.
  cbv zeta.
  destruct (unit_sphere_state_field sample_state_incoming (V3 2 0 0))
    as (kwargs & Hkw & HE);
    [apply sample_state_incoming_params | apply sample_state_incoming_params |].
  destruct (collision_commits_step no_strings sample_inputs
              sample_state_incoming charged_sphere_mod (V3 2 0 0)
              (V3 (-1440) 0 0) 1 1 kwargs
              (sphere_closed_form 1 1e-6 8.854e-12 (V3 2 0 0)))
    as (d' & Hd & Hp & Hv & Ha & _).
  - exact sample_state_incoming_running.
  - lra.
  - exact Hkw.
  - exact HE.
  - exact sample_state_incoming_collision.
  - destruct sample_state_incoming_step as (Hvx & Hpx & _).
    exists d'. split; [exact Hd|]. split; [exact Hp|]. split; [exact Hv|].
    split; [exact Ha|].
    split; [exact (proj1 sample_state_incoming_entries)|].
    split; [exact (proj2 sample_state_incoming_entries)|].
    split; [exact Hpx | exact Hvx].
Defined.

(** ** Errors inside the tick *)

Lemma tick_on_raise (fos : string -> strfloat) (inp : inputs) (d : dict)
    (pos vel : ndarray) (m q : pyval) (e : exn) :
  truthy (dict_get d "activo") = true ->
  truthy (dict_get d "pos") = true ->
  read_state fos d = Ok (pos, vel, m, q) ->
  step_body fos d pos vel m q = Raise e ->
  manejar_particula fos (Some "animation-interval"%string) inp (Some d)
  = (Ok (no_update, no_update, no_update), [LogError e]).
Proof.
  intros Ha Hp Hread Hbody. rewrite on_interval_running by assumption.
  rewrite Hread, Hbody. reflexivity.
Qed.

Lemma step_body_missing_geometry (fos : string -> strfloat) (d : dict)
    (pos vel : ndarray) (m q : pyval) :
  d !! "geometry" = None -> step_body fos d pos vel m q = Raise KeyError.
Proof. intros H. unfold step_body, dict_item. rewrite H. reflexivity. Qed.

Lemma step_body_non_numeric (fos : string -> strfloat) (d : dict) (g : geom)
    (pos vel : ndarray) (m q : pyval) (kwargs : dict) (E : vec3) :
  d !! "geometry" = Some (PyAtom (AStr (module_name g))) ->
  build_kwargs g d = Ok kwargs ->
  E_func g pos kwargs = Ok E ->
  as_number m = None \/ as_number q = None ->
  step_body fos d pos vel m q = Raise TypeError.
Proof.
  intros Hg Hkw HE Hbad. unfold step_body, dict_item.
  rewrite Hg. cbn [mbind res_mbind res_bind]. rewrite import_module_name.
  cbn [mbind res_mbind res_bind]. rewrite Hkw.
  cbn [mbind res_mbind res_bind]. rewrite HE.
  cbn [mbind res_mbind res_bind].
  assert (Hdiv : py_truediv q m = Raise TypeError).
  { unfold py_truediv, py_number.
    destruct (as_number q) as [x|] eqn:Hq; [|reflexivity].
    destruct Hbad as [Hm | Habs]; [|discriminate].
    rewrite Hm. reflexivity. }
  rewrite Hdiv. reflexivity.
Qed.

(** While the state on which the body raised is in the store, every
    firing raises again: the store and the timer flag stay as they are and
    one more error line is printed each time, whatever the controls
    hold. *)
Lemma run_ticks_on_raise (fos : string -> strfloat) (d : dict)
    (pos vel : ndarray) (m q : pyval) (e : exn) (inps : list inputs) :
  truthy (dict_get d "activo") = true ->
  truthy (dict_get d "pos") = true ->
  read_state fos d = Ok (pos, vel, m, q) ->
  step_body fos d pos vel m q = Raise e ->
  forall out : list log_event,
    exists l : list app,
      run_ticks fos inps (App (Some d) false out) = Ok l /\
      length l = length inps /\
      forall (k : nat) (a' : app), l !! k = Some a' ->
        a' = App (Some d) false (out ++ replicate (S k) (LogError e)).
Proof.
  intros Ha Hp Hread Hbody.
  induction inps as [|inp inps IH]; intros out.
  - exists []. split; [reflexivity|]. split; [reflexivity|].
    intros k a' Hk. rewrite lookup_nil in Hk. discriminate.
  - destruct (IH (out ++ [LogError e])) as (l & Hl & Hlen & Hall).
    exists (App (Some d) false (out ++ [LogError e]) :: l).
    cbn [run_ticks]. unfold tick at 1, dispatch.
    cbn [store interval_disabled stdout].
    rewrite (tick_on_raise fos inp d pos vel m q e) by assumption.
    cbn [mbind res_mbind res_bind apply_upd]. rewrite Hl.
    cbn [mbind res_mbind res_bind].
    split; [reflexivity|]. split; [cbn [length]; rewrite Hlen; reflexivity|].
    intros [|k] a' Hk.
    + injection Hk as <-. reflexivity.
    + cbn [lookup] in Hk. apply Hall in Hk. rewrite Hk.
      rewrite <- app_assoc. reflexivity.
Qed.

(** C6, as the code has it.  When the body of the tick raises (a mass or
    charge that is not a number, a missing geometry entry, ...), the
    callback returns without updating any output and prints the error; the
    store, and with it position, velocity and activity flag, and the timer
    are as they were.  The tick takes mass, charge and geometry from the
    stored state, so every later firing on that state raises again: after
    any number of firings, whatever the controls hold at each of them, the
    store and the timer flag are still as they were and one error line has
    been printed per firing; no later tick resumes stepping while that
    state is in the store.  An exception raised while the state is read,
    before the [try], leaves the callback, and Dash then updates nothing
    either. *)
Theorem tick_exception_keeps_state
    (fos : string -> strfloat) (inp : inputs) (a : app) (d : dict) :
  store a = Some d -> interval_disabled a = false ->
  truthy (dict_get d "activo") = true ->
  truthy (dict_get d "pos") = true ->
  (forall (pos vel : ndarray) (m q : pyval) (e : exn),
     read_state fos d = Ok (pos, vel, m, q) ->
     step_body fos d pos vel m q = Raise e ->
     manejar_particula fos (Some "animation-interval"%string) inp (store a)
     = (Ok (no_update, no_update, no_update), [LogError e]) /\
     tick fos inp a
     = Ok (App (store a) (interval_disabled a) (stdout a ++ [LogError e])) /\
     (forall inps : list inputs,
        exists l : list app,
          run_ticks fos inps a = Ok l /\
          length l = length inps /\
          forall (k : nat) (a' : app), l !! k = Some a' ->
            store a' = store a /\
            interval_disabled a' = interval_disabled a /\
            stdout a' = stdout a ++ replicate (S k) (LogError e))) /\
  (forall e : exn,
     read_state fos d = Raise e ->
     tick fos inp a = Ok (App (store a) (interval_disabled a) (stdout a))) /\
  (forall (pos vel : ndarray) (m q : pyval),
     d !! "geometry" = None -> step_body fos d pos vel m q = Raise KeyError) /\
  (forall (pos vel : ndarray) (m q : pyval) (g : geom) (kwargs : dict) (E : vec3),
     d !! "geometry" = Some (PyAtom (AStr (module_name g))) ->
     build_kwargs g d = Ok kwargs ->
     E_func g pos kwargs = Ok E ->
     as_number m = None \/ as_number q = None ->
     step_body fos d pos vel m q = Raise TypeError).
Proof.
  intros Hst Hen Ha Hp. split; [|split; [|split]].
  - intros pos vel m q e Hread Hbody.
    assert (Hcb : manejar_particula fos (Some "animation-interval"%string) inp
                    (store a)
                  = (Ok (no_update, no_update, no_update), [LogError e]))
      by (rewrite Hst; apply (tick_on_raise fos inp d pos vel m q e); assumption).
    assert (Htick : tick fos inp a
                    = Ok (App (store a) (interval_disabled a)
                            (stdout a ++ [LogError e])))
      by (unfold tick, dispatch; rewrite Hen, Hcb; reflexivity).
    split; [exact Hcb|]. split; [exact Htick|].
    intros inps. destruct a as [s f out].
    cbn [store interval_disabled stdout] in *. subst s f.
    destruct (run_ticks_on_raise fos d pos vel m q e inps Ha Hp Hread Hbody out)
      as (l & Hl & Hlen & Hall).
    exists l. split; [exact Hl|]. split; [exact Hlen|].
    intros k a' Hk. rewrite (Hall k a' Hk). repeat split; reflexivity.
  - intros e Hread. unfold tick, dispatch. rewrite Hen, Hst.
    rewrite on_interval_running by assumption. rewrite Hread.
    rewrite app_nil_r. reflexivity.
  - intros pos vel m q. apply step_body_missing_geometry.
  - intros pos vel m q g kwargs E. apply step_body_non_numeric.
Qed.

Lemma sample_state_bad_mass_facts :
  truthy (dict_get sample_state_bad_mass "activo") = true /\
  truthy (dict_get sample_state_bad_mass "pos") = true /\
  read_state no_strings sample_state_bad_mass
  = Ok (of_vec3 (V3 2 0 0), of_vec3 (V3 0 0 0),
        PyAtom (AStr "heavy"), PyAtom (AFloat 1)) /\
  sample_state_bad_mass !! "geometry"
  = Some (PyAtom (AStr (module_name charged_sphere_mod))) /\
  dict_get sample_state_bad_mass "sigma" = PyAtom (AFloat 1e-6) /\
  dict_get sample_state_bad_mass "radius" = PyAtom (AFloat 1).
Proof.
  unfold read_state, dict_item, dict_get, sample_state_bad_mass, sample_state,
    start_state, sample_inputs.
  cbn [in_x0 in_y0 in_z0 in_vx0 in_vy0 in_vz0 in_m in_q in_geometry_key
       in_sigma in_radius in_distance in_invert].
  simplify_map_eq. repeat split; reflexivity.
Qed.

Lemma tick_exception_keeps_state_witness :
  tick no_strings sample_inputs (App (Some sample_state_bad_mass) false [])
  = Ok (App (Some sample_state_bad_mass) false [LogError TypeError]) /\
  exists l : list app,
    run_ticks no_strings [sample_inputs; other_inputs; sample_inputs]
      (App (Some sample_state_bad_mass) false []) = Ok l /\
    l !! 2%nat
    = Some (App (Some sample_state_bad_mass) false
              [LogError TypeError; LogError TypeError; LogError TypeError]).
Proof.
  destruct sample_state_bad_mass_facts as (Ha & Hp & Hread & Hg & Hs & Hr).
  destruct (unit_sphere_state_field sample_state_bad_mass (V3 2 0 0) Hs Hr)
    as (kwargs & Hkw & HE).
  destruct (tick_exception_keeps_state no_strings sample_inputs
              (App (Some sample_state_bad_mass) false [])
              sample_state_bad_mass eq_refl eq_refl Ha Hp)
    as (Hraise & _ & _ & Hnum).
  destruct (Hraise (of_vec3 (V3 2 0 0)) (of_vec3 (V3 0 0 0))
              (PyAtom (AStr "heavy")) (PyAtom (AFloat 1)) TypeError Hread)
    as (_ & Htick & Hrun).
  - apply (Hnum _ _ _ _ charged_sphere_mod kwargs _ Hg Hkw HE). left. reflexivity.
  - split; [exact Htick|].
    destruct (Hrun [sample_inputs; other_inputs; sample_inputs])
      as (l & Hl & Hlen & Hall).
    exists l. split; [exact Hl|].
    destruct l as [|a1 [|a2 [|a3 l]]]; try discriminate Hlen.
    destruct (Hall 2%nat a3 eq_refl) as (H1 & H2 & H3).
    destruct a3 as [s3 f3 o3]. cbn [store interval_disabled stdout] in *.
    subst. reflexivity.
Defined.

Lemma sample_state_no_mass_facts :
  truthy (dict_get sample_state_no_mass "activo") = true /\
  truthy (dict_get sample_state_no_mass "pos") = true /\
  read_state no_strings sample_state_no_mass
  = Ok (of_vec3 (V3 2 0 0), of_vec3 (V3 0 0 0),
        PyAtom ANone, PyAtom (AFloat 1)) /\
  sample_state_no_mass !! "geometry"
  = Some (PyAtom (AStr (module_name charged_sphere_mod))) /\
  dict_get sample_state_no_mass "sigma" = PyAtom (AFloat 1e-6) /\
  dict_get sample_state_no_mass "radius" = PyAtom (AFloat 1).
Proof.
  unfold read_state, dict_item, dict_get, sample_state_no_mass, sample_state,
    start_state, sample_inputs.
  cbn [in_x0 in_y0 in_z0 in_vx0 in_vy0 in_vz0 in_m in_q in_geometry_key
       in_sigma in_radius in_distance in_invert].
  simplify_map_eq. repeat split; reflexivity.
Qed.

(** C6, as stated, fails in its last part.  Start the sample particle
    while the mass control is empty, so that the stored mass is [None]:
    the first firing raises [TypeError] and holds the state.  The mass
    control is then filled in and the next firing is well-formed in every
    control, yet it does not resume stepping: it raises again, and the
    particle is still at its first position, although a step from that
    position with the mass of the controls would have moved it. *)
Lemma tick_does_not_resume_counterexample :
  exists (a1 a2 : app) (d' : dict),
    tick no_strings sample_inputs (App (Some sample_state_no_mass) false [])
    = Ok a1 /\
    a1 = App (Some sample_state_no_mass) false [LogError TypeError] /\
    atom_number (in_m sample_inputs) = Some 1 /\
    atom_number (in_q sample_inputs) = Some 1 /\
    tick no_strings sample_inputs a1 = Ok a2 /\
    a2 = App (Some sample_state_no_mass) false
           [LogError TypeError; LogError TypeError] /\
    sample_state_no_mass !! "pos" = sample_state !! "pos" /\
    tick no_strings sample_inputs (App (Some sample_state) false [])
    = Ok (App (Some d') false []) /\
    d' !! "pos" <> sample_state !! "pos".
Proof.
  destruct sample_state_no_mass_facts as (Ha & Hp & Hread & Hg & Hs & Hr).
  destruct (unit_sphere_state_field sample_state_no_mass (V3 2 0 0) Hs Hr)
    as (kwargs & Hkw & HE).
  assert (Hbody : step_body no_strings sample_state_no_mass
                    (of_vec3 (V3 2 0 0)) (of_vec3 (V3 0 0 0))
                    (PyAtom ANone) (PyAtom (AFloat 1)) = Raise TypeError).
  { apply (step_body_non_numeric no_strings sample_state_no_mass
             charged_sphere_mod _ _ _ _ kwargs _ Hg Hkw HE).
    left. reflexivity. }
  assert (Hcb : forall inp : inputs,
            manejar_particula no_strings (Some "animation-interval"%string)
              inp (Some sample_state_no_mass)
            = (Ok (no_update, no_update, no_update), [LogError TypeError]))
    by (intros inp; apply (tick_on_raise no_strings inp sample_state_no_mass
                             _ _ _ _ TypeError Ha Hp Hread Hbody)).
  eexists. eexists. eexists.
  split; [unfold tick, dispatch; cbn [store interval_disabled stdout];
          rewrite Hcb; reflexivity|].
  split; [reflexivity|]. split; [reflexivity|]. split; [reflexivity|].
  split; [unfold tick, dispatch; cbn [store interval_disabled stdout];
          rewrite Hcb; reflexivity|].
  split; [reflexivity|].
  split; [unfold sample_state_no_mass; rewrite lookup_insert_ne by discriminate;
          reflexivity|].
  split; [unfold tick, dispatch; cbn [store interval_disabled stdout];
          rewrite sample_state_tick; reflexivity|].
  match goal with
  | |- stepped_state ?d ?pp ?vv ?c !! _ <> _ =>
      destruct (stepped_state_lookup d pp vv c) as (Hpos & _)
  end.
  rewrite Hpos. unfold sample_state, start_state, sample_inputs.
  cbn [in_x0 in_y0 in_z0]. simplify_map_eq.
  unfold tolist. intros Heq. injection Heq as Hx _ _.
  pose proof (sample_field_positive 8.854e-12 ltac:(lra)) as HEx.
  revert Hx. unfold euler_position, euler_velocity, vadd, vmuls, vscale, dt;
    cbn [vx vy vz].
  set (Ex := vx (sphere_closed_form 1 1e-6 8.854e-12 (V3 2 0 0))) in *.
  intros Hx. nra.
Qed.

(** ** Start requests *)

(** C7. A start request that finds no state, an empty state, or a state
    whose [simulated] entry is absent or falsy is ignored: no output is
    updated (a line is printed) and the store and timer stay as they
    were.  When the entry is set, the request returns an active state
    built from the supplied mass, charge, position, velocity and geometry
    parameters, and enables the timer. *)
Theorem start_request
    (fos : string -> strfloat) (inp : inputs) (estado : option dict) :
  (estado = None \/
   (exists d : dict,
      estado = Some d /\
      (d !! "simulated" = None \/ truthy (dict_get d "simulated") = false)) ->
   manejar_particula fos (Some "start-button"%string) inp estado
   = (Ok (no_update, no_update, no_update), [LogIgnored]) /\
   forall a : app,
     store a = estado ->
     exists a' : app,
       dispatch fos (Some "start-button"%string) inp a = Ok a' /\
       particle_view a' = particle_view a) /\
  (forall d : dict,
     estado = Some d -> truthy (dict_get d "simulated") = true ->
     manejar_particula fos (Some "start-button"%string) inp estado
     = (Ok (Update (start_state inp), Update false, no_update), []) /\
     start_state inp !! "simulated" = Some (PyAtom (ABool true)) /\
     start_state inp !! "activo" = Some (PyAtom (ABool true)) /\
     start_state inp !! "pos"
     = Some (PyList [in_x0 inp; in_y0 inp; in_z0 inp]) /\
     start_state inp !! "vel"
     = Some (PyList [in_vx0 inp; in_vy0 inp; in_vz0 inp]) /\
     start_state inp !! "m" = Some (PyAtom (in_m inp)) /\
     start_state inp !! "q" = Some (PyAtom (in_q inp)) /\
     start_state inp !! "geometry" = Some (in_geometry_key inp) /\
     start_state inp !! "sigma" = Some (in_sigma inp) /\
     start_state inp !! "radius" = Some (in_radius inp) /\
     start_state inp !! "distance" = Some (in_distance inp) /\
     start_state inp !! "invert" = Some (in_invert inp)).
Proof.
  assert (Hsel : forall e : option dict,
            manejar_particula fos (Some "start-button"%string) inp e
            = match e with
              | Some d =>
                  if estado_falsy e || negb (truthy (dict_get d "simulated"))
                  then (Ok (no_update, no_update, no_update), [LogIgnored])
                  else (Ok (Update (start_state inp), Update false, no_update),
                        [])
              | None => (Ok (no_update, no_update, no_update), [LogIgnored])
              end).
  { intros e. unfold manejar_particula.
    rewrite (bool_decide_eq_false_2 (Some _ = Some "stop-button"%string))
      by discriminate.
    rewrite (bool_decide_eq_true_2 (Some _ = Some "start-button"%string))
      by reflexivity.
    reflexivity. }
  split.
  - intros Hign.
    assert (Hcb : manejar_particula fos (Some "start-button"%string) inp estado
                  = (Ok (no_update, no_update, no_update), [LogIgnored])).
    { rewrite Hsel. destruct Hign as [-> | (d & -> & Hflag)]; [reflexivity|].
      assert (Hf : truthy (dict_get d "simulated") = false).
      { destruct Hflag as [Habs | Hf]; [|exact Hf].
        unfold dict_get. rewrite Habs. reflexivity. }
      rewrite Hf, orb_true_r. reflexivity. }
    split; [exact Hcb|]. intros a Ha. unfold dispatch. rewrite Ha, Hcb.
    eexists. split; [reflexivity|]. unfold particle_view; cbn. rewrite Ha.
    reflexivity.
  - intros d -> Hflag. split.
    + rewrite Hsel, (estado_truthy_of_key d "simulated" Hflag), Hflag.
      reflexivity.
    + unfold start_state. simplify_map_eq. repeat split; reflexivity.
Qed.

Lemma start_request_witness :
  manejar_particula no_strings (Some "start-button"%string) sample_inputs
    (Some {["simulated" := PyAtom (ABool false);
            "activo" := PyAtom (ABool false)]})
  = (Ok (no_update, no_update, no_update), [LogIgnored]).
Proof.
  apply (proj1 (start_request no_strings sample_inputs
                  (Some {["simulated" := PyAtom (ABool false);
                          "activo" := PyAtom (ABool false)]}))).
  right. eexists. split; [reflexivity|]. right.
  unfold dict_get. simplify_map_eq. reflexivity.
Defined.

(** ** The other transitions, on sample states *)

(** A geometry name the detector does not know is never a collision. *)
Example unknown_geometry_no_collision (fos : string -> strfloat) (x y z : R)
    (s : string) (params : dict) :
  (forall g : geom, s <> module_name g) ->
  check_collision fos (Arr1 [x; y; z]) (PyAtom (AStr s)) params = Ok false.
Proof.
  intros Hs. unfold check_collision.
  cbn [unpack3 mbind res_mbind res_bind py_eq_str].
  rewrite (proj2 (String.eqb_neq s "charged_sphere") (Hs charged_sphere_mod)).
  rewrite (proj2 (String.eqb_neq s "charged_ring") (Hs charged_ring_mod)).
  rewrite (proj2 (String.eqb_neq s "charged_cylinder") (Hs charged_cylinder_mod)).
  rewrite (proj2 (String.eqb_neq s "charged_plate") (Hs charged_plate_mod)).
  rewrite (proj2 (String.eqb_neq s "parallel_plates") (Hs parallel_plates_mod)).
  rewrite (proj2 (String.eqb_neq s "two_spheres") (Hs two_spheres_mod)).
  reflexivity.
Qed.

(** A stop request clears the activity flag and disables the timer. *)
Example stop_request (fos : string -> strfloat) (inp : inputs) (d : dict) :
  d <> ∅ ->
  manejar_particula fos (Some "stop-button"%string) inp (Some d)
  = (Ok (Update (<["activo" := PyAtom (ABool false)]> d), Update true,
         no_update), []).
Proof.
  intros Hd. unfold manejar_particula.
  rewrite (bool_decide_eq_true_2 (Some _ = Some "stop-button"%string))
    by reflexivity.
  unfold estado_falsy. rewrite (bool_decide_eq_false_2 _ Hd). reflexivity.
Qed.

(** A firing of the timer on a stopped particle changes nothing but
    disables the timer. *)
Example tick_on_stopped_state (fos : string -> strfloat) (inp : inputs) (d : dict) :
  truthy (dict_get d "activo") = false ->
  manejar_particula fos (Some "animation-interval"%string) inp (Some d)
  = (Ok (no_update, Update true, no_update), []).
Proof.
  intros Ha. unfold manejar_particula.
  rewrite (bool_decide_eq_false_2 (Some _ = Some "stop-button"%string))
    by discriminate.
  rewrite (bool_decide_eq_false_2 (Some _ = Some "start-button"%string))
    by discriminate.
  rewrite (bool_decide_eq_true_2 (Some _ = Some "animation-interval"%string))
    by reflexivity.
  rewrite Ha. cbn [negb]. rewrite orb_true_r. reflexivity.
Qed.

(** A state whose geometry names no module: the tick reports
    [ModuleNotFoundError] and keeps the state. *)
Example tick_unknown_geometry :
  manejar_particula no_strings (Some "animation-interval"%string)
    sample_inputs
    (Some (<["geometry" := PyAtom (AStr "torus")]> sample_state))
  = (Ok (no_update, no_update, no_update), [LogError ModuleNotFoundError]).
Proof.
  apply (tick_on_raise no_strings sample_inputs _
           (of_vec3 (V3 2 0 0)) (of_vec3 (V3 0 0 0))
           (PyAtom (AFloat 1)) (PyAtom (AFloat 1)));
    unfold read_state, step_body, dict_item, dict_get, sample_state,
      start_state, sample_inputs;
    cbn [in_x0 in_y0 in_z0 in_vx0 in_vy0 in_vz0 in_m in_q in_geometry_key
         in_sigma in_radius in_distance in_invert];
    simplify_map_eq; reflexivity.
Qed.

(** One firing of the timer on the sample particle: the run goes on with
    the stepped state and the timer still enabled. *)
Example sample_trajectory_one_tick :
  trajectory no_strings [sample_inputs] (App (Some sample_state) false [])
  = Ok [(Some
           (stepped_state sample_state
              (euler_position (V3 2 0 0)
                 (euler_velocity 1 1
                    (sphere_closed_form 1 1e-6 8.854e-12 (V3 2 0 0))
                    (V3 0 0 0)))
              (euler_velocity 1 1
                 (sphere_closed_form 1 1e-6 8.854e-12 (V3 2 0 0)) (V3 0 0 0))
              false),
         false)].
Proof.
  unfold trajectory, run_ticks, tick, dispatch.
  cbn [interval_disabled store stdout]. rewrite sample_state_tick.
  reflexivity.
Qed.

(* ===================================================================== *)
(** * Further properties of the code *)
(* ===================================================================== *)

(** ** The state machine of [manejar_particula] *)

Ltac res_inv H :=
  repeat match type of H with
  | context [mbind _ ?m] =>
      destruct m eqn:?; cbn [mbind res_mbind res_bind] in H; try discriminate
  end.

Lemma on_interval_not_running
    (fos : string -> strfloat) (inp : inputs) (estado : option dict) :
  not_running estado = true ->
  manejar_particula fos (Some "animation-interval"%string) inp estado
  = (Ok (no_update, Update true, no_update), []).
Proof.
  intros H. unfold manejar_particula.
  rewrite (bool_decide_eq_false_2 (Some _ = Some "stop-button"%string))
    by discriminate.
  rewrite (bool_decide_eq_false_2 (Some _ = Some "start-button"%string))
    by discriminate.
  rewrite (bool_decide_eq_true_2 (Some _ = Some "animation-interval"%string))
    by reflexivity.
  destruct estado as [d|]; [|reflexivity].
  unfold not_running in H. rewrite H. reflexivity.
Qed.

Lemma tick_not_running (fos : string -> strfloat) (inp : inputs) (a : app) :
  not_running (store a) = true ->
  tick fos inp a = Ok (App (store a) true (stdout a)).
Proof.
  intros H. unfold tick. destruct a as [s f o]. cbn [store interval_disabled stdout] in *.
  destruct f; [reflexivity|]. unfold dispatch. cbn [store interval_disabled stdout].
  rewrite (on_interval_not_running fos inp s H). cbn [apply_upd].
  rewrite app_nil_r. reflexivity.
Qed.

(** X1. A particle at rest is never moved by the timer: with no state, an
    empty state, or a falsy [activo] or [pos] entry, any number of firings
    leaves the store as it is, prints nothing, and the timer is disabled
    from the first firing on. *)
Theorem stopped_state_is_absorbing
    (fos : string -> strfloat) (inps : list inputs) (a : app) :
  not_running (store a) = true ->
  run_ticks fos inps a
  = Ok (repeat (App (store a) true (stdout a)) (length inps)).
Proof.
  intros H. revert a H. induction inps as [|inp inps IH]; intros a H;
    [reflexivity|].
  cbn [run_ticks length repeat]. rewrite (tick_not_running fos inp a H).
  cbn [mbind res_mbind res_bind].
  rewrite (IH (App (store a) true (stdout a)) H). reflexivity.
Qed.

Lemma simulated_store_facts :
  not_running (Some simulated_store) = true /\
  simulated_set (Some simulated_store) = true /\
  simulated_set (Some layout_store) = false.
Proof.
  unfold not_running, simulated_set, dict_get, simulated_store, layout_store.
  simplify_map_eq. cbn [truthy atom_truthy negb].
  rewrite orb_true_r. repeat split; reflexivity.
Qed.

Lemma stopped_state_is_absorbing_witness :
  run_ticks no_strings [sample_inputs; other_inputs; sample_inputs]
    (App (Some simulated_store) false [])
  = Ok (repeat (App (Some simulated_store) true []) 3).
Proof.
  apply (stopped_state_is_absorbing no_strings
           [sample_inputs; other_inputs; sample_inputs]
           (App (Some simulated_store) false [])).
  apply simulated_store_facts.
Defined.

(** What the body of the tick returns differs from the stored state in
    [pos], [vel] and [activo] only. *)
Lemma step_body_frame (fos : string -> strfloat) (d d' : dict)
    (pos vel : ndarray) (m q : pyval) (out : list log_event) :
  step_body fos d pos vel m q = Ok (d', out) ->
  exists (p' v' : vec3) (c : bool),
    d' = stepped_state d p' v' c /\
    out = (if c then match d !! "geometry" with
                     | Some g => [LogCollision g]
                     | None => []
                     end
           else []).
Proof.
  intros H. unfold step_body, dict_item in H.
  destruct (d !! "geometry") as [g|] eqn:Hg; [|discriminate].
  cbn [mbind res_mbind res_bind] in H. res_inv H.
  injection H as <- <-. do 3 eexists. split; [reflexivity|reflexivity].
Qed.

(** X2. Whatever the stored state, when a timer firing returns a new
    state, that state differs from the stored one only in [pos], [vel] and
    [activo]: [pos] and [vel] are lists of three floats, [activo] is
    either untouched or cleared, and every other entry (mass, charge,
    geometry and its parameters, the [simulated] flag) is kept. *)
Theorem tick_changes_only_pos_vel_activo
    (fos : string -> strfloat) (inp : inputs) (d d' : dict)
    (o2 : upd bool) (o3 : upd unit) (out : list log_event) :
  manejar_particula fos (Some "animation-interval"%string) inp (Some d)
  = (Ok (Update d', o2, o3), out) ->
  (exists p' v' : vec3,
     d' !! "pos" = Some (tolist p') /\ d' !! "vel" = Some (tolist v')) /\
  (d' !! "activo" = d !! "activo" \/
   d' !! "activo" = Some (PyAtom (ABool false))) /\
  (forall k : string,
     k <> "pos"%string -> k <> "vel"%string -> k <> "activo"%string ->
     d' !! k = d !! k) /\
  o2 = no_update /\ o3 = no_update.
Proof.
  intros H. unfold manejar_particula in H.
  rewrite (bool_decide_eq_false_2 (Some _ = Some "stop-button"%string)) in H
    by discriminate.
  rewrite (bool_decide_eq_false_2 (Some _ = Some "start-button"%string)) in H
    by discriminate.
  rewrite (bool_decide_eq_true_2 (Some _ = Some "animation-interval"%string))
    in H by reflexivity.
  destruct (estado_falsy (Some d) || negb (truthy (dict_get d "activo"))
            || negb (truthy (dict_get d "pos"))); [discriminate|].
  destruct (read_state fos d) as [[[[pos vel] m] q] | e |]; try discriminate.
  destruct (step_body fos d pos vel m q) as [[d1 out1] | e |] eqn:Hbody;
    try discriminate.
  injection H as <- <- <- <-.
  destruct (step_body_frame fos d d1 pos vel m q out1 Hbody)
    as (p' & v' & c & -> & _).
  destruct (stepped_state_lookup d p' v' c) as (Hp & Hv & Ha & Hk).
  split; [exists p', v'; split; assumption|].
  split; [rewrite Ha; destruct c; auto|].
  split; [exact Hk|split; reflexivity].
Qed.

Lemma tick_changes_only_pos_vel_activo_witness :
  exists d' : dict,
    manejar_particula no_strings (Some "animation-interval"%string)
      sample_inputs (Some sample_state)
    = (Ok (Update d', no_update, no_update), []) /\
    d' !! "m" = sample_state !! "m".
Proof.
  eexists. split; [exact sample_state_tick|].
  eapply (tick_changes_only_pos_vel_activo no_strings sample_inputs
            sample_state _ no_update no_update []);
    [exact sample_state_tick|discriminate..].
Defined.

Lemma stepped_state_simulated (d : dict) (p' v' : vec3) (c : bool) :
  dict_get (stepped_state d p' v' c) "simulated" = dict_get d "simulated".
Proof.
  unfold dict_get.
  destruct (stepped_state_lookup d p' v' c) as (_ & _ & _ & Hk).
  rewrite Hk by discriminate. reflexivity.
Qed.

Lemma manejar_keeps_simulated
    (fos : string -> strfloat) (triggered : option string) (inp : inputs)
    (estado : option dict) (d' : dict) (o2 : upd bool) (o3 : upd unit)
    (out : list log_event) :
  simulated_set estado = true ->
  manejar_particula fos triggered inp estado = (Ok (Update d', o2, o3), out) ->
  truthy (dict_get d' "simulated") = true.
Proof.
  intros Hs H. destruct estado as [d|]; [|discriminate].
  cbn [simulated_set] in Hs. unfold manejar_particula in H.
  pose proof (estado_truthy_of_key d "simulated" Hs) as Hne.
  case_bool_decide.
  - rewrite Hne in H. injection H as <- _ _ _.
    unfold dict_get. rewrite lookup_insert_ne by discriminate. exact Hs.
  - case_bool_decide.
    + rewrite Hne, Hs in H. cbn [negb orb] in H. injection H as <- _ _ _.
      unfold start_state, dict_get. rewrite lookup_insert_eq. reflexivity.
    + case_bool_decide; [|discriminate].
      destruct (estado_falsy (Some d) || negb (truthy (dict_get d "activo"))
                || negb (truthy (dict_get d "pos"))); [discriminate|].
      destruct (read_state fos d) as [[[[pos vel] m] q] | e |];
        try discriminate.
      destruct (step_body fos d pos vel m q) as [[d1 out1] | e |] eqn:Hbody;
        try discriminate.
      injection H as <- _ _ _.
      destruct (step_body_frame fos d d1 pos vel m q out1 Hbody)
        as (p' & v' & c & -> & _).
      rewrite stepped_state_simulated. exact Hs.
Qed.

Lemma dispatch_keeps_simulated
    (fos : string -> strfloat) (triggered : option string) (inp : inputs)
    (a a' : app) :
  simulated_set (store a) = true ->
  dispatch fos triggered inp a = Ok a' ->
  simulated_set (store a') = true.
Proof.
  intros Hs H. unfold dispatch in H.
  destruct (manejar_particula fos triggered inp (store a))
    as [[[[o1 o2] o3] | e |] out] eqn:Hcb; try discriminate.
  - injection H as <-. cbn [store]. destruct o1 as [|d']; [exact Hs|].
    cbn [simulated_set].
    apply (manejar_keeps_simulated fos triggered inp (store a) d' o2 o3 out Hs Hcb).
  - injection H as <-. exact Hs.
Qed.

Lemma start_accepted (fos : string -> strfloat) (inp : inputs)
    (estado : option dict) :
  simulated_set estado = true ->
  manejar_particula fos (Some "start-button"%string) inp estado
  = (Ok (Update (start_state inp), Update false, no_update), []).
Proof.
  intros Hs. destruct estado as [d|]; [|discriminate]. cbn [simulated_set] in Hs.
  unfold manejar_particula.
  rewrite (bool_decide_eq_false_2 (Some _ = Some "stop-button"%string))
    by discriminate.
  rewrite (bool_decide_eq_true_2 (Some _ = Some "start-button"%string))
    by reflexivity.
  rewrite (estado_truthy_of_key d "simulated" Hs), Hs. reflexivity.
Qed.

(** X3. Once a field has been computed (the [simulated] entry is set, as
    in the store [actualizar_grafico] writes), no sequence of start
    requests, stop requests, timer firings or other triggers clears it:
    after any such sequence the next start request is accepted and builds
    the state from the controls.  From the store of the layout, where the
    entry is [False], the start request is ignored. *)
Theorem simulated_flag_survives_events
    (fos : string -> strfloat) (events : list (option string * inputs))
    (a a' : app) (inp : inputs) :
  simulated_set (store a) = true ->
  run_events fos events a = Ok a' ->
  simulated_set (store a') = true /\
  manejar_particula fos (Some "start-button"%string) inp (store a')
  = (Ok (Update (start_state inp), Update false, no_update), []) /\
  manejar_particula fos (Some "start-button"%string) inp (Some layout_store)
  = (Ok (no_update, no_update, no_update), [LogIgnored]).
Proof.
  intros Hs Hrun.
  assert (Hs' : simulated_set (store a') = true).
  { revert a Hs Hrun. induction events as [|[tr i] events IH]; intros a Hs Hrun.
    - injection Hrun as <-. exact Hs.
    - cbn [run_events] in Hrun.
      destruct (dispatch fos tr i a) as [a1 | e |] eqn:Hd;
        cbn [mbind res_mbind res_bind] in Hrun; try discriminate.
      apply (IH a1); [|exact Hrun].
      apply (dispatch_keeps_simulated fos tr i a a1 Hs Hd). }
  split; [exact Hs'|]. split; [apply start_accepted; exact Hs'|].
  unfold manejar_particula.
  rewrite (bool_decide_eq_false_2 (Some _ = Some "stop-button"%string))
    by discriminate.
  rewrite (bool_decide_eq_true_2 (Some _ = Some "start-button"%string))
    by reflexivity.
  assert (Hf : truthy (dict_get layout_store "simulated") = false)
    by (unfold dict_get, layout_store; simplify_map_eq; reflexivity).
  rewrite Hf. cbn [negb]. rewrite orb_true_r. reflexivity.
Qed.

Lemma dispatch_of_outputs
    (fos : string -> strfloat) (triggered : option string) (inp : inputs)
    (a : app) (o1 : upd dict) (o2 : upd bool) (o3 : upd unit)
    (out : list log_event) :
  manejar_particula fos triggered inp (store a) = (Ok (o1, o2, o3), out) ->
  dispatch fos triggered inp a
  = Ok (App (match o1 with no_update => store a | Update d => Some d end)
            (apply_upd o2 (interval_disabled a)) (stdout a ++ out)).
Proof. intros H. unfold dispatch. rewrite H. reflexivity. Qed.

Lemma simulated_flag_survives_events_witness :
  exists a' : app,
    run_events no_strings
      [(Some "start-button"%string, sample_inputs);
       (Some "animation-interval"%string, sample_inputs)]
      (App (Some simulated_store) true []) = Ok a' /\
    simulated_set (store a') = true.
Proof.
  assert (Hrun : exists a' : app,
            run_events no_strings
              [(Some "start-button"%string, sample_inputs);
               (Some "animation-interval"%string, sample_inputs)]
              (App (Some simulated_store) true []) = Ok a').
  { cbn [run_events].
    rewrite (dispatch_of_outputs no_strings _ sample_inputs
               (App (Some simulated_store) true []) _ _ _ _
               (start_accepted no_strings sample_inputs (Some simulated_store)
                  (proj1 (proj2 simulated_store_facts)))).
    cbn [mbind res_mbind res_bind apply_upd store interval_disabled stdout].
    rewrite (dispatch_of_outputs no_strings _ sample_inputs
               (App (Some (start_state sample_inputs)) false ([] ++ []))
               _ _ _ _ sample_state_tick).
    cbn [mbind res_mbind res_bind]. eexists. reflexivity. }
  destruct Hrun as (a' & Hrun). exists a'. split; [exact Hrun|].
  apply (simulated_flag_survives_events no_strings _
           (App (Some simulated_store) true []) a' sample_inputs
           (proj1 (proj2 simulated_store_facts)) Hrun).
Defined.

(** X4. The callback never touches the graph output, and the only
    transition that enables the timer is a start request on a state whose
    [simulated] entry is set; the store is written only by the three
    known triggers. *)
Theorem only_start_enables_timer
    (fos : string -> strfloat) (triggered : option string) (inp : inputs)
    (estado : option dict) (o1 : upd dict) (o2 : upd bool) (o3 : upd unit)
    (out : list log_event) :
  manejar_particula fos triggered inp estado = (Ok (o1, o2, o3), out) ->
  o3 = no_update /\
  (o2 = Update false ->
     triggered = Some "start-button"%string /\ simulated_set estado = true /\
     o1 = Update (start_state inp)) /\
  (o1 <> no_update ->
     triggered = Some "stop-button"%string \/
     triggered = Some "start-button"%string \/
     triggered = Some "animation-interval"%string).
Proof.
  intros H. unfold manejar_particula in H.
  case_bool_decide as Hstop.
  - injection H as <- <- <- <-. split; [reflexivity|].
    split; [discriminate|auto].
  - case_bool_decide as Hstart.
    + destruct estado as [d|].
      * destruct (estado_falsy (Some d)); cbn [orb] in H.
        { injection H as <- <- <- <-. split; [reflexivity|].
          split; [discriminate|auto]. }
        destruct (truthy (dict_get d "simulated")) eqn:Hs; cbn [negb] in H;
          injection H as <- <- <- <-; (split; [reflexivity|]);
          (split; [|auto]); try discriminate.
        intros _. cbn [simulated_set]. auto.
      * injection H as <- <- <- <-. split; [reflexivity|].
        split; [discriminate|auto].
    + case_bool_decide as Hint.
      * destruct estado as [d|].
        { destruct (estado_falsy (Some d) || negb (truthy (dict_get d "activo"))
                    || negb (truthy (dict_get d "pos"))).
          - injection H as <- <- <- <-. split; [reflexivity|].
            split; [discriminate|auto].
          - destruct (read_state fos d) as [[[[pos vel] m] q] | e |];
              try discriminate.
            destruct (step_body fos d pos vel m q) as [[d1 out1] | e |];
              try discriminate;
              injection H as <- <- <- <-; (split; [reflexivity|]);
              (split; [discriminate|auto]). }
        injection H as <- <- <- <-. split; [reflexivity|].
        split; [discriminate|auto].
      * injection H as <- <- <- <-. split; [reflexivity|].
        split; [discriminate|]. intros Hne. contradiction.
Qed.

Lemma only_start_enables_timer_witness :
  Some "start-button"%string = Some "start-button"%string /\
  simulated_set (Some simulated_store) = true /\
  Update (start_state sample_inputs) = Update (start_state sample_inputs).
Proof.
  apply (proj1 (proj2 (only_start_enables_timer no_strings
                         (Some "start-button"%string) sample_inputs
                         (Some simulated_store)
                         (Update (start_state sample_inputs)) (Update false)
                         no_update []
                         (start_accepted no_strings sample_inputs
                            (Some simulated_store)
                            (proj1 (proj2 simulated_store_facts)))))).
  reflexivity.
Defined.

Lemma np_array_float_tolist (fos : string -> strfloat) (v : vec3) :
  np_array_float fos (tolist v) = Ok (of_vec3 v).
Proof. destruct v; reflexivity. Qed.

(** X5. A step without collision hands the next firing a state it can
    step again: the list written by [tolist] reads back through
    [np.array(..., dtype=float)] as the same vector, mass, charge and
    geometry are as before, and the state is still active. *)
Theorem tick_keeps_running_state
    (fos : string -> strfloat) (inp : inputs) (d : dict) (g : geom)
    (p v : vec3) (m q : R) (kwargs : dict) (E : vec3) :
  running_state fos d g p v m q -> m <> 0 ->
  build_kwargs g d = Ok kwargs ->
  E_func g (of_vec3 p) kwargs = Ok E ->
  let v' := vadd v (vmuls (vscale (q / m) E) 0.05) in
  let p' := vadd p (vmuls v' 0.05) in
  check_collision fos (of_vec3 p') (PyAtom (AStr (module_name g))) d = Ok false ->
  exists d' : dict,
    manejar_particula fos (Some "animation-interval"%string) inp (Some d)
    = (Ok (Update d', no_update, no_update), []) /\
    running_state fos d' g p' v' m q /\
    build_kwargs g d' = Ok kwargs.
Proof.
  intros Hrun Hm0 Hkw HE v' p' Hc. exists (stepped_state d p' v' false).
  split; [apply (tick_running fos inp d g p v m q kwargs E false); assumption|].
  destruct (stepped_state_lookup d p' v' false) as (Hp & Hv & Ha & Hk).
  destruct Hrun as (Hact & _ & _ & (vm & Hm & Hnm) & (vq & Hq & Hnq) & Hg).
  split.
  - unfold running_state.
    split; [unfold dict_get; rewrite Ha; exact Hact|].
    split; [exists (tolist p'); split; [exact Hp|];
            split; [reflexivity|apply np_array_float_tolist]|].
    split; [exists (tolist v'); split; [exact Hv|apply np_array_float_tolist]|].
    split; [exists vm; rewrite Hk by discriminate; auto|].
    split; [exists vq; rewrite Hk by discriminate; auto|].
    rewrite Hk by discriminate. exact Hg.
  - rewrite <- Hkw. unfold build_kwargs, dict_get.
    rewrite !Hk by discriminate. reflexivity.
Qed.

Lemma tick_keeps_running_state_witness :
  exists (d' : dict) (p' v' : vec3),
    manejar_particula no_strings (Some "animation-interval"%string)
      sample_inputs (Some sample_state)
    = (Ok (Update d', no_update, no_update), []) /\
    running_state no_strings d' charged_sphere_mod p' v' 1 1.
Proof.
  destruct (tick_keeps_running_state no_strings sample_inputs sample_state
              charged_sphere_mod (V3 2 0 0) (V3 0 0 0) 1 1
              (<["radius" := dict_get sample_state "radius"]>
                 (<["sigma" := dict_get sample_state "sigma"]> ∅))
              (sphere_closed_form 1 1e-6 8.854e-12 (V3 2 0 0)))
    as (d' & Hcb & Hrun & _).
  - exact sample_state_running.
  - lra.
  - apply build_kwargs_sphere.
  - apply (sample_state_field None 8.854e-12); [lra|reflexivity|].
    apply build_kwargs_sphere.
  - exact sample_state_no_collision.
  - exists d'. eexists. eexists. split; [exact Hcb|exact Hrun].
Defined.

(** X6. A stop request always succeeds, also on a missing or empty
    state: it stores [activo = False], keeps every other entry, disables
    the timer and prints nothing; a second stop request changes nothing
    more, and a start request afterwards is still accepted when a field
    had been computed. *)
Theorem stop_request_idempotent
    (fos : string -> strfloat) (inp inp' : inputs) (a : app) :
  exists a1 : app,
    dispatch fos (Some "stop-button"%string) inp a = Ok a1 /\
    dispatch fos (Some "stop-button"%string) inp' a1 = Ok a1 /\
    interval_disabled a1 = true /\
    stdout a1 = stdout a /\
    (exists d1 : dict,
       store a1 = Some d1 /\
       d1 !! "activo" = Some (PyAtom (ABool false)) /\
       forall (d : dict) (k : string),
         store a = Some d -> k <> "activo"%string -> d1 !! k = d !! k) /\
    simulated_set (store a1) = simulated_set (store a).
Proof.
  assert (Hstop : forall (i : inputs) (e : option dict),
            manejar_particula fos (Some "stop-button"%string) i e
            = (Ok (Update (<["activo" := PyAtom (ABool false)]>
                             (match e with Some d => d | None => ∅ end)),
                   Update true, no_update), [])).
  { intros i e. unfold manejar_particula.
    rewrite (bool_decide_eq_true_2 (Some _ = Some "stop-button"%string))
      by reflexivity.
    destruct e as [d|]; [|reflexivity]. unfold estado_falsy.
    case_bool_decide as Hd; [rewrite Hd|]; reflexivity. }
  destruct a as [s f o]. eexists.
  split; [rewrite (dispatch_of_outputs fos _ inp (App s f o) _ _ _ _
                     (Hstop inp s));
          cbn [store interval_disabled stdout apply_upd]; reflexivity|].
  split.
  { match goal with
    | |- dispatch _ _ _ ?a1 = _ =>
        rewrite (dispatch_of_outputs fos _ inp' a1 _ _ _ _
                   (Hstop inp' (store a1)))
    end.
    cbn [store interval_disabled stdout apply_upd].
    rewrite insert_insert_eq, !app_nil_r. reflexivity. }
  cbn [store interval_disabled stdout].
  split; [reflexivity|]. split; [apply app_nil_r|]. split.
  - eexists. split; [reflexivity|]. split; [apply lookup_insert_eq|].
    intros d k [= ->] Hk. rewrite lookup_insert_ne by congruence. reflexivity.
  - cbn [simulated_set]. unfold dict_get.
    rewrite lookup_insert_ne by discriminate.
    destruct s as [d|]; [reflexivity|]. rewrite lookup_empty. reflexivity.
Qed.

Lemma sample_state_uncharged_facts :
  running_state no_strings sample_state_uncharged charged_sphere_mod
    (V3 2 0 0) (V3 0 0 0) 1 0 /\
  dict_get sample_state_uncharged "sigma" = PyAtom (AFloat 1e-6) /\
  dict_get sample_state_uncharged "radius" = PyAtom (AFloat 1) /\
  param_or_one no_strings sample_state_uncharged "radius" = Ok 1.
Proof.
  unfold running_state, param_or_one, py_or, dict_get, sample_state_uncharged,
    sample_state, start_state, sample_inputs.
  cbn [in_x0 in_y0 in_z0 in_vx0 in_vy0 in_vz0 in_m in_q in_geometry_key
       in_sigma in_radius in_distance in_invert].
  simplify_map_eq.
  assert (Ht : Reqb 1 0 = false) by (apply Reqb_false_iff; lra).
  cbn [truthy atom_truthy]. rewrite Ht.
  split; [|repeat split; reflexivity].
  split; [reflexivity|].
  split; [eexists; split; [reflexivity|]; split; reflexivity|].
  split; [eexists; split; reflexivity|].
  split; [eexists; split; reflexivity|].
  split; [eexists; split; reflexivity|]. reflexivity.
Qed.

(** X7. A particle without charge feels no field: whatever the geometry
    and the field value, the step keeps its velocity and moves it by
    [v * 0.05]. *)
Theorem uncharged_particle_moves_uniformly
    (fos : string -> strfloat) (inp : inputs) (d : dict) (g : geom)
    (p v : vec3) (m : R) (kwargs : dict) (E : vec3) (c : bool) :
  running_state fos d g p v m 0 -> m <> 0 ->
  build_kwargs g d = Ok kwargs ->
  E_func g (of_vec3 p) kwargs = Ok E ->
  check_collision fos (of_vec3 (vadd p (vmuls v 0.05)))
    (PyAtom (AStr (module_name g))) d = Ok c ->
  manejar_particula fos (Some "animation-interval"%string) inp (Some d)
  = (Ok (Update (stepped_state d (vadd p (vmuls v 0.05)) v c),
         no_update, no_update),
     if c then [LogCollision (PyAtom (AStr (module_name g)))] else []).
Proof.
  intros Hrun Hm0 Hkw HE Hc.
  assert (Hv : euler_velocity 0 m E v = v).
  { unfold euler_velocity, vadd, vmuls, vscale. destruct v as [x y z].
    cbn [vx vy vz]. f_equal; unfold Rdiv; ring. }
  rewrite (tick_running fos inp d g p v m 0 kwargs E c Hrun Hm0 Hkw HE).
  - rewrite Hv. reflexivity.
  - rewrite Hv. exact Hc.
Qed.

Lemma uncharged_particle_moves_uniformly_witness :
  manejar_particula no_strings (Some "animation-interval"%string)
    sample_inputs (Some sample_state_uncharged)
  = (Ok (Update (stepped_state sample_state_uncharged
                   (vadd (V3 2 0 0) (vmuls (V3 0 0 0) 0.05)) (V3 0 0 0) false),
         no_update, no_update), []).
Proof.
  destruct sample_state_uncharged_facts as (Hrun & Hs & Hr & Hrad).
  destruct (unit_sphere_state_field sample_state_uncharged (V3 2 0 0) Hs Hr)
    as (kwargs & Hkw & HE).
  apply (uncharged_particle_moves_uniformly no_strings sample_inputs
           sample_state_uncharged charged_sphere_mod (V3 2 0 0) (V3 0 0 0) 1
           kwargs _ false Hrun ltac:(lra) Hkw HE).
  unfold check_collision.
  cbn [of_vec3 unpack3 mbind res_mbind res_bind py_eq_str module_name].
  rewrite Hrad. eval_string_tests. cbn [mbind res_mbind res_bind]. f_equal.
  apply Rleb_false_iff. unfold vadd, vmuls; cbn [vx vy vz].
  rewrite norm_x_axis by lra. rewrite Rabs_pos_eq; lra.
Defined.

(** ** The collision detector and the parameters it shares with the field *)

Lemma sum_sq_flip (x y z : R) :
  sum_sq (V3 (- x) y z) = sum_sq (V3 x y z) /\
  sum_sq (V3 x (- y) z) = sum_sq (V3 x y z) /\
  sum_sq (V3 x y (- z)) = sum_sq (V3 x y z).
Proof. unfold sum_sq; cbn [vx vy vz]. repeat split; ring. Qed.

Lemma norm_eq_of_sum_sq (u v : vec3) : sum_sq u = sum_sq v -> norm u = norm v.
Proof. intros H. unfold norm. rewrite H. reflexivity. Qed.

Lemma sqrt_xy_flip (x y : R) :
  sqrt ((- x) ^ 2 + y ^ 2) = sqrt (x ^ 2 + y ^ 2) /\
  sqrt (x ^ 2 + (- y) ^ 2) = sqrt (x ^ 2 + y ^ 2).
Proof. split; f_equal; ring. Qed.

(** X8. The collision test is mirror-symmetric in each coordinate: for
    every geometry value and every parameter dictionary, flipping the sign
    of [x], of [y] or of [z] does not change its answer. *)
Theorem check_collision_mirror_symmetric
    (fos : string -> strfloat) (x y z : R) (geometry : pyval) (params : dict) :
  check_collision fos (Arr1 [- x; y; z]) geometry params
  = check_collision fos (Arr1 [x; y; z]) geometry params /\
  check_collision fos (Arr1 [x; - y; z]) geometry params
  = check_collision fos (Arr1 [x; y; z]) geometry params /\
  check_collision fos (Arr1 [x; y; - z]) geometry params
  = check_collision fos (Arr1 [x; y; z]) geometry params.
Proof.
  destruct (sqrt_xy_flip x y) as (Hsx & Hsy).
  assert (Hn : forall c : R,
            norm (vsub (V3 (- x) y z) (V3 c 0 0))
            = norm (vsub (V3 x y z) (V3 (- c) 0 0)) /\
            norm (vsub (V3 x (- y) z) (V3 c 0 0))
            = norm (vsub (V3 x y z) (V3 c 0 0)) /\
            norm (vsub (V3 x y (- z)) (V3 c 0 0))
            = norm (vsub (V3 x y z) (V3 c 0 0))).
  { intros c. repeat split; apply norm_eq_of_sum_sq;
      unfold sum_sq, vsub; cbn [vx vy vz]; ring. }
  assert (Hn0 : norm (V3 (- x) y z) = norm (V3 x y z) /\
                norm (V3 x (- y) z) = norm (V3 x y z) /\
                norm (V3 x y (- z)) = norm (V3 x y z))
    by (repeat split; apply norm_eq_of_sum_sq; apply sum_sq_flip).
  destruct Hn0 as (Hn1 & Hn2 & Hn3).
  unfold check_collision. cbn [unpack3 mbind res_mbind res_bind].
  destruct (py_eq_str geometry "charged_sphere");
    [rewrite Hn1, Hn2, Hn3; auto|].
  destruct (py_eq_str geometry "charged_ring");
    [rewrite Hsx, Hsy, !Rabs_Ropp; auto|].
  destruct (py_eq_str geometry "charged_cylinder");
    [rewrite Hsx, Hsy, !Rabs_Ropp; auto|].
  destruct (py_eq_str geometry "charged_plate"); [rewrite !Rabs_Ropp; auto|].
  destruct (py_eq_str geometry "parallel_plates").
  { rewrite !Rabs_Ropp. split; [reflexivity|]. split; [reflexivity|].
    destruct (param_or_one fos params "distance") as [d | e |]; try reflexivity.
    cbn [mbind res_mbind res_bind]. f_equal. f_equal.
    rewrite orb_comm. f_equal.
    - destruct (Rleb (d / 2) (- z)) eqn:H1, (Rleb z (- d / 2)) eqn:H2;
        try reflexivity;
        [apply Rleb_true_iff in H1; apply Rleb_false_iff in H2
        |apply Rleb_false_iff in H1; apply Rleb_true_iff in H2]; lra.
    - destruct (Rleb (- z) (- d / 2)) eqn:H1, (Rleb (d / 2) z) eqn:H2;
        try reflexivity;
        [apply Rleb_true_iff in H1; apply Rleb_false_iff in H2
        |apply Rleb_false_iff in H1; apply Rleb_true_iff in H2]; lra. }
  destruct (py_eq_str geometry "two_spheres"); [|auto].
  destruct (param_or_one fos params "radius") as [r | e |]; auto.
  destruct (param_or_one fos params "distance") as [d | e |]; auto.
  cbn [mbind res_mbind res_bind].
  destruct (Hn (d / 2)) as (Ha1 & Ha2 & Ha3).
  destruct (Hn (- d / 2)) as (Hb1 & Hb2 & Hb3).
  rewrite Ha1, Ha2, Ha3, Hb1, Hb2, Hb3.
  replace (- (d / 2)) with (- d / 2) by (unfold Rdiv; ring).
  replace (- (- d / 2)) with (d / 2) by (unfold Rdiv; ring).
  split; [rewrite orb_comm; reflexivity|auto].
Qed.

(** X9. With a distance that resolves to a negative number the two
    plates of [parallel_plates] swap sides, and the test then reports a
    collision at every height over the footprint [|x| <= 1], [|y| <= 1]. *)
Theorem parallel_plates_negative_distance
    (fos : string -> strfloat) (x y z d : R) (params : dict) :
  param_or_one fos params "distance" = Ok d -> d < 0 ->
  Rabs x <= 1 -> Rabs y <= 1 ->
  check_collision fos (Arr1 [x; y; z]) (PyAtom (AStr "parallel_plates")) params
  = Ok true.
Proof.
  intros Hd Hneg Hx Hy. unfold check_collision.
  cbn [unpack3 mbind res_mbind res_bind py_eq_str]. eval_string_tests.
  rewrite Hd. cbn [mbind res_mbind res_bind]. f_equal.
  apply Rleb_true_iff in Hx. apply Rleb_true_iff in Hy. rewrite Hx, Hy.
  cbn [andb]. apply orb_true_iff.
  destruct (Rle_dec z (- d / 2)) as [Hz | Hz].
  - left. apply Rleb_true_iff. exact Hz.
  - right. apply Rleb_true_iff. lra.
Qed.

Lemma parallel_plates_negative_distance_witness :
  check_collision no_strings (Arr1 [0; 0; 0])
    (PyAtom (AStr "parallel_plates"))
    {["distance" := PyAtom (AFloat (-1))]} = Ok true.
Proof.
  apply (parallel_plates_negative_distance no_strings 0 0 0 (-1)
           {["distance" := PyAtom (AFloat (-1))]}).
  - apply param_or_one_nonzero; [apply lookup_singleton_eq|lra].
  - lra.
  - rewrite Rabs_R0; lra.
  - rewrite Rabs_R0; lra.
Defined.

(** X10. The tick reads only [sigma], [radius], [distance] and [invert]
    from the stored state to call [E_point], and only those its signature
    names: a change of [radius] never reaches the field of the plate, the
    parallel plates or the two spheres, and a change of [distance] or
    [invert] never reaches the field of the sphere, the ring, the
    cylinder or the plate. *)
Theorem build_kwargs_reads_applicable_entries (g : geom) (d : dict) (x : pyval) :
  (forall k : string,
     k <> "sigma"%string -> k <> "radius"%string -> k <> "distance"%string ->
     k <> "invert"%string ->
     build_kwargs g (<[k := x]> d) = build_kwargs g d) /\
  (in_signature "radius" g = false ->
     build_kwargs g (<["radius" := x]> d) = build_kwargs g d) /\
  (in_signature "distance" g = false ->
     build_kwargs g (<["distance" := x]> d) = build_kwargs g d) /\
  (in_signature "invert_signo" g = false ->
     build_kwargs g (<["invert" := x]> d) = build_kwargs g d) /\
  (in_signature "radius" g = false <->
     g = charged_plate_mod \/ g = parallel_plates_mod \/ g = two_spheres_mod) /\
  (in_signature "distance" g = false <->
     g = charged_sphere_mod \/ g = charged_ring_mod \/
     g = charged_cylinder_mod \/ g = charged_plate_mod) /\
  (in_signature "invert_signo" g = in_signature "distance" g) /\
  in_signature "sigma" g = true.
Proof.
  split; [|split; [|split; [|split; [|split; [|split; [|split]]]]]].
  - intros k H1 H2 H3 H4. unfold build_kwargs, dict_get.
    rewrite !lookup_insert_ne by congruence. reflexivity.
  - intros H. unfold build_kwargs, dict_get. rewrite H.
    rewrite !lookup_insert_ne by discriminate. reflexivity.
  - intros H. unfold build_kwargs, dict_get. rewrite H.
    rewrite !lookup_insert_ne by discriminate. reflexivity.
  - intros H. unfold build_kwargs, dict_get. rewrite H.
    rewrite !lookup_insert_ne by discriminate. reflexivity.
  - destruct g; vm_compute; split; intros H; try discriminate; auto;
      destruct H as [H | [H | H]]; discriminate.
  - destruct g; vm_compute; split; intros H; try discriminate; auto 6;
      destruct H as [H | [H | [H | H]]]; discriminate.
  - destruct g; reflexivity.
  - destruct g; reflexivity.
Qed.

Lemma build_kwargs_reads_applicable_entries_witness :
  build_kwargs two_spheres_mod (<["radius" := PyAtom (AFloat 7)]> sample_state)
  = build_kwargs two_spheres_mod sample_state.
Proof.
  apply (proj1 (proj2 (build_kwargs_reads_applicable_entries two_spheres_mod
                         sample_state (PyAtom (AFloat 7))))).
  reflexivity.
Defined.

(** X11. What [update_controls] shows agrees with what the tick passes to
    [E_point]: the distance and sign controls are shown exactly for the
    geometries whose [E_point] takes [distance] and [invert_signo], the
    charge density control for all six, and the radius control for ring
    and cylinder, whose [E_point] takes [radius]; the sphere's [E_point]
    takes [radius] too although its control is hidden.  The check-list of
    the equipotentials is shown for every value of the dropdown; for a
    value that names no geometry it is the only control shown, the other
    four being hidden. *)
Theorem controls_match_signatures (g : geom) :
  show_sigma (PyAtom (AStr (module_name g))) = in_signature "sigma" g /\
  show_distance (PyAtom (AStr (module_name g))) = in_signature "distance" g /\
  show_invert (PyAtom (AStr (module_name g))) = in_signature "invert_signo" g /\
  (show_radius (PyAtom (AStr (module_name g))) = true ->
   in_signature "radius" g = true) /\
  (in_signature "radius" g = true ->
   show_radius (PyAtom (AStr (module_name g))) = false ->
   g = charged_sphere_mod) /\
  update_controls (PyAtom (AStr (module_name g)))
  = [("input-sigma", true);
     ("input-distance", in_signature "distance" g);
     ("input-radius",
      match g with
      | charged_ring_mod | charged_cylinder_mod => true
      | _ => false
      end);
     ("input-equipotentials", true);
     ("input-invert", in_signature "invert_signo" g)]%string /\
  (forall v : pyval,
     In ("input-equipotentials"%string, true) (update_controls v)) /\
  (forall v : pyval,
     (forall g' : geom, v <> PyAtom (AStr (module_name g'))) ->
     show_sigma v = false /\ show_distance v = false /\
     show_radius v = false /\ show_invert v = false /\
     update_controls v
     = [("input-sigma", false); ("input-distance", false);
        ("input-radius", false); ("input-equipotentials", true);
        ("input-invert", false)]%string).
Proof.
  split; [destruct g; reflexivity|].
  split; [destruct g; reflexivity|].
  split; [destruct g; reflexivity|].
  split; [destruct g; vm_compute; congruence|].
  split; [destruct g; vm_compute; congruence|].
  split; [destruct g; reflexivity|].
  split; [intros v; unfold update_controls; cbn [In]; auto 6|].
  intros v Hv.
  assert (Hne : forall g' : geom, py_eq_str v (module_name g') = false).
  { intros g'. destruct v as [[| b | n | r | s] | l]; try reflexivity.
    cbn [py_eq_str]. apply String.eqb_neq. intros ->. apply (Hv g').
    reflexivity. }
  pose proof (Hne charged_sphere_mod) as H1.
  pose proof (Hne charged_ring_mod) as H2.
  pose proof (Hne charged_cylinder_mod) as H3.
  pose proof (Hne charged_plate_mod) as H4.
  pose proof (Hne parallel_plates_mod) as H5.
  pose proof (Hne two_spheres_mod) as H6.
  cbn [module_name] in *.
  unfold update_controls, show_sigma, show_distance, show_radius, show_invert,
    py_in_strs.
  cbn [existsb]. rewrite H1, H2, H3, H4, H5, H6. repeat split; reflexivity.
Qed.

Lemma controls_match_signatures_witness :
  show_sigma (PyAtom ANone) = false /\ show_distance (PyAtom ANone) = false /\
  show_radius (PyAtom ANone) = false /\ show_invert (PyAtom ANone) = false /\
  update_controls (PyAtom ANone)
  = [("input-sigma", false); ("input-distance", false);
     ("input-radius", false); ("input-equipotentials", true);
     ("input-invert", false)]%string.
Proof.
  apply (proj2 (proj2 (proj2 (proj2 (proj2 (proj2 (proj2
           (controls_match_signatures charged_ring_mod))))))) (PyAtom ANone)).
  intros g'. discriminate.
Defined.

(** ** The closed-form kernels *)

Lemma compute_potential_sphere_shell
    (c : vec3) (a sigma eps : R) (obs : list vec3) :
  0 < a -> 0 < eps ->
  charged_sphere.compute_potential_sphere c a sigma obs eps
  = Ok (map (shell_potential (4 * PI * a ^ 2 * sigma) c a eps) obs).
Proof.
  intros Ha He. unfold charged_sphere.compute_potential_sphere. cbv zeta.
  apply res_mapM_ok. intros p _. fold (norm (vsub p c)).
  unfold shell_potential, sdiv_chk.
  destruct (Rleb (norm (vsub p c)) a) eqn:Hin.
  - assert (Hd : 4 * PI * eps * a <> 0)
      by (apply shell_denominator_nonzero; lra).
    apply Reqb_false_iff in Hd. rewrite Hd. reflexivity.
  - apply Rleb_false_iff in Hin.
    assert (Hd : 4 * PI * eps * norm (vsub p c) <> 0)
      by (apply shell_denominator_nonzero; lra).
    apply Reqb_false_iff in Hd. rewrite Hd. reflexivity.
Qed.

(** X12. The potential of the charged sphere, for any centre: constant
    [a * sigma / epsilon_0] at every point within the radius [a], equal to
    [a^2 * sigma / (epsilon_0 * r)] at distance [r >= a] from the centre;
    the two expressions agree on the surface, so the potential is
    continuous there. *)
Theorem sphere_potential_profile
    (c : vec3) (a sigma eps : R) (obs : list vec3) :
  0 < a -> 0 < eps ->
  exists V : list R,
    charged_sphere.compute_potential_sphere c a sigma obs eps = Ok V /\
    length V = length obs /\
    forall (i : nat) (p : vec3), obs !! i = Some p ->
      exists Vi : R,
        V !! i = Some Vi /\
        (norm (vsub p c) <= a -> Vi = a * sigma / eps) /\
        (a <= norm (vsub p c) ->
           Vi = a ^ 2 * sigma / (eps * norm (vsub p c))).
Proof.
  intros Ha He. pose proof PI_RGT_0 as Hpi.
  rewrite compute_potential_sphere_shell by assumption.
  eexists. split; [reflexivity|]. split; [apply length_map|].
  intros i p Hi. eexists. split; [rewrite list_lookup_fmap, Hi; reflexivity|].
  unfold shell_potential. split.
  - intros Hin. apply Rleb_true_iff in Hin. rewrite Hin. field. lra.
  - intros Hout. destruct (Rleb (norm (vsub p c)) a) eqn:Hin.
    + apply Rleb_true_iff in Hin.
      assert (Heq : norm (vsub p c) = a) by lra. rewrite Heq. field. lra.
    + field. lra.
Qed.

Lemma sphere_potential_profile_witness :
  exists V : list R,
    charged_sphere.compute_potential_sphere (V3 0 0 0) 1 1e-6
      [V3 0.5 0 0; V3 2 0 0] 8.854e-12 = Ok V /\
    length V = 2%nat.
Proof.
  destruct (sphere_potential_profile (V3 0 0 0) 1 1e-6 8.854e-12
              [V3 0.5 0 0; V3 2 0 0]) as (V & HV & Hlen & _); [lra|lra|].
  exists V. split; assumption.
Defined.

Lemma norm_vscale_abs (k : R) (v : vec3) : norm (vscale k v) = Rabs k * norm v.
Proof.
  unfold norm, sum_sq, vscale; cbn [vx vy vz].
  replace ((k * vx v) ^ 2 + (k * vy v) ^ 2 + (k * vz v) ^ 2)
    with (Rsqr k * (vx v ^ 2 + vy v ^ 2 + vz v ^ 2)) by (unfold Rsqr; ring).
  rewrite sqrt_mult_alt by apply Rle_0_sqr. rewrite sqrt_Rsqr_abs. reflexivity.
Qed.

Lemma compute_field_sphere_shell
    (c : vec3) (a sigma eps : R) (obs : list vec3) :
  0 < a -> 0 < eps ->
  charged_sphere.compute_field_sphere c a sigma obs eps
  = Ok (map (shell_field (4 * PI * a ^ 2 * sigma) c a eps) obs).
Proof.
  intros Ha He. unfold charged_sphere.compute_field_sphere. cbv zeta.
  apply res_mapM_ok. intros p _. fold (norm (vsub p c)).
  unfold shell_field, vdiv_chk.
  destruct (Rleb (norm (vsub p c)) a) eqn:Hin; [reflexivity|].
  apply Rleb_false_iff in Hin.
  assert (Hd : 4 * PI * eps * norm (vsub p c) ^ 3 <> 0)
    by (apply sphere_denominator_nonzero; lra).
  apply Reqb_false_iff in Hd. rewrite Hd. reflexivity.
Qed.

(** X13. Outside a charged sphere with any centre [c] the field is
    radial and follows the inverse-square law: at distance [r > a] it is
    [(a^2 * sigma / (epsilon_0 * r^3)) * (p - c)], of magnitude
    [a^2 * |sigma| / (epsilon_0 * r^2)]; so the field jumps at the surface
    from zero to [|sigma| / epsilon_0]. *)
Theorem sphere_field_inverse_square
    (c : vec3) (a sigma eps : R) (p : vec3) :
  0 < a -> 0 < eps -> a < norm (vsub p c) ->
  exists E : vec3,
    charged_sphere.compute_field_sphere c a sigma [p] eps = Ok [E] /\
    E = vscale (a ^ 2 * sigma / (eps * norm (vsub p c) ^ 3)) (vsub p c) /\
    norm E = a ^ 2 * Rabs sigma / (eps * norm (vsub p c) ^ 2).
Proof.
  intros Ha He Hout. pose proof PI_RGT_0 as Hpi.
  rewrite compute_field_sphere_shell by assumption. cbn [map].
  eexists. split; [reflexivity|]. unfold shell_field.
  assert (Hb : Rleb (norm (vsub p c)) a = false)
    by (apply Rleb_false_iff; exact Hout).
  rewrite Hb, vdiv_vscale. set (r := norm (vsub p c)) in *.
  assert (Hr : 0 < r) by lra.
  assert (Hk : 4 * PI * a ^ 2 * sigma / (4 * PI * eps * r ^ 3)
               = a ^ 2 * sigma / (eps * r ^ 3)) by (field; lra).
  rewrite Hk. split; [reflexivity|].
  rewrite norm_vscale_abs. fold r.
  unfold Rdiv. rewrite !Rabs_mult, Rabs_inv.
  rewrite (Rabs_pos_eq (a ^ 2)) by (apply pow_le; lra).
  rewrite (Rabs_pos_eq (eps * r ^ 3))
    by (apply Rmult_le_pos; [lra|apply pow_le; lra]).
  field. lra.
Qed.

Lemma sphere_field_inverse_square_witness :
  exists E : vec3,
    charged_sphere.compute_field_sphere (V3 1 1 1) 1 1e-6 [V3 4 1 1] 8.854e-12
    = Ok [E] /\
    norm E = 1 ^ 2 * Rabs 1e-6
             / (8.854e-12 * norm (vsub (V3 4 1 1) (V3 1 1 1)) ^ 2).
Proof.
  destruct (sphere_field_inverse_square (V3 1 1 1) 1 1e-6 8.854e-12 (V3 4 1 1))
    as (E & HE & _ & Hn); [lra|lra| |].
  - unfold vsub; cbn [vx vy vz]. rewrite norm_x_axis by lra.
    rewrite Rabs_pos_eq; lra.
  - exists E. split; assumption.
Defined.

Lemma vscale_zero_inv (k : R) (v : vec3) :
  vscale k v = V3 0 0 0 -> k <> 0 -> norm v = 0.
Proof.
  intros H Hk. destruct v as [x y z]. unfold vscale in H; cbn [vx vy vz] in H.
  injection H as Hx Hy Hz.
  apply Rmult_integral in Hx, Hy, Hz.
  destruct Hx as [?| ->]; [contradiction|].
  destruct Hy as [?| ->]; [contradiction|].
  destruct Hz as [?| ->]; [contradiction|].
  unfold norm, sum_sq; cbn [vx vy vz].
  replace (0 ^ 2 + 0 ^ 2 + 0 ^ 2) with 0 by ring. apply sqrt_0.
Qed.

(** X14. For the sphere the particle stops exactly where the field
    vanishes: with a stored radius [a > 0] and a charge density
    [sigma <> 0], [check_collision] answers [True] at a position if and
    only if [E_point], called as the tick calls it, returns the zero
    vector there. *)
Theorem sphere_collision_iff_no_field
    (fos : string -> strfloat) (d : dict) (a sigma : R) (p : vec3) :
  d !! "radius" = Some (PyAtom (AFloat a)) ->
  d !! "sigma" = Some (PyAtom (AFloat sigma)) ->
  0 < a -> sigma <> 0 ->
  exists (kwargs : dict) (E : vec3) (b : bool),
    build_kwargs charged_sphere_mod d = Ok kwargs /\
    E_func charged_sphere_mod (of_vec3 p) kwargs = Ok E /\
    check_collision fos (of_vec3 p) (PyAtom (AStr "charged_sphere")) d = Ok b /\
    (b = true <-> E = V3 0 0 0).
Proof.
  intros Hr Hs Ha Hsig. pose proof PI_RGT_0 as Hpi.
  exists (<["radius" := dict_get d "radius"]> (<["sigma" := dict_get d "sigma"]> ∅)).
  exists (sphere_closed_form a sigma 8.854e-12 p), (Rleb (norm p) a).
  split; [apply build_kwargs_sphere|]. split.
  { unfold dict_get. rewrite Hr, Hs. cbn [E_func].
    apply sphere_E_point_of_kwargs; try lra;
      unfold kwarg; simplify_map_eq; reflexivity. }
  split.
  { unfold check_collision.
    cbn [of_vec3 unpack3 mbind res_mbind res_bind py_eq_str].
    rewrite (param_or_one_nonzero fos d "radius" a Hr) by lra.
    eval_string_tests. cbn [mbind res_mbind res_bind].
    replace (V3 (vx p) (vy p) (vz p)) with p by (destruct p; reflexivity).
    reflexivity. }
  unfold sphere_closed_form. destruct (Rleb (norm p) a) eqn:Hin.
  - split; reflexivity.
  - split; [discriminate|]. intros H. apply Rleb_false_iff in Hin.
    rewrite vdiv_vscale in H. apply vscale_zero_inv in H; [lra|].
    assert (Hd : 4 * PI * 8.854e-12 * norm p ^ 3 <> 0)
      by (apply sphere_denominator_nonzero; lra).
    unfold Rdiv. apply Rmult_integral_contrapositive. split.
    + apply Rmult_integral_contrapositive. split; [|exact Hsig].
      assert (0 < a ^ 2) by (apply pow_lt; lra).
      assert (0 < 4 * PI) by lra. nra.
    + apply Rinv_neq_0_compat. exact Hd.
Qed.

Lemma sphere_collision_iff_no_field_witness :
  exists (kwargs : dict) (E : vec3) (b : bool),
    build_kwargs charged_sphere_mod sample_state = Ok kwargs /\
    E_func charged_sphere_mod (of_vec3 (V3 2 0 0)) kwargs = Ok E /\
    check_collision no_strings (of_vec3 (V3 2 0 0))
      (PyAtom (AStr "charged_sphere")) sample_state = Ok b /\
    (b = true <-> E = V3 0 0 0).
Proof.
  apply (sphere_collision_iff_no_field no_strings sample_state 1 1e-6 (V3 2 0 0)).
  - unfold sample_state, start_state, sample_inputs.
    cbn [in_radius]. simplify_map_eq. reflexivity.
  - unfold sample_state, start_state, sample_inputs.
    cbn [in_sigma]. simplify_map_eq. reflexivity.
  - lra.
  - lra.
Defined.

Lemma two_spheres_E_point_superposition
    (s dd : R) (inv : bool) (p : vec3) :
  two_spheres.E_point (of_vec3 p)
    (<["sigma" := PyAtom (AFloat s)]>
       (<["distance" := PyAtom (AFloat dd)]>
          (<["invert_signo" := PyAtom (ABool inv)]> ∅)))
  = Ok (let q := 4 * PI * 0.5 ^ 2 * s in
        vadd (shell_field q (V3 (- dd / 2) 0 0) 0.5 EPSILON_0 p)
             (shell_field (if inv then - q else q) (V3 (dd / 2) 0 0) 0.5
                EPSILON_0 p)).
Proof.
  unfold two_spheres.E_point.
  repeat (rewrite kwarg_insert_eq || rewrite kwarg_insert_ne by discriminate).
  rewrite kwarg_absent by apply lookup_empty.
  cbn [py_number njit_number as_number atom_number mbind res_mbind res_bind
       truthy atom_truthy].
  rewrite as_vec3_of_vec3. cbn [mbind res_mbind res_bind].
  replace 0.0 with 0 by lra.
  rewrite two_spheres_field_superposition
    by (unfold EPSILON_0; lra).
  reflexivity.
Qed.

(** X15. The field of the two spheres on the plane midway between them,
    as the tick evaluates it: with equal charges ([invert_signo] false) it
    has no component along the axis joining the spheres, and vanishes at
    the midpoint itself; with opposite charges it points along that axis,
    its two transverse components being zero.  This holds for every charge
    density and every distance. *)
Theorem two_spheres_midplane_field (s dd y z : R) (inv : bool) :
  exists E : vec3,
    two_spheres.E_point (Arr1 [0; y; z])
      (<["sigma" := PyAtom (AFloat s)]>
         (<["distance" := PyAtom (AFloat dd)]>
            (<["invert_signo" := PyAtom (ABool inv)]> ∅)))
    = Ok E /\
    (inv = false -> vx E = 0) /\
    (inv = false -> y = 0 -> z = 0 -> E = V3 0 0 0) /\
    (inv = true -> vy E = 0 /\ vz E = 0).
Proof.
  eexists. split; [apply (two_spheres_E_point_superposition s dd inv (V3 0 y z))|].
  cbv zeta. unfold shell_field.
  assert (Hn : norm (vsub (V3 0 y z) (V3 (- dd / 2) 0 0))
               = norm (vsub (V3 0 y z) (V3 (dd / 2) 0 0))).
  { apply norm_eq_of_sum_sq. unfold sum_sq, vsub; cbn [vx vy vz].
    unfold Rdiv; ring. }
  rewrite Hn. set (r := norm (vsub (V3 0 y z) (V3 (dd / 2) 0 0))).
  destruct (Rleb r 0.5).
  - unfold vadd; cbn [vx vy vz].
    split; [intros; lra|]. split; [intros; f_equal; lra|].
    intros; split; lra.
  - unfold vadd, vdiv, vscale, vsub; cbn [vx vy vz].
    split; [intros ->; unfold Rdiv; ring|].
    split; [intros -> -> ->; f_equal; unfold Rdiv; ring|].
    intros ->. split; unfold Rdiv; ring.
Qed.

Lemma two_spheres_midplane_field_witness :
  exists E : vec3,
    two_spheres.E_point (Arr1 [0; 0; 0])
      (<["sigma" := PyAtom (AFloat 1e-6)]>
         (<["distance" := PyAtom (AFloat 2)]>
            (<["invert_signo" := PyAtom (ABool false)]> ∅)))
    = Ok E /\ E = V3 0 0 0.
Proof.
  destruct (two_spheres_midplane_field 1e-6 2 0 0 false)
    as (E & HE & _ & H0 & _).
  exists E. split; [exact HE|]. apply H0; reflexivity.
Defined.

(** ** The discretised kernels as sums of contributions *)

Lemma res_foldl_ok {A B : Type} (f : B -> A -> res B) (g : B -> A -> B)
    (l : list A) (b : B) :
  (forall b' a, f b' a = Ok (g b' a)) ->
  res_foldl f l b = Ok (fold_left g l b).
Proof.
  intros H. revert b. induction l as [|a l IH]; intros b; [reflexivity|].
  cbn [res_foldl fold_left]. rewrite H. cbn [mbind res_mbind res_bind].
  apply IH.
Qed.

Lemma sdiv_chk_nonzero (a b : R) : b <> 0 -> sdiv_chk a b = Ok (a / b).
Proof.
  intros H. unfold sdiv_chk. apply Reqb_false_iff in H. rewrite H. reflexivity.
Qed.

Lemma IZR_nonzero (n : Z) : n <> 0%Z -> IZR n <> 0.
Proof. intros H Hz. apply H. apply eq_IZR. exact Hz. Qed.

Lemma source_step_ok (thr eps k : R) (r_vec E : vec3) :
  0 <= thr -> 0 < eps ->
  (if Rltb thr (sqrt (sum_sq r_vec))
   then c ← vdiv_chk (vscale k r_vec)
                      (4 * PI * eps * sqrt (sum_sq r_vec) ^ 3);
        Ok (vadd E c)
   else Ok E)
  = Ok (vadd E (if Rltb thr (sqrt (sum_sq r_vec))
                then vdiv (vscale k r_vec)
                          (4 * PI * eps * sqrt (sum_sq r_vec) ^ 3)
                else V3 0 0 0)).
Proof.
  intros Hthr He. destruct (Rltb thr (sqrt (sum_sq r_vec))) eqn:Hfar.
  - apply Rltb_true_iff in Hfar. unfold vdiv_chk.
    assert (Hd : 4 * PI * eps * sqrt (sum_sq r_vec) ^ 3 <> 0)
      by (apply sphere_denominator_nonzero; lra).
    apply Reqb_false_iff in Hd. rewrite Hd. reflexivity.
  - rewrite vadd_origin_r. reflexivity.
Qed.

Lemma ring_superposition (c : vec3) (radius sigma : R) (obs : list vec3)
    (eps : R) (N : Z) :
  N <> 0%Z -> 0 < eps ->
  charged_ring.compute_field_ring c radius sigma obs eps N
  = Ok (map (fun p => vsum (ring_contribution c radius sigma eps N p)
                        (py_range N) (V3 0 0 0)) obs).
Proof.
  intros HN He. unfold charged_ring.compute_field_ring.
  rewrite sdiv_chk_nonzero by (apply IZR_nonzero; exact HN).
  cbn [mbind res_mbind res_bind]. apply res_mapM_ok. intros p _.
  unfold vsum. apply res_foldl_ok. intros E i. cbv zeta.
  unfold ring_contribution. cbv zeta.
  apply source_step_ok; [lra|exact He].
Qed.

Lemma cylinder_superposition (c : vec3) (radius height sigma : R)
    (obs : list vec3) (N_theta N_z : Z) (eps : R) :
  N_theta <> 0%Z -> N_z <> 0%Z -> 0 < eps ->
  charged_cylinder.compute_field_cylinder c radius height sigma obs
    N_theta N_z eps
  = Ok (map (fun p =>
               vsum2 (cylinder_contribution c radius height sigma eps
                        N_theta N_z p)
                 (py_range N_theta) (py_range N_z) (V3 0 0 0)) obs).
Proof.
  intros Ht Hz He. unfold charged_cylinder.compute_field_cylinder.
  rewrite !sdiv_chk_nonzero by (apply IZR_nonzero; assumption).
  cbn [mbind res_mbind res_bind]. apply res_mapM_ok. intros p _.
  unfold vsum2. apply res_foldl_ok. intros E i. cbv zeta.
  unfold vsum. apply res_foldl_ok. intros E' j. cbv zeta.
  unfold cylinder_contribution. cbv zeta.
  apply source_step_ok; [lra|exact He].
Qed.

Lemma plate_superposition (c : vec3) (width height sigma : R)
    (obs : list vec3) (eps : R) (N : Z) :
  N <> 0%Z -> 0 < eps ->
  charged_plate.compute_field_plate c width height sigma obs eps N
  = Ok (map (fun p =>
               vsum2 (plate_contribution c width height sigma eps N p)
                 (py_range N) (py_range N) (V3 0 0 0)) obs).
Proof.
  intros HN He. unfold charged_plate.compute_field_plate.
  rewrite !sdiv_chk_nonzero by (apply IZR_nonzero; assumption).
  cbn [mbind res_mbind res_bind]. apply res_mapM_ok. intros p _.
  unfold vsum2. apply res_foldl_ok. intros E i.
  unfold vsum. apply res_foldl_ok. intros E' j. cbv zeta.
  unfold plate_contribution. cbv zeta.
  match goal with
  | |- context [Reqb ?r 0] => destruct (Reqb r 0) eqn:Hr
  end.
  - rewrite vadd_origin_r. reflexivity.
  - apply Reqb_false_iff in Hr. unfold vdiv_chk.
    match goal with
    | |- context [Reqb ?den 0] =>
        assert (Hd : den <> 0)
    end.
    { apply sphere_denominator_nonzero; [exact He|].
      match goal with
      | |- 0 < sqrt ?s => pose proof (sqrt_pos s)
      end. lra. }
    apply Reqb_false_iff in Hd. rewrite Hd. reflexivity.
Qed.

Lemma vsum_invariant {A : Type} (P : vec3 -> Prop) (c : A -> vec3)
    (l : list A) (E : vec3) :
  P E -> (forall E' i, P E' -> P (vadd E' (c i))) -> P (vsum c l E).
Proof.
  intros HE Hstep. unfold vsum. revert E HE.
  induction l as [|i l IH]; intros E HE; [exact HE|].
  cbn [fold_left]. apply IH. apply Hstep. exact HE.
Qed.

Lemma vsum2_invariant {A B : Type} (P : vec3 -> Prop) (c : A -> B -> vec3)
    (l1 : list A) (l2 : list B) (E : vec3) :
  P E -> (forall E' i j, P E' -> P (vadd E' (c i j))) -> P (vsum2 c l1 l2 E).
Proof.
  intros HE Hstep. unfold vsum2. revert E HE.
  induction l1 as [|i l1 IH]; intros E HE; [exact HE|].
  cbn [fold_left]. apply IH. apply vsum_invariant; [exact HE|].
  intros E' j. apply Hstep.
Qed.

(** X16. A point in the plane of the ring, or in the plane of the plate,
    feels no force out of that plane: the discretised field there has a
    zero component along the normal, for every resolution and every
    charge density. *)
Theorem in_plane_field_has_no_normal_component
    (c : vec3) (sigma eps : R) (N : Z) (obs : list vec3) :
  N <> 0%Z -> 0 < eps ->
  (forall radius : R,
     exists E : list vec3,
       charged_ring.compute_field_ring c radius sigma obs eps N = Ok E /\
       forall (i : nat) (p : vec3), obs !! i = Some p -> vz p = vz c ->
         exists Ei : vec3, E !! i = Some Ei /\ vz Ei = 0) /\
  (forall width height : R,
     exists E : list vec3,
       charged_plate.compute_field_plate c width height sigma obs eps N = Ok E /\
       forall (i : nat) (p : vec3), obs !! i = Some p -> vz p = vz c ->
         exists Ei : vec3, E !! i = Some Ei /\ vz Ei = 0).
Proof.
  intros HN He. split.
  - intros radius. rewrite ring_superposition by assumption.
    eexists. split; [reflexivity|]. intros i p Hi Hz.
    eexists. split; [rewrite list_lookup_fmap, Hi; reflexivity|].
    apply (vsum_invariant (fun E => vz E = 0)); [reflexivity|].
    intros E' k HE'. unfold ring_contribution. cbv zeta.
    match goal with
    | |- context [Rltb ?a ?b] => destruct (Rltb a b)
    end; unfold vadd, vdiv, vscale, vsub; cbn [vx vy vz];
      rewrite HE', ?Hz; unfold Rdiv; ring.
  - intros width height. rewrite plate_superposition by assumption.
    eexists. split; [reflexivity|]. intros i p Hi Hz.
    eexists. split; [rewrite list_lookup_fmap, Hi; reflexivity|].
    apply (vsum2_invariant (fun E => vz E = 0)); [reflexivity|].
    intros E' k j HE'. unfold plate_contribution. cbv zeta.
    match goal with
    | |- context [Reqb ?a ?b] => destruct (Reqb a b)
    end; unfold vadd, vdiv, vscale, vsub; cbn [vx vy vz];
      rewrite HE', ?Hz; unfold Rdiv; ring.
Qed.

Lemma in_plane_field_has_no_normal_component_witness :
  exists E : list vec3,
    charged_ring.compute_field_ring (V3 0 0 0) 1 1e-6 [V3 0.25 0 0] 8.854e-12
      120 = Ok E /\
    exists Ei : vec3, E !! 0%nat = Some Ei /\ vz Ei = 0.
Proof.
  destruct (in_plane_field_has_no_normal_component (V3 0 0 0) 1e-6 8.854e-12
              120 [V3 0.25 0 0]) as (Hring & _); [lia|lra|].
  destruct (Hring 1) as (E & HE & Hz). exists E. split; [exact HE|].
  apply (Hz 0%nat (V3 0.25 0 0)); reflexivity.
Defined.

Lemma vscale_vadd (k : R) (u v : vec3) :
  vscale k (vadd u v) = vadd (vscale k u) (vscale k v).
Proof. unfold vscale, vadd; cbn [vx vy vz]. f_equal; ring. Qed.

Lemma vsum_vscale {A : Type} (k : R) (c c' : A -> vec3) (l : list A) (E : vec3) :
  (forall i, c' i = vscale k (c i)) ->
  vsum c' l (vscale k E) = vscale k (vsum c l E).
Proof.
  intros H. unfold vsum. revert E. induction l as [|i l IH]; intros E;
    [reflexivity|].
  cbn [fold_left]. rewrite H, <- vscale_vadd. apply IH.
Qed.

Lemma vsum2_vscale {A B : Type} (k : R) (c c' : A -> B -> vec3)
    (l1 : list A) (l2 : list B) (E : vec3) :
  (forall i j, c' i j = vscale k (c i j)) ->
  vsum2 c' l1 l2 (vscale k E) = vscale k (vsum2 c l1 l2 E).
Proof.
  intros H. unfold vsum2. revert E. induction l1 as [|i l1 IH]; intros E;
    [reflexivity|].
  cbn [fold_left]. rewrite (vsum_vscale k (c i) (c' i)) by apply H. apply IH.
Qed.

Lemma vscale_origin (k : R) : vscale k (V3 0 0 0) = V3 0 0 0.
Proof. unfold vscale; cbn [vx vy vz]. f_equal; ring. Qed.

Lemma source_term_vscale (k dq dq' D : R) (r_vec : vec3) (b : bool) :
  dq' = k * dq ->
  (if b then vdiv (vscale dq' r_vec) D else V3 0 0 0)
  = vscale k (if b then vdiv (vscale dq r_vec) D else V3 0 0 0).
Proof.
  intros ->. destruct b; [|symmetry; apply vscale_origin].
  unfold vdiv, vscale; cbn [vx vy vz]. f_equal; unfold Rdiv; ring.
Qed.

(** X17. The discretised fields of the ring, the cylinder and the plate
    are proportional to the charge density: multiplying [sigma] by [k]
    multiplies every field vector by [k] (so reversing the sign of the
    charge reverses the field), for every resolution and every
    observation point. *)
Theorem field_proportional_to_charge_density
    (k sigma eps : R) (c : vec3) (obs : list vec3) (N : Z) :
  N <> 0%Z -> 0 < eps ->
  (forall radius : R,
     exists E : list vec3,
       charged_ring.compute_field_ring c radius sigma obs eps N = Ok E /\
       charged_ring.compute_field_ring c radius (k * sigma) obs eps N
       = Ok (map (vscale k) E)) /\
  (forall (radius height : R) (N_z : Z), N_z <> 0%Z ->
     exists E : list vec3,
       charged_cylinder.compute_field_cylinder c radius height sigma obs
         N N_z eps = Ok E /\
       charged_cylinder.compute_field_cylinder c radius height (k * sigma) obs
         N N_z eps = Ok (map (vscale k) E)) /\
  (forall width height : R,
     exists E : list vec3,
       charged_plate.compute_field_plate c width height sigma obs eps N = Ok E /\
       charged_plate.compute_field_plate c width height (k * sigma) obs eps N
       = Ok (map (vscale k) E)).
Proof.
  intros HN He. split; [|split].
  - intros radius. rewrite !ring_superposition by assumption.
    eexists. split; [reflexivity|]. f_equal. rewrite map_map.
    apply map_ext. intros p. rewrite <- (vscale_origin k) at 1.
    apply vsum_vscale. intros i. unfold ring_contribution. cbv zeta.
    apply source_term_vscale. ring.
  - intros radius height N_z Hz. rewrite !cylinder_superposition by assumption.
    eexists. split; [reflexivity|]. f_equal. rewrite map_map.
    apply map_ext. intros p. rewrite <- (vscale_origin k) at 1.
    apply vsum2_vscale. intros i j. unfold cylinder_contribution. cbv zeta.
    apply source_term_vscale. ring.
  - intros width height. rewrite !plate_superposition by assumption.
    eexists. split; [reflexivity|]. f_equal. rewrite map_map.
    apply map_ext. intros p. rewrite <- (vscale_origin k) at 1.
    apply vsum2_vscale. intros i j. unfold plate_contribution. cbv zeta.
    match goal with
    | |- context [Reqb ?a ?b] => destruct (Reqb a b)
    end; [symmetry; apply vscale_origin|].
    unfold vdiv, vscale; cbn [vx vy vz]. f_equal; unfold Rdiv; ring.
Qed.

Lemma field_proportional_to_charge_density_witness :
  exists E : list vec3,
    charged_ring.compute_field_ring (V3 0 0 0) 1 1e-6 [V3 0 0 1] 8.854e-12 120
    = Ok E /\
    charged_ring.compute_field_ring (V3 0 0 0) 1 (-1 * 1e-6) [V3 0 0 1]
      8.854e-12 120 = Ok (map (vscale (-1)) E).
Proof.
  destruct (field_proportional_to_charge_density (-1) 1e-6 8.854e-12
              (V3 0 0 0) [V3 0 0 1] 120) as (Hring & _); [lia|lra|].
  exact (Hring 1).
Defined.

(** ** Sums over the source elements *)

Lemma py_range_of_nat (n : nat) : py_range (Z.of_nat n) = map Z.of_nat (seq 0 n).
Proof. unfold py_range. rewrite Nat2Z.id. reflexivity. Qed.

Lemma vsum_snoc {A : Type} (c : A -> vec3) (l : list A) (i : A) (E : vec3) :
  vsum c (l ++ [i]) E = vadd (vsum c l E) (c i).
Proof. unfold vsum. rewrite fold_left_app. reflexivity. Qed.

Lemma vsum2_snoc {A B : Type} (c : A -> B -> vec3) (l1 : list A) (i : A)
    (l2 : list B) (E : vec3) :
  vsum2 c (l1 ++ [i]) l2 E = vsum (c i) l2 (vsum2 c l1 l2 E).
Proof. unfold vsum2. rewrite fold_left_app. reflexivity. Qed.

Lemma vsum_range (c : Z -> vec3) (n : nat) (E : vec3) :
  vsum c (py_range (Z.of_nat n)) E
  = vadd E (V3 (sum_n (fun k => vx (c (Z.of_nat k))) n)
               (sum_n (fun k => vy (c (Z.of_nat k))) n)
               (sum_n (fun k => vz (c (Z.of_nat k))) n)).
Proof.
  rewrite py_range_of_nat. induction n as [|n IH].
  - cbn. symmetry. apply vadd_origin_r.
  - rewrite seq_S, map_app. cbn [map Nat.add]. rewrite vsum_snoc, IH.
    cbn [sum_n]. unfold vadd; cbn [vx vy vz]. f_equal; ring.
Qed.

Lemma vsum2_range (c : Z -> Z -> vec3) (n1 n2 : nat) (E : vec3) :
  vsum2 c (py_range (Z.of_nat n1)) (py_range (Z.of_nat n2)) E
  = vadd E
      (V3 (sum_n (fun a => sum_n (fun b => vx (c (Z.of_nat a) (Z.of_nat b))) n2) n1)
          (sum_n (fun a => sum_n (fun b => vy (c (Z.of_nat a) (Z.of_nat b))) n2) n1)
          (sum_n (fun a => sum_n (fun b => vz (c (Z.of_nat a) (Z.of_nat b))) n2) n1)).
Proof.
  rewrite (py_range_of_nat n1). induction n1 as [|n1 IH].
  - cbn. symmetry. apply vadd_origin_r.
  - rewrite seq_S, map_app. cbn [map Nat.add]. rewrite vsum2_snoc, IH.
    cbn [sum_n]. rewrite vsum_range. unfold vadd; cbn [vx vy vz]. f_equal; ring.
Qed.

Lemma sum_n_ext (f g : nat -> R) (n : nat) :
  (forall k, (k < n)%nat -> f k = g k) -> sum_n f n = sum_n g n.
Proof.
  induction n as [|n IH]; intros H; [reflexivity|]. cbn [sum_n].
  rewrite IH by (intros k Hk; apply H; lia). rewrite (H n) by lia. reflexivity.
Qed.

Lemma sum_n_scal (a : R) (f : nat -> R) (n : nat) :
  sum_n (fun k => a * f k) n = a * sum_n f n.
Proof. induction n as [|n IH]; cbn [sum_n]; [ring|]. rewrite IH. ring. Qed.

Lemma sum_n_const (a : R) (n : nat) : sum_n (fun _ => a) n = INR n * a.
Proof.
  induction n as [|n IH]; [cbn; ring|]. cbn [sum_n]. rewrite IH, S_INR. ring.
Qed.

Lemma sum_n_split (f : nat -> R) (a b : nat) :
  sum_n f (a + b) = sum_n f a + sum_n (fun k => f (a + k)%nat) b.
Proof.
  induction b as [|b IH].
  - rewrite Nat.add_0_r. cbn [sum_n]. ring.
  - rewrite Nat.add_succ_r. cbn [sum_n]. rewrite IH. ring.
Qed.

Lemma sum_n_rev (f : nat -> R) (n : nat) :
  sum_n f n = sum_n (fun k => f (n - 1 - k)%nat) n.
Proof.
  induction n as [|n IH]; [reflexivity|].
  replace (S n) with (1 + n)%nat at 2 by lia.
  rewrite sum_n_split. cbn [sum_n]. rewrite IH.
  replace (S n - 1 - 0)%nat with n by lia.
  rewrite (sum_n_ext (fun k => f (S n - 1 - (1 + k))%nat)
             (fun k => f (n - 1 - k)%nat))
    by (intros k Hk; f_equal; lia).
  ring.
Qed.

(** A sum whose terms cancel in pairs [k], [n - 1 - k]. *)
Lemma sum_n_antisymmetric (f : nat -> R) (n : nat) :
  (forall k, (k < n)%nat -> f (n - 1 - k)%nat = - f k) -> sum_n f n = 0.
Proof.
  intros H. pose proof (sum_n_rev f n) as Hr.
  rewrite (sum_n_ext (fun k => f (n - 1 - k)%nat) (fun k => -1 * f k)) in Hr
    by (intros k Hk; cbv beta; rewrite H by exact Hk; ring).
  rewrite sum_n_scal in Hr. lra.
Qed.

(** A sum over a whole turn in which opposite terms cancel. *)
Lemma sum_n_half_turn (f : nat -> R) (m : nat) :
  (forall k, (k < m)%nat -> f (m + k)%nat = - f k) -> sum_n f (m + m) = 0.
Proof.
  intros H. rewrite sum_n_split.
  rewrite (sum_n_ext (fun k => f (m + k)%nat) (fun k => -1 * f k))
    by (intros k Hk; cbv beta; rewrite H by exact Hk; ring).
  rewrite sum_n_scal. ring.
Qed.

Lemma angle_half_turn (m k : nat) :
  (0 < m)%nat ->
  IZR (Z.of_nat (m + k)) * (2 * PI / IZR (Z.of_nat (m + m)))
  = IZR (Z.of_nat k) * (2 * PI / IZR (Z.of_nat (m + m))) + PI.
Proof.
  intros Hm. rewrite <- !INR_IZR_INZ, !plus_INR.
  assert (0 < INR m) by (apply lt_0_INR; exact Hm). field. lra.
Qed.

Lemma sum_cos_sin_turn (m : nat) :
  (0 < m)%nat ->
  sum_n (fun k => cos (IZR (Z.of_nat k) * (2 * PI / IZR (Z.of_nat (m + m)))))
    (m + m) = 0 /\
  sum_n (fun k => sin (IZR (Z.of_nat k) * (2 * PI / IZR (Z.of_nat (m + m)))))
    (m + m) = 0.
Proof.
  intros Hm. split; apply sum_n_half_turn; intros k _;
    rewrite (angle_half_turn m k Hm); [apply neg_cos|apply neg_sin].
Qed.

(** ** The ring seen from its centre *)

Lemma ring_centre_distance (c : vec3) (radius theta : R) :
  sqrt (sum_sq (vsub c (V3 (vx c + radius * cos theta)
                           (vy c + radius * sin theta) (vz c))))
  = Rabs radius.
Proof.
  rewrite <- sqrt_Rsqr_abs. f_equal.
  unfold sum_sq, vsub; cbn [vx vy vz]. pose proof (sin2_cos2 theta) as H.
  unfold Rsqr in *. nra.
Qed.

Lemma ring_contribution_centre (c : vec3) (radius sigma eps : R) (N i : Z) :
  ring_contribution c radius sigma eps N c i
  = vscale (if Rltb 1e-8 (Rabs radius)
            then - (sigma * (radius * (2 * PI / IZR N)) * radius)
                 / (4 * PI * eps * Rabs radius ^ 3)
            else 0)
      (V3 (cos (IZR i * (2 * PI / IZR N))) (sin (IZR i * (2 * PI / IZR N))) 0).
Proof.
  unfold ring_contribution. cbv zeta. rewrite ring_centre_distance.
  destruct (Rltb 1e-8 (Rabs radius)).
  - unfold vdiv, vscale, vsub; cbn [vx vy vz]. f_equal; unfold Rdiv; ring.
  - unfold vscale; cbn [vx vy vz]. f_equal; ring.
Qed.

Lemma ring_centre_kernel (c : vec3) (radius sigma eps : R) (m : nat) :
  (0 < m)%nat -> 0 < eps ->
  charged_ring.compute_field_ring c radius sigma [c] eps (Z.of_nat (m + m))
  = Ok [V3 0 0 0].
Proof.
  intros Hm He.
  rewrite ring_superposition by (lia || exact He). cbn [map].
  rewrite vsum_range. do 2 f_equal.
  destruct (sum_cos_sin_turn m Hm) as [Hcos Hsin].
  unfold vadd; cbn [vx vy vz]. f_equal.
  - rewrite (sum_n_ext _ (fun k =>
       (if Rltb 1e-8 (Rabs radius)
        then - (sigma * (radius * (2 * PI / IZR (Z.of_nat (m + m)))) * radius)
             / (4 * PI * eps * Rabs radius ^ 3)
        else 0)
       * cos (IZR (Z.of_nat k) * (2 * PI / IZR (Z.of_nat (m + m))))))
      by (intros k _; rewrite ring_contribution_centre; reflexivity).
    rewrite sum_n_scal, Hcos. ring.
  - rewrite (sum_n_ext _ (fun k =>
       (if Rltb 1e-8 (Rabs radius)
        then - (sigma * (radius * (2 * PI / IZR (Z.of_nat (m + m)))) * radius)
             / (4 * PI * eps * Rabs radius ^ 3)
        else 0)
       * sin (IZR (Z.of_nat k) * (2 * PI / IZR (Z.of_nat (m + m))))))
      by (intros k _; rewrite ring_contribution_centre; reflexivity).
    rewrite sum_n_scal, Hsin. ring.
  - rewrite (sum_n_ext _ (fun _ => 0))
      by (intros k _; rewrite ring_contribution_centre;
          unfold vscale; cbn [vx vy vz]; ring).
    rewrite sum_n_const. ring.
Qed.

Lemma py_int_nat (x : R) (n : nat) : x = INR n -> py_int x = Z.of_nat n.
Proof.
  intros ->. unfold py_int.
  rewrite (proj2 (Rleb_true_iff 0 (INR n))) by apply pos_INR.
  rewrite INR_IZR_INZ. symmetry. apply Int_part_spec. lra.
Qed.

(** X18. At the centre of the ring the contributions of diametrically
    opposite segments cancel: with an even number of segments the
    discretised field there is exactly zero in real arithmetic, for every
    radius and charge density; [E_point] uses 120 segments by default, so
    the tick finds no field at the origin. *)
Theorem ring_centre_field_vanishes (c : vec3) (radius sigma eps : R) (m : nat) :
  (0 < m)%nat -> 0 < eps ->
  charged_ring.compute_field_ring c radius sigma [c] eps (Z.of_nat (m + m))
  = Ok [V3 0 0 0] /\
  charged_ring.E_point (Arr1 [0; 0; 0])
    (<["sigma" := PyAtom (AFloat sigma)]>
       (<["radius" := PyAtom (AFloat radius)]> ∅))
  = Ok (V3 0 0 0).
Proof.
  intros Hm He. split; [apply ring_centre_kernel; assumption|].
  unfold charged_ring.E_point.
  repeat (rewrite kwarg_insert_eq || rewrite kwarg_insert_ne by discriminate).
  rewrite !kwarg_absent
    by (rewrite ?lookup_insert_ne by discriminate; apply lookup_empty).
  cbn [py_number njit_number as_number atom_number mbind res_mbind res_bind
       as_vec3].
  rewrite (py_int_nat (100 + 20) (60 + 60))
    by (rewrite INR_IZR_INZ; change (Z.of_nat (60 + 60)) with 120%Z; lra).
  replace 0.0 with 0 by lra.
  rewrite ring_centre_kernel by (lia || lra). reflexivity.
Qed.

Lemma ring_centre_field_vanishes_witness :
  charged_ring.compute_field_ring (V3 0 0 0) 1 1e-6 [V3 0 0 0] 8.854e-12 120
  = Ok [V3 0 0 0] /\
  charged_ring.E_point (Arr1 [0; 0; 0])
    (<["sigma" := PyAtom (AFloat 1e-6)]>
       (<["radius" := PyAtom (AFloat 1)]> ∅))
  = Ok (V3 0 0 0).
Proof.
  apply (ring_centre_field_vanishes (V3 0 0 0) 1 1e-6 8.854e-12 60); [lia|lra].
Defined.

(** ** The cylinder seen from its centre *)

Lemma cylinder_centre_sum_sq (c : vec3) (radius theta z : R) :
  sum_sq (vsub c (V3 (vx c + radius * cos theta) (vy c + radius * sin theta)
                     (vz c + z)))
  = radius ^ 2 + z ^ 2.
Proof.
  unfold sum_sq, vsub; cbn [vx vy vz]. pose proof (sin2_cos2 theta) as H.
  unfold Rsqr in H. nra.
Qed.

Lemma cylinder_contribution_centre_z (c : vec3) (radius height sigma eps : R)
    (N_theta N_z i j : Z) :
  vz (cylinder_contribution c radius height sigma eps N_theta N_z c i j)
  = axial_term radius
      (sigma * (radius * (2 * PI / IZR N_theta) * (height / IZR N_z))) eps
      (IZR j * (height / IZR N_z) - height / 2).
Proof.
  unfold cylinder_contribution, axial_term. cbv zeta.
  replace (vz c - height / 2 + IZR j * (height / IZR N_z))
    with (vz c + (IZR j * (height / IZR N_z) - height / 2)) by ring.
  rewrite cylinder_centre_sum_sq.
  match goal with
  | |- context [Rltb ?a ?b] => destruct (Rltb a b)
  end; [|reflexivity].
  unfold vdiv, vscale, vsub; cbn [vx vy vz]. unfold Rdiv. ring.
Qed.

Lemma axial_term_odd (radius dq eps z : R) :
  axial_term radius dq eps (- z) = - axial_term radius dq eps z.
Proof.
  unfold axial_term. replace ((- z) ^ 2) with (z ^ 2) by ring.
  match goal with
  | |- context [Rltb ?a ?b] => destruct (Rltb a b)
  end; [|ring].
  unfold Rdiv. ring.
Qed.

(** The heights [j * dz - height / 2], [j = 0 .. N_z - 1], are the lower
    edges of the cells: all but the first cancel in pairs. *)
Lemma axial_sum (radius dq eps height : R) (n : nat) :
  sum_n (fun j => axial_term radius dq eps
                    (IZR (Z.of_nat j) * (height / IZR (Z.of_nat (S n)))
                     - height / 2)) (S n)
  = axial_term radius dq eps (- (height / 2)).
Proof.
  rewrite (sum_n_split _ 1 n : sum_n _ (S n) = _). cbn [sum_n].
  rewrite (sum_n_antisymmetric
             (fun k => axial_term radius dq eps
                         (IZR (Z.of_nat (1 + k)) * (height / IZR (Z.of_nat (S n)))
                          - height / 2)) n).
  - change (Z.of_nat 0) with 0%Z.
    replace (0 * (height / IZR (Z.of_nat (S n))) - height / 2)
      with (- (height / 2)) by ring.
    ring.
  - intros k Hk. cbv beta. rewrite <- axial_term_odd. f_equal.
    replace (Z.of_nat (1 + (n - 1 - k)))
      with (Z.of_nat (S n) - Z.of_nat (1 + k))%Z by lia.
    rewrite minus_IZR.
    assert (IZR (Z.of_nat (S n)) <> 0) by (apply IZR_nonzero; lia).
    field. assumption.
Qed.

(** The axial field at the centre of the cylinder: what the bottom ring
    of surface elements leaves. *)
Lemma cylinder_centre_kernel
    (c : vec3) (radius height sigma eps : R) (N_theta N_z : Z) :
  (0 < N_theta)%Z -> (0 < N_z)%Z -> 0 < eps ->
  1e-6 < sqrt (radius ^ 2 + (height / 2) ^ 2) ->
  exists E : vec3,
    charged_cylinder.compute_field_cylinder c radius height sigma [c]
      N_theta N_z eps = Ok [E] /\
    vz E = sigma * radius * height ^ 2
           / (4 * eps * IZR N_z * sqrt (radius ^ 2 + (height / 2) ^ 2) ^ 3).
Proof.
  intros Ht Hz He Hfar.
  destruct (Z_of_nat_complete N_theta) as [n1 ->]; [lia|].
  destruct (Z_of_nat_complete N_z) as [n2 ->]; [lia|].
  destruct n2 as [|n2]; [lia|].
  rewrite cylinder_superposition by (lia || exact He). cbn [map].
  rewrite vsum2_range. eexists. split; [reflexivity|].
  unfold vadd; cbn [vx vy vz].
  rewrite (sum_n_ext _ (fun _ =>
     axial_term radius
       (sigma * (radius * (2 * PI / IZR (Z.of_nat n1))
                 * (height / IZR (Z.of_nat (S n2))))) eps (- (height / 2)))).
  2:{ intros a _. rewrite <- (axial_sum _ _ _ height n2). apply sum_n_ext. intros b _.
      apply cylinder_contribution_centre_z. }
  rewrite sum_n_const. unfold axial_term.
  replace ((- (height / 2)) ^ 2) with ((height / 2) ^ 2) by ring.
  rewrite (proj2 (Rltb_true_iff _ _) Hfar).
  assert (H1 : IZR (Z.of_nat n1) <> 0) by (apply IZR_nonzero; lia).
  assert (H2 : IZR (Z.of_nat (S n2)) <> 0) by (apply IZR_nonzero; lia).
  assert (Hrho : sqrt (radius ^ 2 + (height / 2) ^ 2) <> 0) by lra.
  pose proof PI_neq0 as Hpi.
  rewrite INR_IZR_INZ. field. repeat split; try assumption. lra.
Qed.

(** X19. The cylinder kernel places its surface elements at the heights
    [-height/2 + j*dz], [j = 0 .. N_z - 1]: the lower edges of the cells,
    the top rim being left out.  The elements are therefore not mirror
    symmetric about the mid-height, and the computed field at the centre
    of the cylinder has the axial component left by the bottom ring alone,
    [sigma * radius * height^2 / (4 * eps * N_z * rho^3)] with [rho] the
    distance from the centre to the bottom rim; it is not zero for a
    charged cylinder, and decreases as [1 / N_z]. *)
Theorem cylinder_centre_axial_field
    (c : vec3) (radius height sigma eps : R) (N_theta N_z : Z) :
  (0 < N_theta)%Z -> (0 < N_z)%Z -> 0 < eps ->
  1e-6 < sqrt (radius ^ 2 + (height / 2) ^ 2) ->
  exists E : vec3,
    charged_cylinder.compute_field_cylinder c radius height sigma [c]
      N_theta N_z eps = Ok [E] /\
    vz E = sigma * radius * height ^ 2
           / (4 * eps * IZR N_z * sqrt (radius ^ 2 + (height / 2) ^ 2) ^ 3) /\
    (sigma <> 0 -> radius <> 0 -> height <> 0 -> vz E <> 0).
Proof.
  intros Ht Hz He Hfar.
  destruct (cylinder_centre_kernel c radius height sigma eps N_theta N_z
              Ht Hz He Hfar) as (E & HE & Hval).
  exists E. split; [exact HE|]. split; [exact Hval|].
  rewrite Hval. intros Hs Hr Hh.
  assert (H2 : IZR N_z <> 0) by (apply IZR_nonzero; lia).
  assert (Hrho : sqrt (radius ^ 2 + (height / 2) ^ 2) <> 0) by lra.
  assert (Hh2 : height ^ 2 <> 0) by (apply pow_nonzero; exact Hh).
  assert (Hrho3 : sqrt (radius ^ 2 + (height / 2) ^ 2) ^ 3 <> 0)
    by (apply pow_nonzero; exact Hrho).
  assert (He4 : 4 * eps <> 0) by lra.
  unfold Rdiv. apply Rmult_integral_contrapositive_currified.
  - do 2 (apply Rmult_integral_contrapositive_currified; try assumption).
  - apply Rinv_neq_0_compat.
    do 2 (apply Rmult_integral_contrapositive_currified; try assumption).
Qed.

Lemma cylinder_centre_axial_field_witness :
  exists E : vec3,
    charged_cylinder.compute_field_cylinder (V3 0 0 0) 1 2 1e-6 [V3 0 0 0]
      60 60 8.854e-12 = Ok [E] /\
    vz E = 1e-6 * 1 * 2 ^ 2
           / (4 * 8.854e-12 * 60 * sqrt (1 ^ 2 + (2 / 2) ^ 2) ^ 3) /\
    (1e-6 <> 0 -> 1 <> 0 -> 2 <> 0 -> vz E <> 0).
Proof.
  apply (cylinder_centre_axial_field (V3 0 0 0) 1 2 1e-6 8.854e-12 60 60);
    [lia|lia|lra|].
  apply Rlt_le_trans with 1; [lra|].
  rewrite <- sqrt_1 at 1. apply sqrt_le_1_alt. lra.
Defined.

(** ** The points of the sampling grid *)

Lemma Rceil_bounds (x : R) : x <= IZR (Rceil x) < x + 1.
Proof.
  unfold Rceil. rewrite opp_IZR. destruct (base_Int_part (- x)). lra.
Qed.

Lemma np_arange_lookup (start stop step : R) (i : nat) (a : R) :
  np_arange start stop step !! i = Some a -> a = start + INR i * step.
Proof.
  unfold np_arange. rewrite list_lookup_fmap.
  destruct (seq 0 _ !! i) as [k|] eqn:Hi; [|discriminate].
  apply lookup_seq in Hi as [-> Hlt]. cbn [fmap option_fmap option_map].
  intros [= <-]. reflexivity.
Qed.

Lemma np_arange_head (start stop step : R) :
  0 < step -> start < stop -> head (np_arange start stop step) = Some start.
Proof.
  intros Hs Hlt. unfold np_arange.
  destruct (Rceil_bounds ((stop - start) / step)) as [Hc _].
  assert (Hx : 0 < (stop - start) / step)
    by (apply Rdiv_lt_0_compat; lra).
  assert (Hz : (0 < Rceil ((stop - start) / step))%Z)
    by (apply lt_IZR; lra).
  destruct (Z.to_nat (Rceil ((stop - start) / step))) as [|n] eqn:Hn; [lia|].
  cbn [seq map head INR]. f_equal. ring.
Qed.

Lemma meshgrid_points_length (xs ys zs : list R) :
  length (meshgrid_points xs ys zs)
  = (length xs * (length ys * length zs))%nat.
Proof.
  unfold meshgrid_points.
  assert (Hrow : forall x : R,
            length (flat_map (fun y => map (fun z => V3 x y z) zs) ys)
            = (length ys * length zs)%nat).
  { intros x. induction ys as [|y ys IH]; [reflexivity|].
    cbn [flat_map length]. rewrite length_app, length_map, IH. lia. }
  induction xs as [|x xs IH]; [reflexivity|].
  cbn [flat_map length]. rewrite length_app, IH, Hrow. lia.
Qed.

Lemma meshgrid_points_In (xs ys zs : list R) (p : vec3) :
  In p (meshgrid_points xs ys zs)
  <-> In (vx p) xs /\ In (vy p) ys /\ In (vz p) zs.
Proof.
  unfold meshgrid_points. rewrite in_flat_map. split.
  - intros (x & Hx & Hp). apply in_flat_map in Hp as (y & Hy & Hp).
    apply in_map_iff in Hp as (z & <- & Hz). cbn [vx vy vz]. auto.
  - intros (Hx & Hy & Hz). exists (vx p). split; [exact Hx|].
    apply in_flat_map. exists (vy p). split; [exact Hy|].
    apply in_map_iff. exists (vz p). split; [destruct p; reflexivity|exact Hz].
Qed.

Lemma min_grid_step_pos (g : geom) : 0 < min_grid_step g.
Proof. destruct g; cbn; lra. Qed.

Lemma grid_extent_pos (g : geom) : 0 < grid_extent g.
Proof. destruct g; cbn; lra. Qed.

(** X20. The points the field is sampled on.  For every geometry and
    every resolution [N >= 1] each axis of the grid starts exactly at
    [-extent] and its [i]-th value is [-extent + i * step], so that no
    value lies below [-extent]; the grid consists of exactly the points
    whose three coordinates are values of the axes, the corner
    [(-extent, -extent, -extent)] among them, and it has the cube of the
    axis length as its number of points.  Nothing is said on how many
    values an axis has. *)
Theorem grid_points_from_axis (g : geom) (N : Z) :
  (1 <= N)%Z ->
  exists gr : grid,
    geometry_map g N = Ok gr /\
    head (grid_x gr) = Some (- grid_extent g) /\
    (forall (i : nat) (x : R), grid_x gr !! i = Some x ->
       x = - grid_extent g + INR i * grid_step gr /\ - grid_extent g <= x) /\
    (forall p : vec3,
       In p (grid_points gr)
       <-> In (vx p) (grid_x gr) /\ In (vy p) (grid_x gr) /\
           In (vz p) (grid_x gr)) /\
    In (V3 (- grid_extent g) (- grid_extent g) (- grid_extent g))
       (grid_points gr) /\
    length (grid_points gr) = (length (grid_x gr) ^ 3)%nat.
Proof.
  intros HN. rewrite (simulate_grid_shape g N HN). cbv zeta.
  eexists. split; [reflexivity|].
  cbn [grid_step grid_x grid_y grid_z].
  set (step := Rmax (0.8 * 20 / IZR N) (min_grid_step g)).
  assert (Hstep : 0 < step).
  { pose proof (min_grid_step_pos g). pose proof (Rmax_r (0.8 * 20 / IZR N)
      (min_grid_step g)). unfold step. lra. }
  pose proof (grid_extent_pos g) as Hext.
  assert (Hlt : - grid_extent g < grid_stop g step)
    by (destruct g; cbn [grid_stop grid_extent] in *; lra).
  pose proof (np_arange_head _ _ _ Hstep Hlt) as Hhead.
  split; [exact Hhead|].
  split.
  { intros i x Hi. apply np_arange_lookup in Hi. split; [exact Hi|].
    pose proof (pos_INR i). subst x. nra. }
  assert (Hin : forall p : vec3,
            In p (grid_points
                    (Grid step
                       (np_arange (- grid_extent g) (grid_stop g step) step)
                       (np_arange (- grid_extent g) (grid_stop g step) step)
                       (np_arange (- grid_extent g) (grid_stop g step) step)))
            <-> In (vx p) (np_arange (- grid_extent g) (grid_stop g step) step)
                /\ In (vy p) (np_arange (- grid_extent g) (grid_stop g step) step)
                /\ In (vz p) (np_arange (- grid_extent g) (grid_stop g step) step))
    by (intros p; unfold grid_points; cbn [grid_x grid_y grid_z];
        apply meshgrid_points_In).
  split; [exact Hin|]. split.
  - apply Hin. cbn [vx vy vz].
    assert (H0 : In (- grid_extent g)
                   (np_arange (- grid_extent g) (grid_stop g step) step)).
    { destruct (np_arange (- grid_extent g) (grid_stop g step) step)
        as [|x l]; [discriminate|].
      cbn [head] in Hhead. injection Hhead as ->. left. reflexivity. }
    auto.
  - unfold grid_points. cbn [grid_x grid_y grid_z].
    rewrite meshgrid_points_length. cbn [Nat.pow]. lia.
Qed.

Lemma grid_points_from_axis_witness :
  exists gr : grid,
    geometry_map charged_ring_mod 20 = Ok gr /\
    head (grid_x gr) = Some (- grid_extent charged_ring_mod) /\
    In (V3 (- grid_extent charged_ring_mod) (- grid_extent charged_ring_mod)
          (- grid_extent charged_ring_mod)) (grid_points gr).
Proof.
  destruct (grid_points_from_axis charged_ring_mod 20)
    as (gr & Hg & Hh & _ & _ & Hc & _); [lia|].
  exists gr. split; [exact Hg|]. split; [exact Hh | exact Hc].
Defined.

(** X21. The resolution slider stops refining the grid: from [N = 80] on
    (from [N = 64] on for the two spheres) the step is the floor of the
    geometry and [simulate] builds the very same grid whatever [N]. *)
Theorem grid_saturates (g : geom) (N : Z) :
  (80 <= N)%Z \/ (g = two_spheres_mod /\ (64 <= N)%Z) ->
  geometry_map g N = geometry_map g 80 /\
  exists gr : grid,
    geometry_map g N = Ok gr /\ grid_step gr = min_grid_step g.
Proof.
  intros HN.
  assert (H1 : (1 <= N)%Z) by lia.
  assert (HN' : 0.8 * 20 / IZR N <= min_grid_step g).
  { assert (Hpos : 0 < IZR N) by (apply IZR_lt; lia).
    apply Rmult_le_reg_r with (IZR N); [exact Hpos|].
    replace (0.8 * 20 / IZR N * IZR N) with (0.8 * 20) by (field; lra).
    destruct HN as [HN | [-> HN]].
    - apply IZR_le in HN. pose proof (min_grid_step_pos g).
      assert (0.2 <= min_grid_step g) by (destruct g; cbn; lra). nra.
    - apply IZR_le in HN. cbn [min_grid_step]. lra. }
  rewrite (simulate_grid_shape g N H1), (simulate_grid_shape g 80) by lia.
  cbv zeta.
  rewrite (Rmax_right _ _ HN').
  assert (H80 : 0.8 * 20 / 80 <= min_grid_step g) by (destruct g; cbn; lra).
  rewrite (Rmax_right _ _ H80).
  split; [reflexivity|]. eexists. split; reflexivity.
Qed.

Lemma grid_saturates_witness :
  geometry_map charged_plate_mod 100 = geometry_map charged_plate_mod 80 /\
  exists gr : grid,
    geometry_map charged_plate_mod 100 = Ok gr /\ grid_step gr = 0.2.
Proof.
  apply (grid_saturates charged_plate_mod 100). left. lia.
Defined.

(** ** The lattice of the equipotentials *)

Lemma np_linspace_spec (start stop : R) (num : nat) :
  (2 <= num)%nat ->
  np_linspace start stop num
  = map (fun i => start + INR i * ((stop - start) / INR (num - 1))) (seq 0 num).
Proof. destruct num as [|[|k]]; [lia|lia|reflexivity]. Qed.

Lemma np_linspace_lookup (start stop : R) (num i : nat) :
  (2 <= num)%nat -> (i < num)%nat ->
  np_linspace start stop num !! i
  = Some (start + INR i * ((stop - start) / INR (num - 1))).
Proof.
  intros Hn Hi. rewrite np_linspace_spec by exact Hn.
  rewrite list_lookup_fmap, lookup_seq_lt by exact Hi. reflexivity.
Qed.

Lemma np_linspace_length (start stop : R) (num : nat) :
  (2 <= num)%nat -> length (np_linspace start stop num) = num.
Proof.
  intros Hn. rewrite np_linspace_spec by exact Hn.
  rewrite length_map, length_seq. reflexivity.
Qed.

Lemma np_linspace_ends (start stop : R) (num : nat) :
  (2 <= num)%nat ->
  np_linspace start stop num !! 0%nat = Some start /\
  np_linspace start stop num !! (num - 1)%nat = Some stop.
Proof.
  intros Hn. rewrite !np_linspace_lookup by lia.
  assert (Hpos : 0 < INR (num - 1)) by (apply lt_0_INR; lia).
  split; f_equal; [cbn [INR]; ring|field; lra].
Qed.

Lemma np_linspace_evenly_spaced (start stop : R) (num : nat) :
  (2 <= num)%nat ->
  evenly_spaced ((stop - start) / INR (num - 1)) (np_linspace start stop num).
Proof.
  intros Hn i a b Ha Hb.
  assert (Hi : (S i < num)%nat).
  { apply lookup_lt_Some in Hb. rewrite np_linspace_length in Hb; assumption. }
  rewrite np_linspace_lookup in Ha, Hb by lia. rewrite S_INR in Hb.
  injection Ha as <-. injection Hb as <-. ring.
Qed.

(** X22. The lattice on which [simulate] evaluates the potential, for the
    five geometries that build it with [np.linspace]: each axis has 25
    samples for the ring and the plate and [min(40, max(10, N))] for the
    cylinder, the parallel plates and the two spheres, hence between 10
    and 40 whatever [N]; unlike the grid of the field it contains both
    boundaries [-extent] and [+extent], and its samples are evenly spaced
    by [2 * extent / (n - 1)]. *)
Theorem potential_axis_spans_extent (g : geom) (N : Z) :
  g <> charged_sphere_mod ->
  exists axis : list R,
    potential_axis g N = Ok axis /\
    (10 <= length axis <= 40)%nat /\
    (g = charged_ring_mod \/ g = charged_plate_mod -> length axis = 25%nat) /\
    (g <> charged_ring_mod -> g <> charged_plate_mod ->
     Z.of_nat (length axis) = Z.min 40 (Z.max 10 N)) /\
    axis !! 0%nat = Some (- grid_extent g) /\
    axis !! (length axis - 1)%nat = Some (grid_extent g) /\
    evenly_spaced (2 * grid_extent g / INR (length axis - 1)) axis.
Proof.
  intros Hg.
  assert (Hshape : exists n : nat,
            (10 <= n <= 40)%nat /\
            (g = charged_ring_mod \/ g = charged_plate_mod -> n = 25%nat) /\
            (g <> charged_ring_mod -> g <> charged_plate_mod ->
             Z.of_nat n = Z.min 40 (Z.max 10 N)) /\
            potential_axis g N
            = Ok (np_linspace (- grid_extent g) (grid_extent g) n)).
  { unfold potential_axis, potential_samples.
    destruct g; try congruence; cbn [grid_extent];
      first [ exists 25%nat; split; [lia|]; split; [intros _; reflexivity|];
              split; [intros; congruence|reflexivity]
            | exists (Z.to_nat (Z.min 40 (Z.max 10 N))); split; [lia|];
              split; [intros [?|?]; discriminate|];
              split; [lia|reflexivity] ]. }
  destruct Hshape as (n & Hn & H25 & Hclamp & ->).
  eexists. split; [reflexivity|].
  rewrite np_linspace_length by lia.
  destruct (np_linspace_ends (- grid_extent g) (grid_extent g) n) as [H0 Hl];
    [lia|].
  repeat (split; [assumption || lia|]).
  replace (2 * grid_extent g) with (grid_extent g - - grid_extent g) by ring.
  apply np_linspace_evenly_spaced. lia.
Qed.

Lemma potential_axis_spans_extent_witness :
  exists axis : list R,
    potential_axis charged_cylinder_mod 5 = Ok axis /\
    length axis = 10%nat /\
    axis !! 0%nat = Some (- grid_extent charged_cylinder_mod) /\
    axis !! 9%nat = Some (grid_extent charged_cylinder_mod).
Proof.
  destruct (potential_axis_spans_extent charged_cylinder_mod 5)
    as (axis & Ha & _ & _ & Hc & H0 & Hl & _); [discriminate|].
  assert (Hlen : length axis = 10%nat)
    by (specialize (Hc ltac:(discriminate) ltac:(discriminate)); lia).
  exists axis. rewrite Hlen in Hl.
  split; [exact Ha|]. split; [exact Hlen|]. split; [exact H0|exact Hl].
Defined.

(** ** utils/math_utils.py: the point charge *)

Lemma K_pos : 0 < K.
Proof.
  unfold K, EPSILON_0. apply Rdiv_lt_0_compat; lra.
Qed.

Lemma distance_3d_numba_sym (p1 p2 : vec3) :
  distance_3d_numba p1 p2 = distance_3d_numba p2 p1.
Proof. unfold distance_3d_numba. f_equal. ring. Qed.

Lemma distance_3d_numba_norm (p1 p2 : vec3) :
  distance_3d_numba p1 p2 = norm (vsub p1 p2).
Proof. reflexivity. Qed.

Lemma distance_3d_numba_zero (p1 p2 : vec3) :
  distance_3d_numba p1 p2 = 0 <-> p1 = p2.
Proof.
  unfold distance_3d_numba. split.
  - intros H. apply sqrt_eq_0 in H;
      [|repeat apply Rplus_le_le_0_compat; apply pow2_ge_0].
    destruct p1 as [x1 y1 z1], p2 as [x2 y2 z2]. cbn [vx vy vz] in H.
    pose proof (pow2_ge_0 (x1 - x2)). pose proof (pow2_ge_0 (y1 - y2)).
    pose proof (pow2_ge_0 (z1 - z2)).
    assert (Hx : (x1 - x2) ^ 2 = 0) by lra.
    assert (Hy : (y1 - y2) ^ 2 = 0) by lra.
    assert (Hz : (z1 - z2) ^ 2 = 0) by lra.
    rewrite <- Rsqr_pow2 in Hx, Hy, Hz.
    apply Rsqr_0_uniq in Hx, Hy, Hz. f_equal; lra.
  - intros ->. rewrite <- sqrt_0. f_equal. ring.
Qed.

Lemma vec3_eq_or (p1 p2 : vec3) : p1 = p2 \/ p1 <> p2.
Proof.
  destruct (Req_dec (distance_3d_numba p1 p2) 0) as [H|H].
  - left. apply distance_3d_numba_zero. exact H.
  - right. intros Heq. apply H. apply distance_3d_numba_zero. exact Heq.
Qed.

Lemma electric_field_point_charge_far (q : R) (r_source r_field : vec3) :
  r_source <> r_field ->
  electric_field_point_charge q r_source r_field
  = vscale (K * q / distance_3d_numba r_field r_source ^ 3)
      (vsub r_field r_source).
Proof.
  intros Hne. unfold electric_field_point_charge. cbv zeta.
  change (sqrt ((vx r_field - vx r_source) ^ 2 + (vy r_field - vy r_source) ^ 2
                + (vz r_field - vz r_source) ^ 2))
    with (distance_3d_numba r_field r_source).
  assert (Hd : distance_3d_numba r_field r_source <> 0).
  { intros H. apply distance_3d_numba_zero in H. congruence. }
  apply Reqb_false_iff in Hd. rewrite Hd. reflexivity.
Qed.

(** X23. The point-charge helper of [utils/math_utils.py].  At the source
    itself it returns the zero vector instead of dividing by zero; away
    from it the field has magnitude [K |q| / r^2], [r] being the distance
    [distance_3d_numba] between the two points; exchanging source and
    field point reverses the field; the field is proportional to the
    charge; and the distance is symmetric and vanishes only between
    equal points. *)
Theorem point_charge_field (q k : R) (r_source r_field : vec3) :
  electric_field_point_charge q r_source r_source = V3 0 0 0 /\
  electric_field_point_charge q r_field r_source
  = vscale (-1) (electric_field_point_charge q r_source r_field) /\
  electric_field_point_charge (k * q) r_source r_field
  = vscale k (electric_field_point_charge q r_source r_field) /\
  distance_3d_numba r_source r_field = distance_3d_numba r_field r_source /\
  (distance_3d_numba r_source r_field = 0 <-> r_source = r_field) /\
  (r_source <> r_field ->
   norm (electric_field_point_charge q r_source r_field)
   = K * Rabs q / distance_3d_numba r_source r_field ^ 2).
Proof.
  assert (Hself : forall q' p, electric_field_point_charge q' p p = V3 0 0 0).
  { intros q' p. unfold electric_field_point_charge. cbv zeta.
    replace (sqrt ((vx p - vx p) ^ 2 + (vy p - vy p) ^ 2 + (vz p - vz p) ^ 2))
      with 0 by (rewrite <- sqrt_0 at 1; f_equal; ring).
    rewrite (proj2 (Reqb_true_iff 0 0) eq_refl). f_equal; lra. }
  split; [apply Hself|].
  destruct (vec3_eq_or r_source r_field) as [->|Hne].
  - rewrite !Hself, !vscale_origin.
    split; [reflexivity|]. split; [reflexivity|]. split; [reflexivity|].
    split; [apply distance_3d_numba_zero|]. intros H. congruence.
  - rewrite !electric_field_point_charge_far by congruence.
    rewrite (distance_3d_numba_sym r_field r_source).
    set (d := distance_3d_numba r_source r_field).
    assert (Hd : d <> 0).
    { unfold d. intros H. apply distance_3d_numba_zero in H. congruence. }
    assert (Hdpos : 0 < d).
    { unfold d, distance_3d_numba in *.
      match goal with
      | |- 0 < sqrt ?s => pose proof (sqrt_pos s)
      end. lra. }
    split.
    { unfold vscale, vsub; cbn [vx vy vz]. f_equal; ring. }
    split.
    { unfold vscale, vsub; cbn [vx vy vz]. f_equal; field; exact Hd. }
    split; [reflexivity|].
    split; [apply distance_3d_numba_zero|].
    intros _. rewrite norm_vscale_abs.
    change (norm (vsub r_field r_source))
      with (distance_3d_numba r_field r_source).
    rewrite (distance_3d_numba_sym r_field r_source). fold d.
    pose proof K_pos as HK.
    unfold Rdiv. rewrite !Rabs_mult, (Rabs_pos_eq K) by lra.
    rewrite Rabs_inv, (Rabs_pos_eq (d ^ 3))
      by (apply pow_le; lra).
    field. exact Hd.
Qed.

Lemma point_charge_field_witness :
  norm (electric_field_point_charge 1e-9 (V3 0 0 0) (V3 1 0 0))
  = K * Rabs 1e-9 / distance_3d_numba (V3 0 0 0) (V3 1 0 0) ^ 2.
Proof.
  apply (point_charge_field 1e-9 1 (V3 0 0 0) (V3 1 0 0)).
  intros H. injection H as H. lra.
Defined.

(** ** The parallel plates on their mid-plane *)

Lemma res_foldl_invariant {A B : Type} (P : B -> Prop) (f : B -> A -> res B)
    (l : list A) (b : B) :
  P b ->
  (forall b' a, P b' -> exists b'', f b' a = Ok b'' /\ P b'') ->
  exists r : B, res_foldl f l b = Ok r /\ P r.
Proof.
  intros Hb Hstep. revert b Hb.
  induction l as [|a l IH]; intros b Hb; [exists b; split; [reflexivity|exact Hb]|].
  cbn [res_foldl]. destruct (Hstep b a Hb) as (b' & -> & Hb').
  cbn [mbind res_mbind res_bind]. apply IH. exact Hb'.
Qed.

Lemma midplane_sum_sq (px py x y h : R) :
  sum_sq (vsub (V3 px py 0) (V3 x y (h / 2)))
  = sum_sq (vsub (V3 px py 0) (V3 x y (- h / 2))).
Proof. unfold sum_sq, vsub; cbn [vx vy vz]. unfold Rdiv. ring. Qed.

(** The accumulation of the kernel on a point of the mid-plane preserves
    any property that survives the addition of the joint contribution of
    two facing surface elements. *)
Lemma parallel_plates_midplane_kernel
    (P : vec3 -> Prop) (q1 q2 area dd eps px py : R) :
  area <> 0 -> 0 < eps ->
  P (V3 0 0 0) ->
  (forall (E : vec3) (x y D : R), P E ->
     P (vadd (vadd E (vdiv (vscale (q1 / area * (2.0 / 20 * (2.0 / 20)))
                              (vsub (V3 px py 0) (V3 x y (- dd / 2)))) D))
             (vdiv (vscale (q2 / area * (2.0 / 20 * (2.0 / 20)))
                      (vsub (V3 px py 0) (V3 x y (dd / 2)))) D))) ->
  exists E : vec3,
    parallel_plates.compute_field_parallel_plates
      (V3 0.0 0.0 (- dd / 2)) (V3 0.0 0.0 (dd / 2)) q1 q2 area [V3 px py 0] eps
    = Ok [E] /\ P E.
Proof.
  intros Harea He H0 Hstep.
  unfold parallel_plates.compute_field_parallel_plates. cbv zeta.
  cbn [res_mapM].
  match goal with
  | |- context [res_foldl ?f ?l ?b] =>
      destruct (res_foldl_invariant P f l b H0) as (E & HE & HP)
  end.
  2:{ rewrite HE. cbn [mbind res_mbind res_bind]. exists E.
      split; [reflexivity|exact HP]. }
  intros E i HPE. apply res_foldl_invariant; [exact HPE|].
  clear E HPE. intros E j HPE.
  rewrite !sdiv_chk_nonzero by exact Harea.
  cbn [mbind res_mbind res_bind vz].
  rewrite midplane_sum_sq.
  match goal with
  | |- context [Rltb 1e-6 ?r] => destruct (Rltb 1e-6 r) eqn:Hfar
  end.
  - apply Rltb_true_iff in Hfar. unfold vdiv_chk.
    match goal with
    | |- context [Reqb ?den 0] =>
        assert (Hd : den <> 0) by (apply sphere_denominator_nonzero; lra)
    end.
    apply Reqb_false_iff in Hd. rewrite Hd.
    cbn [mbind res_mbind res_bind].
    eexists. split; [reflexivity|]. apply Hstep. exact HPE.
  - cbn [mbind res_mbind res_bind]. exists E. split; [reflexivity|exact HPE].
Qed.

(** X24. The field of the two plates on the plane midway between them, as
    the tick evaluates it.  With opposite charges ([invert_signo] true,
    the default) facing surface elements cancel each other's transverse
    pull, so the field is purely along the normal; with equal charges they
    cancel along the normal, so the field lies in the plane.  This holds
    for every charge density and distance, and the evaluation never
    fails. *)
Theorem parallel_plates_midplane_field (s dd x y : R) (inv : bool) :
  exists E : vec3,
    parallel_plates.E_point (Arr1 [x; y; 0])
      (<["sigma" := PyAtom (AFloat s)]>
         (<["distance" := PyAtom (AFloat dd)]>
            (<["invert_signo" := PyAtom (ABool inv)]> ∅)))
    = Ok E /\
    (inv = true -> vx E = 0 /\ vy E = 0) /\
    (inv = false -> vz E = 0).
Proof.
  unfold parallel_plates.E_point.
  repeat (rewrite kwarg_insert_eq || rewrite kwarg_insert_ne by discriminate).
  rewrite kwarg_absent by apply lookup_empty.
  cbn [py_number njit_number as_number atom_number mbind res_mbind res_bind
       truthy atom_truthy as_vec3].
  destruct (parallel_plates_midplane_kernel
              (fun E => (inv = true -> vx E = 0 /\ vy E = 0) /\
                        (inv = false -> vz E = 0))
              (s * (2.0 * 2.0))
              (if inv then - (s * (2.0 * 2.0)) else s * (2.0 * 2.0))
              (2.0 * 2.0) dd EPSILON_0 x y) as (E & HE & HP).
  - lra.
  - unfold EPSILON_0. lra.
  - split; intros _; cbn [vx vy vz]; auto.
  - intros E x' y' D [Ht Hf]. unfold vadd, vdiv, vscale, vsub; cbn [vx vy vz].
    destruct inv.
    + split; [intros _|discriminate].
      destruct (Ht eq_refl) as [-> ->]. split; unfold Rdiv; ring.
    + split; [discriminate|intros _]. rewrite (Hf eq_refl). unfold Rdiv; ring.
  - rewrite HE. cbn [mbind res_mbind res_bind]. exists E.
    split; [reflexivity|exact HP].
Qed.

Lemma parallel_plates_midplane_field_witness :
  exists E : vec3,
    parallel_plates.E_point (Arr1 [0.5; 0.25; 0])
      (<["sigma" := PyAtom (AFloat 1e-6)]>
         (<["distance" := PyAtom (AFloat 1)]>
            (<["invert_signo" := PyAtom (ABool true)]> ∅)))
    = Ok E /\ vx E = 0 /\ vy E = 0.
Proof.
  destruct (parallel_plates_midplane_field 1e-6 1 0.5 0.25 true)
    as (E & HE & Ht & _).
  exists E. split; [exact HE|]. apply Ht. reflexivity.
Defined.

(** ** The ring seen from its axis *)

Lemma ring_axis_sum_sq (c : vec3) (radius theta h : R) :
  sum_sq (vsub (V3 (vx c) (vy c) (vz c + h))
               (V3 (vx c + radius * cos theta) (vy c + radius * sin theta)
                   (vz c)))
  = radius ^ 2 + h ^ 2.
Proof.
  unfold sum_sq, vsub; cbn [vx vy vz]. pose proof (sin2_cos2 theta) as H.
  unfold Rsqr in H. nra.
Qed.

Lemma ring_contribution_axis (c : vec3) (radius sigma eps h : R) (N i : Z) :
  1e-8 < sqrt (radius ^ 2 + h ^ 2) ->
  ring_contribution c radius sigma eps N (V3 (vx c) (vy c) (vz c + h)) i
  = let k := sigma * (radius * (2 * PI / IZR N))
             / (4 * PI * eps * sqrt (radius ^ 2 + h ^ 2) ^ 3) in
    V3 (- (k * radius) * cos (IZR i * (2 * PI / IZR N)))
       (- (k * radius) * sin (IZR i * (2 * PI / IZR N)))
       (k * h).
Proof.
  intros Hfar. unfold ring_contribution. cbv zeta. rewrite ring_axis_sum_sq.
  rewrite (proj2 (Rltb_true_iff _ _) Hfar).
  unfold vdiv, vscale, vsub; cbn [vx vy vz]. f_equal; unfold Rdiv; ring.
Qed.

Lemma rsum_range (g : Z -> R) (n : nat) (V : R) :
  fold_left (fun V i => V + g i) (py_range (Z.of_nat n)) V
  = V + sum_n (fun k => g (Z.of_nat k)) n.
Proof.
  rewrite py_range_of_nat. induction n as [|n IH]; [cbn; ring|].
  rewrite seq_S, map_app, fold_left_app, IH. cbn [map fold_left Nat.add sum_n].
  ring.
Qed.

(** X25. On the axis of the ring the discretisation is exact.  At height
    [h] above the centre, farther than the cut-off from the ring, the
    field computed with an even number of segments is exactly the
    analytic one, along the axis with magnitude
    [sigma * radius * h / (2 * eps * rho^3)], and the potential computed
    with any number of segments is [sigma * radius / (2 * eps * rho)],
    where [rho = sqrt (radius^2 + h^2)]. *)
Theorem ring_axis_closed_form
    (c : vec3) (radius sigma eps h : R) (m : nat) (N : Z) :
  (0 < m)%nat -> (0 < N)%Z -> 0 < eps ->
  1e-8 < sqrt (radius ^ 2 + h ^ 2) ->
  charged_ring.compute_field_ring c radius sigma
    [V3 (vx c) (vy c) (vz c + h)] eps (Z.of_nat (m + m))
  = Ok [V3 0 0 (sigma * radius * h
                / (2 * eps * sqrt (radius ^ 2 + h ^ 2) ^ 3))] /\
  compute_potential_ring c radius sigma [V3 (vx c) (vy c) (vz c + h)] eps N
  = Ok [sigma * radius / (2 * eps * sqrt (radius ^ 2 + h ^ 2))].
Proof.
  intros Hm HN He Hfar.
  assert (Hrho : sqrt (radius ^ 2 + h ^ 2) <> 0) by lra.
  pose proof PI_neq0 as Hpi.
  split.
  - rewrite ring_superposition by (lia || exact He). cbn [map].
    rewrite vsum_range. do 2 f_equal.
    destruct (sum_cos_sin_turn m Hm) as [Hcos Hsin].
    assert (HM : IZR (Z.of_nat (m + m)) <> 0) by (apply IZR_nonzero; lia).
    set (k := sigma * (radius * (2 * PI / IZR (Z.of_nat (m + m))))
              / (4 * PI * eps * sqrt (radius ^ 2 + h ^ 2) ^ 3)).
    unfold vadd; cbn [vx vy vz]. f_equal.
    + rewrite (sum_n_ext _ (fun j =>
         - (k * radius)
         * cos (IZR (Z.of_nat j) * (2 * PI / IZR (Z.of_nat (m + m))))))
        by (intros j _; rewrite ring_contribution_axis by exact Hfar;
            reflexivity).
      rewrite sum_n_scal, Hcos. ring.
    + rewrite (sum_n_ext _ (fun j =>
         - (k * radius)
         * sin (IZR (Z.of_nat j) * (2 * PI / IZR (Z.of_nat (m + m))))))
        by (intros j _; rewrite ring_contribution_axis by exact Hfar;
            reflexivity).
      rewrite sum_n_scal, Hsin. ring.
    + rewrite (sum_n_ext _ (fun _ => k * h))
        by (intros j _; rewrite ring_contribution_axis by exact Hfar;
            reflexivity).
      rewrite sum_n_const. unfold k. rewrite INR_IZR_INZ.
      field. repeat split; try assumption. lra.
  - destruct (Z_of_nat_complete N) as [n ->]; [lia|].
    assert (HM : IZR (Z.of_nat n) <> 0) by (apply IZR_nonzero; lia).
    unfold compute_potential_ring.
    rewrite sdiv_chk_nonzero by exact HM.
    cbn [mbind res_mbind res_bind res_mapM].
    rewrite (res_foldl_ok _
               (fun V (_ : Z) =>
                  V + sigma * (radius * (2 * PI / IZR (Z.of_nat n)))
                      / (4 * PI * eps * sqrt (radius ^ 2 + h ^ 2)))).
    2:{ intros V i. cbv zeta. rewrite ring_axis_sum_sq.
        rewrite (proj2 (Rltb_true_iff _ _) Hfar).
        rewrite sdiv_chk_nonzero; [reflexivity|].
        apply Rmult_integral_contrapositive_currified;
          [apply Rmult_integral_contrapositive_currified;
           [apply Rmult_integral_contrapositive_currified|]|];
          assumption || lra. }
    cbn [mbind res_mbind res_bind]. do 2 f_equal.
    rewrite (rsum_range (fun _ => _)), sum_n_const, INR_IZR_INZ.
    field. repeat split; try assumption. lra.
Qed.

Lemma ring_axis_closed_form_witness :
  charged_ring.compute_field_ring (V3 0 0 0) 1 1e-6 [V3 0 0 (0 + 1)] 8.854e-12
    120
  = Ok [V3 0 0 (1e-6 * 1 * 1 / (2 * 8.854e-12 * sqrt (1 ^ 2 + 1 ^ 2) ^ 3))] /\
  compute_potential_ring (V3 0 0 0) 1 1e-6 [V3 0 0 (0 + 1)] 8.854e-12 25
  = Ok [1e-6 * 1 / (2 * 8.854e-12 * sqrt (1 ^ 2 + 1 ^ 2))].
Proof.
  apply (ring_axis_closed_form (V3 0 0 0) 1 1e-6 8.854e-12 1 60 25);
    [lia|lia|lra|].
  apply Rlt_le_trans with 1; [lra|].
  rewrite <- sqrt_1 at 1. apply sqrt_le_1_alt. lra.
Defined.

(** ** The resolution of the configuration and the tick *)







